(** * ResearchHub: the document / annotation synchronisation layer

    A shallow embedding of [Proof-o-concept/AI-Assisste-research-.js]: the
    React component [ResearchHub] keeps three collections in memory
    (documents, notes by document, links by document) and mirrors them into
    the external key-value store [window.storage] under the key namespaces
    [doc:], [notes:] and [links:].

    Conventions of the embedding.
    - A JavaScript string is a sequence of 16-bit code units. It is
      represented by a [string] of bytes in which each code unit is written
      by itself, in one byte below 128, two below 2048 and three from there
      on ([code_unit_bytes], the UTF-8 form of the unit; [code_units] reads
      it back). The forms are self-synchronising, so that concatenation,
      prefix, substring search and replacement on the bytes are the ones on
      the code units; [take_units] and [trim] go by code units.
    - The case mapping beyond ASCII and the decimal rendering of a parsed
      number are tables of the language, not of the program: they are the
      two fields of the class [Host], and every statement holds for every
      host.
    - A JSON number is kept as its literal, which stands for the number it
      denotes.
    - The functions of the component work on typed records ([Document],
      [Note], [Analysis.t]): the values that the component itself builds
      from answers of the shape its prompt asks for. Where the component
      takes in values it does not check, what [JSON.parse] returned is kept
      as it is: the answer of the service in [analyzeDocument] and
      [newDoc_object], the records of the store in [loadData_values].
    - A component function that reads React state and calls setters is a
      function on the record [Hub] of that state; the calls issued to
      [window.storage] are applied to the persisted map and appended to a
      log, in the order in which the source issues them.
    - What the outside world answers (the clock, the random source, the
      network, the store on reads) is an argument of the function that
      consumes it. *)

From Stdlib Require Import ZArith Ascii String Bool Lia.
From Stdlib Require Import DecimalString.
From stdpp Require Import base option list gmap strings.

Local Open Scope Z_scope.

(** ** String primitives of the host language *)

Module JsString.

(** *** The encoding of code units *)

(** The bytes of one code unit: one byte below 128, two below 2048, three
    from there on. *)
Definition code_unit_bytes (u : N) : string :=
  if (u <? 128)%N then String (ascii_of_N u) EmptyString
  else if (u <? 2048)%N then
    String (ascii_of_N (192 + u / 64))
      (String (ascii_of_N (128 + u mod 64)) EmptyString)
  else
    String (ascii_of_N (224 + u / 4096))
      (String (ascii_of_N (128 + (u / 64) mod 64))
         (String (ascii_of_N (128 + u mod 64)) EmptyString)).

(** A byte that continues the form of a code unit. *)
Definition is_continuation (c : ascii) : bool :=
  let n := N_of_ascii c in (128 <=? n)%N && (n <? 192)%N.

(** The code units a string stands for; [None] when its bytes are not the
    forms of a sequence of code units. *)
Fixpoint code_units (s : string) : option (list N) :=
  match s with
  | EmptyString => Some []
  | String a r =>
      let x := N_of_ascii a in
      if (x <? 128)%N then
        match code_units r with
        | Some us => Some (x :: us)
        | None => None
        end
      else if (x <? 194)%N then None
      else if (x <? 224)%N then
        match r with
        | String b r' =>
            if is_continuation b then
              match code_units r' with
              | Some us => Some (((x - 192) * 64 + (N_of_ascii b - 128))%N :: us)
              | None => None
              end
            else None
        | EmptyString => None
        end
      else if (x <? 240)%N then
        match r with
        | String b (String c r') =>
            if is_continuation b && is_continuation c
               && ((224 <? x)%N || (160 <=? N_of_ascii b)%N) then
              match code_units r' with
              | Some us =>
                  Some ((((x - 224) * 64 + (N_of_ascii b - 128)) * 64
                         + (N_of_ascii c - 128))%N :: us)
              | None => None
              end
            else None
        | _ => None
        end
      else None
  end.

(** The forms of the surrogates, the code units from D800 to DFFF: the
    byte 237, a byte from 160 to 175 for a high surrogate, from 176 to 191
    for a low one, and a continuation byte. *)
Definition is_high_surrogate (a b c : ascii) : bool :=
  (N_of_ascii a =? 237)%N && (160 <=? N_of_ascii b)%N && (N_of_ascii b <=? 175)%N
  && is_continuation c.

Definition is_low_surrogate (a b c : ascii) : bool :=
  (N_of_ascii a =? 237)%N && (176 <=? N_of_ascii b)%N && (N_of_ascii b <=? 191)%N
  && is_continuation c.

(** The surrogate written [237], [b], [c]. *)
Definition surrogate_unit (b c : ascii) : N :=
  (53248 + (N_of_ascii b - 128) * 64 + (N_of_ascii c - 128))%N.

(** [s.slice(0, n)]: the first [n] code units, each with all the bytes of
    its form. *)
Fixpoint take_units (n : nat) (s : string) : string :=
  match n with
  | O => EmptyString
  | S n' =>
      match s with
      | EmptyString => EmptyString
      | String a r =>
          if (N_of_ascii a <? 192)%N then String a (take_units n' r)
          else
            match r with
            | EmptyString => String a EmptyString
            | String b r' =>
                if (N_of_ascii a <? 224)%N then String a (String b (take_units n' r'))
                else
                  match r' with
                  | EmptyString => String a (String b EmptyString)
                  | String c r'' => String a (String b (String c (take_units n' r'')))
                  end
            end
      end
  end.

(** The code units of a string, each as a string of its own: [s[0]],
    [s[1]], and so on. *)
Fixpoint unit_strings (s : string) : list string :=
  match s with
  | EmptyString => []
  | String a r =>
      if (N_of_ascii a <? 192)%N then String a EmptyString :: unit_strings r
      else
        match r with
        | EmptyString => [String a EmptyString]
        | String b r' =>
            if (N_of_ascii a <? 224)%N
            then String a (String b EmptyString) :: unit_strings r'
            else
              match r' with
              | EmptyString => [String a (String b EmptyString)]
              | String c r'' =>
                  String a (String b (String c EmptyString)) :: unit_strings r''
              end
        end
  end.

(** *** Searching and replacing *)

(** [s.startsWith(p)], returning what follows the prefix. *)
Fixpoint strip_prefix (p s : string) : option string :=
  match p with
  | EmptyString => Some s
  | String a p' =>
      match s with
      | EmptyString => None
      | String b s' => if Ascii.eqb a b then strip_prefix p' s' else None
      end
  end.

Definition starts_with (p s : string) : bool :=
  match strip_prefix p s with Some _ => true | None => false end.

(** [s.includes(needle)]: some suffix of [s] starts with [needle]. *)
Fixpoint includes (s needle : string) : bool :=
  starts_with needle s ||
  match s with
  | EmptyString => false
  | String _ s' => includes s' needle
  end.

(** [s.replace(pat, rep)] with a string pattern: only the first
    occurrence, scanning from the left, is replaced. *)
Fixpoint replace_first (pat rep s : string) : string :=
  match strip_prefix pat s with
  | Some rest => rep +:+ rest
  | None =>
      match s with
      | EmptyString => EmptyString
      | String c s' => String c (replace_first pat rep s')
      end
  end.

Fixpoint all_chars (f : ascii -> bool) (s : string) : bool :=
  match s with
  | EmptyString => true
  | String c s' => f c && all_chars f s'
  end.

Definition is_empty (s : string) : bool :=
  match s with EmptyString => true | _ => false end.

(** *** Case *)

(** What the embedding takes from the host: the two functions of the
    language that rest on tables outside the program, the case mapping of
    Unicode and the decimal rendering of a binary floating point number. *)
Class Host : Type := mkHost
  { (** [s.toLowerCase()] for a [s] with a code unit beyond ASCII. *)
    lowerCaseBeyondAscii : string -> string;
    (** [String(x)] for the number [x] that a number literal of JSON
        denotes. *)
    numberToString : string -> string }.

Definition is_ascii (c : ascii) : bool := (N_of_ascii c <? 128)%N.

Definition is_upper (c : ascii) : bool :=
  let n := nat_of_ascii c in (65 <=? n)%nat && (n <=? 90)%nat.

Definition lower_ascii (c : ascii) : ascii :=
  if is_upper c then ascii_of_nat (nat_of_ascii c + 32) else c.

(** The lower case of a string of ASCII: the letters A to Z become a to z. *)
Fixpoint lowerAscii (s : string) : string :=
  match s with
  | EmptyString => EmptyString
  | String c s' => String (lower_ascii c) (lowerAscii s')
  end.

(** [s.toLowerCase()]. *)
Definition toLowerCase `{Host} (s : string) : string :=
  if all_chars is_ascii s then lowerAscii s else lowerCaseBeyondAscii s.

(** *** White space *)

(** The white space and the line terminators of the language, which
    [trim] removes, each by the bytes of its code unit: tab to carriage
    return (9 to 13), space (20), no-break space (A0), ogham space mark
    (1680), en quad to hair space (2000 to 200A), line and paragraph
    separator (2028, 2029), narrow no-break space (202F), medium
    mathematical space (205F), ideographic space (3000), byte order mark
    (FEFF). *)
Definition form (bytes : list nat) : string :=
  string_of_list_ascii (map ascii_of_nat bytes).

Definition spaces : list string :=
  map form
    [[9]; [10]; [11]; [12]; [13]; [32]; [194; 160]; [225; 154; 128];
     [226; 128; 128]; [226; 128; 129]; [226; 128; 130]; [226; 128; 131];
     [226; 128; 132]; [226; 128; 133]; [226; 128; 134]; [226; 128; 135];
     [226; 128; 136]; [226; 128; 137]; [226; 128; 138];
     [226; 128; 168]; [226; 128; 169]; [226; 128; 175]; [226; 129; 159];
     [227; 128; 128]; [239; 187; 191]]%nat.

(** The same by code point. *)
Definition white_space : list N :=
  [9; 10; 11; 12; 13; 32; 160; 5760;
   8192; 8193; 8194; 8195; 8196; 8197; 8198; 8199; 8200; 8201; 8202;
   8232; 8233; 8239; 8287; 12288; 65279]%N.

(** The bytes of a form after its first. *)
Definition later_bytes (w : string) : string :=
  match w with
  | EmptyString => EmptyString
  | String _ w' => w'
  end.

Definition reverse (s : string) : string :=
  string_of_list_ascii (rev (list_ascii_of_string s)).

(** [s] without the form of [forms] it starts with, if it starts with one. *)
Definition strip_space (forms : list string) (s : string) : option string :=
  fold_right
    (fun w found => match strip_prefix w s with Some r => Some r | None => found end)
    None forms.

(** [s] without the forms of [forms] it starts with, [n] bounding their
    number. *)
Fixpoint drop_spaces (forms : list string) (n : nat) (s : string) : string :=
  match n with
  | O => s
  | S n' =>
      match strip_space forms s with
      | Some r => drop_spaces forms n' r
      | None => s
      end
  end.

Definition trimStart (s : string) : string :=
  drop_spaces spaces (String.length s) s.

(** From the end: the same on the reversed string, with the forms
    reversed. *)
Definition trimEnd (s : string) : string :=
  reverse (drop_spaces (map reverse spaces) (String.length s) (reverse s)).

(** [s.trim()]. *)
Definition trim (s : string) : string := trimEnd (trimStart s).

(** *** Arrays of strings *)

(** [arr.includes(x)] on an array of strings. *)
Definition array_includes (l : list string) (x : string) : bool :=
  existsb (String.eqb x) l.

(** [arr.join("")]. *)
Definition join_empty (l : list string) : string :=
  fold_right String.append EmptyString l.

End JsString.

(** ** JSON values, [JSON.stringify] and [JSON.parse]

  Numbers are kept as their decimal literal: the program only moves them
  around and compares them, it never computes with a parsed number. *)

Module Json.
Import JsString.

#[warnings="-register-all"] Inductive JSON : Type :=
| JNull
| JBool (b : bool)
| JNum (literal : string)
| JStr (s : string)
| JArr (items : list JSON)
| JObj (members : list (string * JSON)).

Definition quote : ascii := "034"%char.
Definition backslash : ascii := "092"%char.

Definition hex_digit (n : nat) : ascii :=
  if (n <? 10)%nat then ascii_of_nat (48 + n) else ascii_of_nat (87 + n).

(** One character of a quoted JSON string, as [JSON.stringify] writes it. *)
Definition escape_char (c : ascii) : string :=
  let n := nat_of_ascii c in
  if Ascii.eqb c quote then String backslash (String quote EmptyString)
  else if Ascii.eqb c backslash then String backslash (String backslash EmptyString)
  else if (n =? 8)%nat then String backslash "b"
  else if (n =? 12)%nat then String backslash "f"
  else if (n =? 10)%nat then String backslash "n"
  else if (n =? 13)%nat then String backslash "r"
  else if (n =? 9)%nat then String backslash "t"
  else if (n <? 32)%nat then
    String backslash
      ("u00" +:+ String (hex_digit (n / 16)) (String (hex_digit (n mod 16)) EmptyString))
  else String c EmptyString.

(** A surrogate that stands alone, as [JSON.stringify] writes it: by its
    four hexadecimal digits. *)
Definition escape_unit (u : N) : string :=
  String backslash
    (String "u"
       (String (hex_digit (N.to_nat (u / 4096)))
          (String (hex_digit (N.to_nat ((u / 256) mod 16)))
             (String (hex_digit (N.to_nat ((u / 16) mod 16)))
                (String (hex_digit (N.to_nat (u mod 16))) EmptyString))))).

(** The characters of a string between its quotes: a high surrogate and
    the low surrogate after it are written as they are, a surrogate that
    stands alone by its digits, every other byte by [escape_char]. *)
Fixpoint escape (s : string) : string :=
  match s with
  | EmptyString => EmptyString
  | String a r =>
      match r with
      | String b (String c r3) =>
          if is_high_surrogate a b c then
            match r3 with
            | String a' (String b' (String c' r6)) =>
                if is_low_surrogate a' b' c'
                then String a (String b (String c
                       (String a' (String b' (String c' (escape r6))))))
                else escape_unit (surrogate_unit b c) +:+ escape r3
            | _ => escape_unit (surrogate_unit b c) +:+ escape r3
            end
          else if is_low_surrogate a b c
          then escape_unit (surrogate_unit b c) +:+ escape r3
          else escape_char a +:+ escape r
      | _ => escape_char a +:+ escape r
      end
  end.

Definition quoted (s : string) : string :=
  String quote (escape s +:+ String quote EmptyString).

(** Elements separated by commas. *)
Fixpoint commas (l : list string) : string :=
  match l with
  | [] => EmptyString
  | [x] => x
  | x :: rest => x +:+ "," +:+ commas rest
  end.

Fixpoint stringify (j : JSON) : string :=
  match j with
  | JNull => "null"
  | JBool true => "true"
  | JBool false => "false"
  | JNum lit => lit
  | JStr s => quoted s
  | JArr items => "[" +:+ commas (map stringify items) +:+ "]"
  | JObj members =>
      "{" +:+
      commas (map (fun kv => quoted (fst kv) +:+ ":" +:+ stringify (snd kv)) members)
      +:+ "}"
  end.

(** *** Parsing *)

Definition is_json_space (c : ascii) : bool :=
  let n := nat_of_ascii c in
  (n =? 32)%nat || (n =? 9)%nat || (n =? 10)%nat || (n =? 13)%nat.

Fixpoint skip_ws (s : string) : string :=
  match s with
  | String c s' => if is_json_space c then skip_ws s' else s
  | EmptyString => EmptyString
  end.

Definition is_digit (c : ascii) : bool :=
  let n := nat_of_ascii c in (48 <=? n)%nat && (n <=? 57)%nat.

Definition hex_value (c : ascii) : option N :=
  let n := N_of_ascii c in
  if (48 <=? n)%N && (n <=? 57)%N then Some (n - 48)%N
  else if (97 <=? n)%N && (n <=? 102)%N then Some (n - 87)%N
  else if (65 <=? n)%N && (n <=? 70)%N then Some (n - 55)%N
  else None.

(** The characters after an opening quote, up to the closing one. *)
Fixpoint parse_chars (s : string) : option (string * string) :=
  match s with
  | EmptyString => None
  | String c s1 =>
      if Ascii.eqb c quote then Some (EmptyString, s1)
      else if Ascii.eqb c backslash then
        match s1 with
        | String e s2 =>
            let plain (x : ascii) :=
              match parse_chars s2 with
              | Some (t, r) => Some (String x t, r)
              | None => None
              end in
            if Ascii.eqb e quote then plain quote
            else if Ascii.eqb e backslash then plain backslash
            else if Ascii.eqb e "/" then plain "/"%char
            else if Ascii.eqb e "b" then plain (ascii_of_nat 8)
            else if Ascii.eqb e "f" then plain (ascii_of_nat 12)
            else if Ascii.eqb e "n" then plain (ascii_of_nat 10)
            else if Ascii.eqb e "r" then plain (ascii_of_nat 13)
            else if Ascii.eqb e "t" then plain (ascii_of_nat 9)
            else if Ascii.eqb e "u" then
              match s2 with
              | String h1 (String h2 (String h3 (String h4 s3))) =>
                  match hex_value h1, hex_value h2, hex_value h3, hex_value h4 with
                  | Some a, Some b, Some c', Some d =>
                      match parse_chars s3 with
                      | Some (t, r) =>
                          Some (code_unit_bytes (((a * 16 + b) * 16 + c') * 16 + d)%N +:+ t, r)
                      | None => None
                      end
                  | _, _, _, _ => None
                  end
              | _ => None
              end
            else None
        | EmptyString => None
        end
      else if (nat_of_ascii c <? 32)%nat then None
      else
        match parse_chars s1 with
        | Some (t, r) => Some (String c t, r)
        | None => None
        end
  end.

Fixpoint take_digits (s : string) : string * string :=
match s with
| String c s' =>
    if is_digit c then let (ds, r) := take_digits s' in (String c ds, r)
    else (EmptyString, s)
| EmptyString => (EmptyString, EmptyString)
end.

(** A number literal: an optional minus sign, an integer part without
    leading zero, an optional fraction, an optional exponent. *)
Definition parse_number (s : string) : option (string * string) :=
let (sign, s1) :=
  match s with
  | String "-" r => ("-", r)
  | _ => (EmptyString, s)
  end in
match s1 with
| String c r =>
    if is_digit c then
      let (int_part, r1) :=
        if Ascii.eqb c "0" then ("0", r)
        else let (ds, r') := take_digits r in (String c ds, r') in
      let frac :=
        match r1 with
        | String "." r2 =>
            let (ds, r3) := take_digits r2 in
            if is_empty ds then None else Some ("." +:+ ds, r3)
        | _ => Some (EmptyString, r1)
        end in
      match frac with
      | None => None
      | Some (frac_part, r4) =>
          let with_exp (e : ascii) (r5 : string) :=
            let (esign, r6) :=
              match r5 with
              | String "+" r => ("+", r)
              | String "-" r => ("-", r)
              | _ => (EmptyString, r5)
              end in
            let (ds, r7) := take_digits r6 in
            if is_empty ds then None
            else Some (sign +:+ int_part +:+ frac_part +:+ String e (esign +:+ ds), r7) in
          match r4 with
          | String "e" r5 => with_exp "e"%char r5
          | String "E" r5 => with_exp "E"%char r5
          | _ => Some (sign +:+ int_part +:+ frac_part, r4)
          end
      end
    else None
| EmptyString => None
end.

(** The elements of an array after the first, [n] bounding their number. *)
Fixpoint parse_elements (value : string -> option (JSON * string))
  (n : nat) (s : string) (acc : list JSON) : option (JSON * string) :=
match n with
| O => None
| S n' =>
    match value s with
    | Some (v, r) =>
        match skip_ws r with
        | String "," r' => parse_elements value n' r' (v :: acc)
        | String "]" r' => Some (JArr (rev (v :: acc)), r')
        | _ => None
        end
    | None => None
    end
end.

Fixpoint parse_members (value : string -> option (JSON * string))
  (n : nat) (s : string) (acc : list (string * JSON)) : option (JSON * string) :=
match n with
| O => None
| S n' =>
    match skip_ws s with
    | String c r =>
        if Ascii.eqb c quote then
          match parse_chars r with
          | Some (k, r1) =>
              match skip_ws r1 with
              | String ":" r2 =>
                  match value r2 with
                  | Some (v, r3) =>
                      match skip_ws r3 with
                      | String "," r4 => parse_members value n' r4 ((k, v) :: acc)
                      | String "}" r4 => Some (JObj (rev ((k, v) :: acc)), r4)
                      | _ => None
                      end
                  | None => None
                  end
              | _ => None
              end
          | None => None
          end
        else None
    | EmptyString => None
    end
end.

(** One value, with the white space before it; [fuel] bounds the nesting. *)
Fixpoint parse_value (fuel : nat) (s : string) : option (JSON * string) :=
match fuel with
| O => None
| S fuel' =>
    match skip_ws s with
    | EmptyString => None
    | String c r as t =>
        if Ascii.eqb c quote then
          match parse_chars r with
          | Some (str, r') => Some (JStr str, r')
          | None => None
          end
        else if Ascii.eqb c "[" then
          match skip_ws r with
          | String "]" r' => Some (JArr [], r')
          | _ => parse_elements (parse_value fuel') (String.length r) r []
          end
        else if Ascii.eqb c "{" then
          match skip_ws r with
          | String "}" r' => Some (JObj [], r')
          | _ => parse_members (parse_value fuel') (String.length r) r []
          end
        else if Ascii.eqb c "t" then
          match strip_prefix "true" t with
          | Some r' => Some (JBool true, r')
          | None => None
          end
        else if Ascii.eqb c "f" then
          match strip_prefix "false" t with
          | Some r' => Some (JBool false, r')
          | None => None
          end
        else if Ascii.eqb c "n" then
          match strip_prefix "null" t with
          | Some r' => Some (JNull, r')
          | None => None
          end
        else
          match parse_number t with
          | Some (lit, r') => Some (JNum lit, r')
          | None => None
          end
    end
end.

(** [JSON.parse(s)]; [None] when it throws a [SyntaxError]. *)
Definition parse (s : string) : option JSON :=
match parse_value (S (String.length s)) s with
| Some (v, r) => if is_empty (skip_ws r) then Some v else None
| None => None
end.

(** Property lookup on a parsed object: the last member of that name. *)
Fixpoint member (k : string) (members : list (string * JSON)) : option JSON :=
match members with
| [] => None
| (k', v) :: rest =>
    match member k rest with
    | Some v' => Some v'
    | None => if String.eqb k k' then Some v else None
    end
end.

End Json.

(** ** The data model *)

(** The result of an analysis: what the prompt of [analyzeDocument] asks
    the service for, and the shape of the fallback. *)
Module Analysis.
Import Json.

Record t : Type := mk
  { summary : string;
    keywords : list string;
    entities : list string;
    topic : string }.

Definition to_json (a : t) : JSON :=
  JObj [("summary", JStr (summary a));
        ("keywords", JArr (map JStr (keywords a)));
        ("entities", JArr (map JStr (entities a)));
        ("topic", JStr (topic a))].

End Analysis.

Module ResearchHub.
Import JsString Json.

(** A numeric identifier is represented by its decimal rendering, the one
    [JSON.stringify] and a template literal both produce; on numbers other
    than NaN, [===] agrees with equality of the renderings. *)
Definition DocId : Type := string.

(** An element of [documents].  The four fields copied from an analysis are
    read through [?.] by the component, so they may be absent. *)
Record Document : Type := mkDocument
  { id : DocId;
    title : string;
    content : string;
    uploadDate : string;
    fileType : string;
    tags : list string;
    summary : option string;
    keywords : option (list string);
    entities : option (list string);
    topic : option string }.

(** An element of [notes[docId]]; [note_id] is the field [id] of the note. *)
Record Note : Type := mkNote
  { note_id : Z;
    text : string;
    timestamp : string }.

(** A call issued to [window.storage]; [None] is the value [undefined]. *)
Inductive StorageCall : Type :=
| StorageSet (key : string) (value : option string)
| StorageDelete (key : string).

(** The state of the component (the [useState] cells) together with the
    content of the store and the calls issued to it so far, latest last. *)
Record Hub : Type := mkHub
  { documents : list Document;
    selectedDoc : option Document;
    searchTerm : string;
    filterTag : string;
    isAnalyzing : bool;
    showUpload : bool;
    notes : gmap string (list Note);
    links : gmap string (list string);
    persisted : gmap string string;
    storage_calls : list StorageCall }.

Definition initial : Hub :=
  mkHub [] None EmptyString EmptyString false false ∅ ∅ ∅ [].

(** *** Setters *)

Definition setDocuments (v : list Document) (h : Hub) : Hub :=
  mkHub v (selectedDoc h) (searchTerm h) (filterTag h) (isAnalyzing h)
    (showUpload h) (notes h) (links h) (persisted h) (storage_calls h).

Definition setSelectedDoc (v : option Document) (h : Hub) : Hub :=
  mkHub (documents h) v (searchTerm h) (filterTag h) (isAnalyzing h)
    (showUpload h) (notes h) (links h) (persisted h) (storage_calls h).

Definition setSearchTerm (v : string) (h : Hub) : Hub :=
  mkHub (documents h) (selectedDoc h) v (filterTag h) (isAnalyzing h)
    (showUpload h) (notes h) (links h) (persisted h) (storage_calls h).

Definition setFilterTag (v : string) (h : Hub) : Hub :=
  mkHub (documents h) (selectedDoc h) (searchTerm h) v (isAnalyzing h)
    (showUpload h) (notes h) (links h) (persisted h) (storage_calls h).

Definition setIsAnalyzing (v : bool) (h : Hub) : Hub :=
  mkHub (documents h) (selectedDoc h) (searchTerm h) (filterTag h) v
    (showUpload h) (notes h) (links h) (persisted h) (storage_calls h).

Definition setShowUpload (v : bool) (h : Hub) : Hub :=
  mkHub (documents h) (selectedDoc h) (searchTerm h) (filterTag h)
    (isAnalyzing h) v (notes h) (links h) (persisted h) (storage_calls h).

Definition setNotes (v : gmap string (list Note)) (h : Hub) : Hub :=
  mkHub (documents h) (selectedDoc h) (searchTerm h) (filterTag h)
    (isAnalyzing h) (showUpload h) v (links h) (persisted h) (storage_calls h).

Definition setLinks (v : gmap string (list string)) (h : Hub) : Hub :=
  mkHub (documents h) (selectedDoc h) (searchTerm h) (filterTag h)
    (isAnalyzing h) (showUpload h) (notes h) v (persisted h) (storage_calls h).

(** [window.storage.set(key, value)].  The store keeps strings: a call
    whose value is [undefined] is issued and recorded, and stores nothing. *)
Definition storage_set (key : string) (value : option string) (h : Hub) : Hub :=
  mkHub (documents h) (selectedDoc h) (searchTerm h) (filterTag h)
    (isAnalyzing h) (showUpload h) (notes h) (links h)
    (match value with
     | Some v => <[key := v]> (persisted h)
     | None => persisted h
     end)
    (storage_calls h ++ [StorageSet key value]).

(** [window.storage.delete(key)]. *)
Definition storage_delete (key : string) (h : Hub) : Hub :=
  mkHub (documents h) (selectedDoc h) (searchTerm h) (filterTag h)
    (isAnalyzing h) (showUpload h) (notes h) (links h)
    (delete key (persisted h))
    (storage_calls h ++ [StorageDelete key]).

(** *** Serialised forms *)

Definition opt_member {A : Type} (k : string) (f : A -> JSON) (o : option A)
  : list (string * JSON) :=
  match o with
  | Some v => [(k, f v)]
  | None => []
  end.

Definition strings_to_json (l : list string) : JSON := JArr (map JStr l).

(** The object a document is, members in the order in which the object
    literal of [handleFileUpload] creates them; an absent member is not
    written. *)
Definition Document_to_json (d : Document) : JSON :=
  JObj ([("id", JNum (id d));
         ("title", JStr (title d));
         ("content", JStr (content d));
         ("uploadDate", JStr (uploadDate d));
         ("fileType", JStr (fileType d));
         ("tags", strings_to_json (tags d))]
        ++ opt_member "summary" JStr (summary d)
        ++ opt_member "keywords" strings_to_json (keywords d)
        ++ opt_member "entities" strings_to_json (entities d)
        ++ opt_member "topic" JStr (topic d)).

Definition Z_to_string (z : Z) : string := NilZero.string_of_int (Z.to_int z).

Definition Note_to_json (n : Note) : JSON :=
  JObj [("id", JNum (Z_to_string (note_id n)));
        ("text", JStr (text n));
        ("timestamp", JStr (timestamp n))].

Definition notes_to_json (l : list Note) : JSON := JArr (map Note_to_json l).

(** Reading a parsed payload back at its type. *)

Definition json_string (j : JSON) : option string :=
  match j with JStr s => Some s | _ => None end.

Definition json_number (j : JSON) : option string :=
  match j with JNum lit => Some lit | _ => None end.

Definition json_strings (j : JSON) : option (list string) :=
  match j with JArr items => mapM json_string items | _ => None end.

Definition json_integer (j : JSON) : option Z :=
  match j with
  | JNum lit => Z.of_int <$> NilZero.int_of_string lit
  | _ => None
  end.

(** A member that may be absent; [None] when it is present at another type. *)
Definition json_optional {A : Type} (f : JSON -> option A) (o : option JSON)
  : option (option A) :=
  match o with
  | None => Some None
  | Some j => Some <$> f j
  end.

Definition Document_of_json (j : JSON) : option Document :=
  match j with
  | JObj ms =>
      i ← member "id" ms ≫= json_number;
      t ← member "title" ms ≫= json_string;
      c ← member "content" ms ≫= json_string;
      u ← member "uploadDate" ms ≫= json_string;
      f ← member "fileType" ms ≫= json_string;
      g ← member "tags" ms ≫= json_strings;
      s ← json_optional json_string (member "summary" ms);
      k ← json_optional json_strings (member "keywords" ms);
      e ← json_optional json_strings (member "entities" ms);
      p ← json_optional json_string (member "topic" ms);
      Some (mkDocument i t c u f g s k e p)
  | _ => None
  end.

Definition Note_of_json (j : JSON) : option Note :=
  match j with
  | JObj ms =>
      i ← member "id" ms ≫= json_integer;
      t ← member "text" ms ≫= json_string;
      s ← member "timestamp" ms ≫= json_string;
      Some (mkNote i t s)
  | _ => None
  end.

Definition notes_of_json (j : JSON) : option (list Note) :=
  match j with JArr items => mapM Note_of_json items | _ => None end.

(** [JSON.parse(result.value)] read at the type at which the component
    goes on to use the value: as a document, as a list of notes, as a list
    of link targets.  [None] when [JSON.parse] throws.  [loadData] itself
    checks no shape ([loadData_values] below is what it loads); a value of
    another shape has no counterpart in the typed collections of [Hub],
    which hold the records that the functions of the component wrote, and
    is [None] here too. *)
Definition parse_document (v : string) : option Document :=
  parse v ≫= Document_of_json.

Definition parse_notes (v : string) : option (list Note) :=
  parse v ≫= notes_of_json.

Definition parse_links (v : string) : option (list string) :=
  parse v ≫= json_strings.

(** *** [loadData] *)

(** What [await window.storage.list(prefix)] evaluates to. *)
Inductive ListResult : Type :=
| ListThrows
| ListNoKeys
| ListKeys (keys : list string).

(** What [await window.storage.get(key)] evaluates to; [GetNoValue] is a
    result without [value] ([null], [undefined], no such member). *)
Inductive GetResult : Type :=
| GetThrows
| GetNoValue
| GetValue (value : string).

(** The answers of the store to the reads of one [loadData]. *)
Record StorageView : Type := mkStorageView
  { storage_list : string -> ListResult;
    storage_get : string -> GetResult }.

(** The body of one iteration of the three [for] loops: the inner [try]
    reads and parses, [if (result?.value)] skips an absent or empty value,
    and the [catch] skips the key. *)
Definition load_value {A : Type} (parse_as : string -> option A)
  (st : StorageView) (key : string) : option A :=
  match storage_get st key with
  | GetThrows => None
  | GetNoValue => None
  | GetValue v => if is_empty v then None else parse_as v
  end.

Definition load_docs (st : StorageView) (keys : list string) : list Document :=
  fold_left
    (fun loadedDocs key =>
       match load_value parse_document st key with
       | Some d => loadedDocs ++ [d]
       | None => loadedDocs
       end)
    keys [].

Definition load_by_id {A : Type} (parse_as : string -> option A)
  (prefix : string) (st : StorageView) (keys : list string) : gmap string A :=
  fold_left
    (fun loaded key =>
       match load_value parse_as st key with
       | Some v => <[replace_first prefix EmptyString key := v]> loaded
       | None => loaded
       end)
    keys ∅.

Definition keys_of (r : ListResult) : list string :=
  match r with ListKeys keys => keys | _ => [] end.

Definition loadData (st : StorageView) (h : Hub) : Hub :=
  match storage_list st "doc:", storage_list st "notes:", storage_list st "links:" with
  | ListThrows, _, _ | _, ListThrows, _ | _, _, ListThrows => h
  | docsData, notesData, linksData =>
      let loadedDocs := load_docs st (keys_of docsData) in
      let loadedNotes := load_by_id parse_notes "notes:" st (keys_of notesData) in
      let loadedLinks := load_by_id parse_links "links:" st (keys_of linksData) in
      setLinks loadedLinks (setNotes loadedNotes (setDocuments loadedDocs h))
  end.

(** What [loadData] hands to [setDocuments], [setNotes] and [setLinks]:
    the values as [JSON.parse] returned them, of whatever shape. *)
Record Loaded : Type := mkLoaded
  { loadedDocs : list JSON;
    loadedNotes : gmap string JSON;
    loadedLinks : gmap string JSON }.

(** The first loop: [loadedDocs.push(JSON.parse(result.value))]. *)
Definition load_values (st : StorageView) (keys : list string) : list JSON :=
  fold_left
    (fun loadedDocs key =>
       match load_value parse st key with
       | Some j => loadedDocs ++ [j]
       | None => loadedDocs
       end)
    keys [].

(** [loadData] up to its three setters; [None] when a listing throws and
    the outer [catch] is taken.  The two objects that [loadData] fills by
    assignment are the mappings of their entries; the name [__proto__],
    an assignment to which adds no entry to an object, is outside of what
    the mappings represent. *)
Definition loadData_values (st : StorageView) : option Loaded :=
  match storage_list st "doc:", storage_list st "notes:", storage_list st "links:" with
  | ListThrows, _, _ | _, ListThrows, _ | _, _, ListThrows => None
  | docsData, notesData, linksData =>
      Some (mkLoaded
              (load_values st (keys_of docsData))
              (load_by_id parse "notes:" st (keys_of notesData))
              (load_by_id parse "links:" st (keys_of linksData)))
  end.

(** *** [analyzeDocument] *)

(** What [await fetch(...)] and the reading of the body come to: the
    promise rejects (no connection, CORS, abort) or the body cannot be read
    to its end, or there is a response, whatever its HTTP status, and
    [body] is the text of its body. *)
Inductive FetchOutcome : Type :=
| FetchRejects
| Response (status : Z) (body : string).

(** What the request depends on: the title and [text.slice(0, 5000)]. *)
Record Request : Type := mkRequest
  { request_title : string;
    request_text : string }.

(** [String(v)] of a value inside a parsed payload, as [join] applies it to
    the elements of an array; [None] is the [TypeError] of an object that
    cannot be converted: one with a member [toString] of its own, which no
    parsed value can call.  An array is joined with commas, its [null]
    elements rendering as nothing. *)
Fixpoint toString `{Host} (j : JSON) : option string :=
  match j with
  | JNull => Some "null"
  | JBool true => Some "true"
  | JBool false => Some "false"
  | JNum lit => Some (numberToString lit)
  | JStr s => Some s
  | JArr items =>
      commas <$>
      mapM (fun x => match x with JNull => Some EmptyString | _ => toString x end) items
  | JObj members =>
      match member "toString" members with
      | Some _ => None
      | None => Some "[object Object]"
      end
  end.

(** [item.type === 'text' ? item.text : ''] on one element of [content];
    the outer [None] is the [TypeError] of reading a property of [null],
    the inner one the value [undefined]. *)
Definition item_text (item : JSON) : option (option JSON) :=
  match item with
  | JNull => None
  | JObj ms =>
      match member "type" ms with
      | Some (JStr ty) =>
          if String.eqb ty "text" then Some (member "text" ms)
          else Some (Some (JStr EmptyString))
      | _ => Some (Some (JStr EmptyString))
      end
  | _ => Some (Some (JStr EmptyString))
  end.

(** An element of the mapped array as [join] renders it: [undefined] and
    [null] give the empty string. *)
Definition joined `{Host} (o : option JSON) : option string :=
  match o with
  | None => Some EmptyString
  | Some JNull => Some EmptyString
  | Some j => toString j
  end.

(** [items.map(...).join('')]; [None] when it throws: an element is
    [null], or a text cannot be rendered. *)
Definition joined_texts `{Host} (items : list JSON) : option string :=
  texts ← mapM item_text items;
  join_empty <$> mapM joined texts.

(** [data.content.map(...).join('')]; [None] when it throws, which it does
    also when [data] is not an object whose [content] is an array. *)
Definition text_content `{Host} (data : JSON) : option string :=
  match data with
  | JObj ms =>
      match member "content" ms with
      | Some (JArr items) => joined_texts items
      | _ => None
      end
  | _ => None
  end.

(** [s.replace(/```json|```/g, '')]: at each position the longer marker is
    tried first; what a removal brings together is not scanned again.
    [skip] counts the characters of a marker still to be dropped. *)
Fixpoint strip_fences_from (skip : nat) (s : string) : string :=
  match s with
  | EmptyString => EmptyString
  | String c s' =>
      match skip with
      | S k => strip_fences_from k s'
      | O =>
          if starts_with "```json" s then strip_fences_from 6 s'
          else if starts_with "```" s then strip_fences_from 2 s'
          else String c (strip_fences_from 0 s')
      end
  end.

Definition strip_fences (s : string) : string := strip_fences_from 0 s.

(** The object returned by the [catch] branch. *)
Definition fallback : Analysis.t :=
  Analysis.mk "Analysis unavailable" [] [] "General".

(** The [try] block after the request is sent; [None] when it throws. *)
Definition analysis_of_response `{Host} (o : FetchOutcome) : option JSON :=
  match o with
  | FetchRejects => None
  | Response _ body =>
      data ← parse body;
      text ← text_content data;
      parse (trim (strip_fences text))
  end.

Definition analyzeDocument `{Host} (fetch : Request -> FetchOutcome)
  (text title : string) : JSON :=
  match analysis_of_response (fetch (mkRequest title (take_units 5000 text))) with
  | Some analysis => analysis
  | None => Analysis.to_json fallback
  end.

(** The value [analyzeDocument] resolved to, read as an analysis: an object
    with the four members and no other (a spread would copy any other). *)
Definition Analysis_of_json (j : JSON) : option Analysis.t :=
  match j with
  | JObj ms =>
      s ← member "summary" ms ≫= json_string;
      k ← member "keywords" ms ≫= json_strings;
      e ← member "entities" ms ≫= json_strings;
      p ← member "topic" ms ≫= json_string;
      if forallb (fun kv => array_includes ["summary"; "keywords"; "entities"; "topic"] (fst kv)) ms
      then Some (Analysis.mk s k e p) else None
  | _ => None
  end.

(** *** [handleFileUpload] *)

(** An element of [e.target.files]. *)
Record File : Type := mkFile
  { name : string;
    type : string }.

Definition newline : string := String (ascii_of_nat 10) EmptyString.

(** [name.replace(/\.[^/.]+$/, '')]: the leftmost dot that is followed, up
    to the end, by one or more characters other than a slash or a dot. *)
Fixpoint strip_extension (s : string) : string :=
  match s with
  | EmptyString => EmptyString
  | String c s' =>
      if Ascii.eqb c "." && negb (is_empty s')
         && all_chars (fun x => negb (Ascii.eqb x "/" || Ascii.eqb x ".")) s'
      then EmptyString
      else String c (strip_extension s')
  end.

(** [{ ...d, ...analysis }] *)
Definition spread_analysis (d : Document) (analysis : Analysis.t) : Document :=
  mkDocument (id d) (title d) (content d) (uploadDate d) (fileType d) (tags d)
    (Some (Analysis.summary analysis)) (Some (Analysis.keywords analysis))
    (Some (Analysis.entities analysis)) (Some (Analysis.topic analysis)).

(** [{ ...d, tags: v }] *)
Definition with_tags (v : list string) (d : Document) : Document :=
  mkDocument (id d) (title d) (content d) (uploadDate d) (fileType d) v
    (summary d) (keywords d) (entities d) (topic d).

(** The text handed to the analysis: what the reader read, or the notice
    that stands for the text of a PDF. *)
Definition extracted_text (file : File) (result : string) : string :=
  if String.eqb (type file) "application/pdf" then
    "[PDF Content from " +:+ name file +:+ "]" +:+ newline +:+ newline +:+
    "This is a simulated PDF text extraction. In a real implementation, this would contain the extracted text from the PDF document."
  else result.

(** The object literal [newDoc]; [new_id] is the rendering of
    [Date.now() + Math.random()], [now] the one of [new Date().toISOString()]. *)
Definition newDoc (file : File) (text : string) (analysis : Analysis.t)
  (new_id : DocId) (now : string) : Document :=
  spread_analysis
    (mkDocument new_id (strip_extension (name file)) text now (type file)
       [Analysis.topic analysis] None None None None)
    analysis.

(** [newDoc] for whatever [analyzeDocument] resolved to.  The object is
    the finite map of its properties; the order in which it enumerates
    them is not represented. *)

(** What a property of [newDoc] holds: a value without [undefined] in it
    (a string, a number, what the analysis carried), or the array literal
    [[analysis.topic]], whose element is [undefined], here [None], when the
    analysis has no topic. *)
Inductive Held : Type :=
| Plain (j : JSON)
| ArrayLiteral (items : list (option JSON)).

(** [analysis.topic]: the outer [None] is the [TypeError] of reading a
    property of [null], the inner one the value [undefined], which is what
    a number, a boolean, a string and an array have for that name. *)
Definition topic_of (analysis : JSON) : option (option JSON) :=
  match analysis with
  | JNull => None
  | JObj ms => Some (member "topic" ms)
  | _ => Some None
  end.

(** The elements of an array under their indices. *)
Definition indexed (items : list JSON) : list (string * JSON) :=
  imap (fun i x => (Z_to_string (Z.of_nat i), x)) items.

(** The properties that [...v] copies, in order: the members of an object
    (a later one of the same name replaces an earlier one), the elements
    of an array and the code units of a string under their indices, and
    nothing of a number, a boolean or [null]. *)
Definition spread (v : JSON) : list (string * JSON) :=
  match v with
  | JObj ms => ms
  | JArr items => indexed items
  | JStr s => indexed (map JStr (unit_strings s))
  | _ => []
  end.

(** The object literal [newDoc], its properties written in the order of the
    source: [tags] reads [analysis.topic], and [...analysis] comes last.
    [None] when the literal throws. *)
Definition newDoc_object (file : File) (text : string) (analysis : JSON)
  (new_id : DocId) (now : string) : option (gmap string Held) :=
  match topic_of analysis with
  | None => None
  | Some topic =>
      Some (fold_left
              (fun obj kv => <[kv.1 := Plain kv.2]> obj)
              (spread analysis)
              (<["tags" := ArrayLiteral [topic]]>
                 (<["fileType" := Plain (JStr (type file))]>
                    (<["uploadDate" := Plain (JStr now)]>
                       (<["content" := Plain (JStr text)]>
                          (<["title" := Plain (JStr (strip_extension (name file)))]>
                             (<["id" := Plain (JNum new_id)]> ∅)))))))
  end.

(** What [JSON.stringify] writes for a property: [undefined] in an array
    becomes [null]. *)
Definition Held_to_json (v : Held) : JSON :=
  match v with
  | Plain j => j
  | ArrayLiteral items => JArr (map (default JNull) items)
  end.

Definition doc_key (i : DocId) : string := "doc:" +:+ i.
Definition notes_key (i : string) : string := "notes:" +:+ i.
Definition links_key (i : string) : string := "links:" +:+ i.

(** [reader.onload] from the point where [analyzeDocument] has resolved to
    [analysis]: the updater of [setDocuments] appends and persists. *)
Definition reader_onload (file : File) (result : string) (analysis : Analysis.t)
  (new_id : DocId) (now : string) (h : Hub) : Hub :=
  let d := newDoc file (extracted_text file result) analysis new_id now in
  let updated := documents h ++ [d] in
  setDocuments updated
    (storage_set (doc_key (id d)) (Some (stringify (Document_to_json d))) h).

(** The synchronous part of [handleFileUpload]: the readers are started and
    their [onload] callbacks run later, each as a step of its own. *)
Definition handleFileUpload (files : list File) (h : Hub) : Hub :=
  setShowUpload false (setIsAnalyzing false (setIsAnalyzing true h)).

(** *** [regenerateAnalysis] *)

(** [selectedDoc?.id === i] *)
Definition selected_is (i : DocId) (h : Hub) : bool :=
  match selectedDoc h with
  | Some s => String.eqb (id s) i
  | None => false
  end.

(** The callback of [documents.map] in [regenerateAnalysis]; [tl] is
    [slice(1)]. *)
Definition regenerated (doc : Document) (analysis : Analysis.t) (d : Document)
  : Document :=
  if String.eqb (id d) (id doc)
  then with_tags (Analysis.topic analysis :: tl (tags d)) (spread_analysis d analysis)
  else d.

(** [regenerateAnalysis(doc)] from the point where [analyzeDocument] has
    resolved to [analysis]. *)
Definition regenerateAnalysis (analysis : Analysis.t) (doc : Document) (h : Hub)
  : Hub :=
  let h1 := setIsAnalyzing true h in
  let updated := map (regenerated doc analysis) (documents h1) in
  let h2 := setDocuments updated h1 in
  let h3 :=
    storage_set (doc_key (id doc))
      (Some (stringify (Document_to_json (spread_analysis doc analysis)))) h2 in
  let h4 :=
    if selected_is (id doc) h3
    then setSelectedDoc (Some (spread_analysis doc analysis)) h3
    else h3 in
  setIsAnalyzing false h4.

(** *** Notes, links, tags, deletion *)

(** [addNote(docId, note)]; [now] is what [Date.now()] returns, [iso] what
    [new Date().toISOString()] does. *)
Definition addNote (now : Z) (iso : string) (docId : DocId) (note : string)
  (h : Hub) : Hub :=
  let docNotes := default [] (notes h !! docId) in
  let newNote := mkNote now note iso in
  let updated := docNotes ++ [newNote] in
  storage_set (notes_key docId) (Some (stringify (notes_to_json updated)))
    (setNotes (<[docId := updated]> (notes h)) h).

Definition linkDocuments (docId : DocId) (linkedDocId : string) (h : Hub) : Hub :=
  let docLinks := default [] (links h !! docId) in
  if negb (array_includes docLinks linkedDocId) then
    let updated := docLinks ++ [linkedDocId] in
    storage_set (links_key docId) (Some (stringify (strings_to_json updated)))
      (setLinks (<[docId := updated]> (links h)) h)
  else h.

Definition deleteDocument (docId : DocId) (h : Hub) : Hub :=
  let h1 :=
    setDocuments
      (List.filter (fun d => negb (String.eqb (id d) docId)) (documents h)) h in
  let h2 := storage_delete (doc_key docId) h1 in
  let h3 := storage_delete (notes_key docId) h2 in
  let h4 := storage_delete (links_key docId) h3 in
  if selected_is docId h4 then setSelectedDoc None h4 else h4.

(** The callback of [documents.map] in [addTag]. *)
Definition tagged (docId : DocId) (tag : string) (d : Document) : Document :=
  if String.eqb (id d) docId && negb (array_includes (tags d) tag)
  then with_tags (tags d ++ [tag]) d
  else d.

Definition addTag (docId : DocId) (tag : string) (h : Hub) : Hub :=
  let updated := map (tagged docId tag) (documents h) in
  let h1 := setDocuments updated h in
  let doc := List.find (fun d => String.eqb (id d) docId) updated in
  storage_set (doc_key docId)
    ((fun d => stringify (Document_to_json d)) <$> doc) h1.

(** *** [filteredDocs] *)

Definition matchesSearch `{Host} (term : string) (doc : Document) : bool :=
  includes (toLowerCase (title doc)) (toLowerCase term)
  || match summary doc with
     | Some s => includes (toLowerCase s) (toLowerCase term)
     | None => false
     end
  || match keywords doc with
     | Some ks => existsb (fun k => includes (toLowerCase k) (toLowerCase term)) ks
     | None => false
     end.

Definition matchesTag (tag : string) (doc : Document) : bool :=
  is_empty tag || array_includes (tags doc) tag.

Definition filteredDocs `{Host} (h : Hub) : list Document :=
  List.filter
    (fun doc => matchesSearch (searchTerm h) doc && matchesTag (filterTag h) doc)
    (documents h).

End ResearchHub.

(** ** The properties, in the words of the specification *)

Module Contract.
Import JsString Json ResearchHub.

(** The link list of a document, [links[docId] || []]. *)
Definition docLinks (h : Hub) (docId : DocId) : list string :=
  default [] (links h !! docId).

(** The note list of a document, [notes[docId] || []]. *)
Definition docNotes (h : Hub) (docId : DocId) : list Note :=
  default [] (notes h !! docId).

(** The link state from which a link from [A] to [B] is requested: [B] is
    not yet a target of [A], or it is one once and the record persisted at
    [links:A] is the current list. *)
Definition link_ready (A : DocId) (B : string) (h : Hub) : Prop :=
  ¬ In B (docLinks h A) ∨
  (count_occ string_dec (docLinks h A) B = 1%nat ∧
   persisted h !! links_key A = Some (stringify (strings_to_json (docLinks h A)))).

(** A sequence of [addNote] calls against one document, each with the
    clock reading, the time stamp and the text of the call. *)
Definition addNotes (docId : DocId) (calls : list (Z * string * string)) (h : Hub)
  : Hub :=
  fold_left (fun h' c => addNote c.1.1 c.1.2 docId c.2 h') calls h.

(** Search and filter, after the specification. *)

(** The term is a case-insensitive substring of [s]: once both are in
    lower case, [s] is some text, the term, and some text. *)
Definition occurs_ignoring_case `{Host} (term s : string) : Prop :=
  ∃ pre post : string, toLowerCase s = pre +:+ toLowerCase term +:+ post.

(** The same on ASCII text, character by character: two characters that
    are the same, or the two cases of one letter. *)
Definition same_letter (a b : ascii) : Prop :=
  a = b ∨
  ∃ n : nat, (65 <= n <= 90)%nat ∧
    ((nat_of_ascii a = n ∧ nat_of_ascii b = (n + 32)%nat) ∨
     (nat_of_ascii b = n ∧ nat_of_ascii a = (n + 32)%nat)).

Inductive same_ignoring_case : string -> string -> Prop :=
| same_empty : same_ignoring_case EmptyString EmptyString
| same_char (a b : ascii) (s t : string) :
    same_letter a b -> same_ignoring_case s t ->
    same_ignoring_case (String a s) (String b t).

(** Some part of [s] is the term, case apart. *)
Definition part_ignoring_case (term s : string) : Prop :=
  ∃ pre mid post : string,
    s = pre +:+ mid +:+ post ∧ same_ignoring_case mid term.

Definition matches_term `{Host} (term : string) (d : Document) : Prop :=
  occurs_ignoring_case term (title d) ∨
  (∃ s, summary d = Some s ∧ occurs_ignoring_case term s) ∨
  (∃ ks k, keywords d = Some ks ∧ In k ks ∧ occurs_ignoring_case term k).

Definition matches_filter (tag : string) (d : Document) : Prop :=
  tag = EmptyString ∨ In tag (tags d).

(** The same by letters, for a term and a document written in ASCII. *)
Definition matches_letters (term : string) (d : Document) : Prop :=
  part_ignoring_case term (title d) ∨
  (∃ s, summary d = Some s ∧ part_ignoring_case term s) ∨
  (∃ ks k, keywords d = Some ks ∧ In k ks ∧ part_ignoring_case term k).

(** The fields that the search reads are ASCII. *)
Definition ascii_fields (d : Document) : Prop :=
  all_chars is_ascii (title d) = true ∧
  (forall s, summary d = Some s -> all_chars is_ascii s = true) ∧
  (forall ks k, keywords d = Some ks -> In k ks -> all_chars is_ascii k = true).

Definition selected `{Host} (term tag : string) (d : Document) : Prop :=
  matches_term term d ∧ matches_filter tag d.

(** Records of the store, after the specification. *)

(** The record under [key] is valid, and [j] is what it holds: the read
    returns a value, that value is not empty, and it parses to [j].  A
    record is corrupted when it is valid for no [j]: the read throws, or
    returns no value or an empty one, or the value does not parse. *)
Definition valid_record (st : StorageView) (key : string) (j : JSON) : Prop :=
  ∃ v, storage_get st key = GetValue v ∧ v ≠ EmptyString ∧ parse v = Some j.

Definition corrupted (st : StorageView) (key : string) : Prop :=
  ¬ ∃ j, valid_record st key j.

(** A text without white space at either end. *)
Definition trimmed (s : string) : Prop := trimStart s = s ∧ trimEnd s = s.

(** The failures of the analysis service. *)

(** The body of a response from which no analysis can be read: it is not
    JSON, or it has no text to offer (no [content] array, or a [null] in
    it), or its text, fences stripped and trimmed, is not JSON. *)
Definition unusable_body `{Host} (body : string) : Prop :=
  parse body = None ∨
  ∃ data, parse body = Some data ∧
    (text_content data = None ∨
     ∃ t, text_content data = Some t ∧ parse (trim (strip_fences t)) = None).

Definition http_error (status : Z) : Prop := ¬ (200 <= status <= 299).

(** A failed call as the specification lists them: a transport error, an
    HTTP error, or a body that is not valid JSON once fences are stripped. *)
Definition service_fails `{Host} (o : FetchOutcome) : Prop :=
  match o with
  | FetchRejects => True
  | Response status body => http_error status ∨ unusable_body body
  end.

(** A failed call as the component sees it: the status is not looked at. *)
Definition no_analysis `{Host} (o : FetchOutcome) : Prop :=
  match o with
  | FetchRejects => True
  | Response _ body => unusable_body body
  end.

(** The analysis carries a property named [k], which a spread of it
    copies. *)
Definition carries (k : string) (analysis : JSON) : Prop :=
  In k (map fst (spread analysis)).

(** File names, after the specification. *)

(** [name] is [base], a dot and an extension: one character or more, none
    of them a dot or a slash. *)
Definition has_extension (name base ext : string) : Prop :=
  name = base +:+ "." +:+ ext ∧
  ext ≠ EmptyString ∧
  (forall c, In c (list_ascii_of_string ext) -> c ≠ "."%char ∧ c ≠ "/"%char).

(** [stripped] is [name] with its final extension stripped: [name] itself
    when it has no extension. *)
Definition without_extension (name stripped : string) : Prop :=
  (∃ ext, has_extension name stripped ext) ∨
  (stripped = name ∧ forall base ext, ¬ has_extension name base ext).

End Contract.

(** ** Sample data *)

Module Sample.
Import JsString Json ResearchHub Contract.

(** A host for the sample data, which is ASCII and holds no number to
    render: what this one does beyond ASCII and with numbers plays no part. *)
Definition host : Host := mkHost (fun s => s) (fun lit => lit).

(** Writes the double quotes of a JSON text as apostrophes. *)
Fixpoint dq (s : string) : string :=
  match s with
  | EmptyString => EmptyString
  | String c s' => String (if Ascii.eqb c "'" then quote else c) (dq s')
  end.

Definition quantum : Document :=
  mkDocument "1730000000000.25" "Quantum Computing"
    "Qubits and gates." "2024-10-27T03:33:20.000Z" "text/plain"
    ["Physics"; "to-read"]
    (Some "An introduction to qubits.") (Some ["qubit"; "gate"])
    (Some ["Feynman"]) (Some "Physics").

Definition baking : Document :=
  mkDocument "1730000000001.5" "Baking"
    "Flour and water." "2024-10-27T03:33:21.000Z" "text/plain"
    ["Food"]
    (Some "How to bake bread.") (Some ["bread"; "oven"])
    (Some []) (Some "Food").

Definition graph_theory : Analysis.t :=
  Analysis.mk "Meeting about graph theory" ["graph"; "theory"]
    ["Alice"; "Bob"] "Mathematics".

Definition library : Hub := setDocuments [quantum; baking] initial.

(** The library after the analysis of the first document was regenerated. *)
Definition regenerated_library : Hub :=
  regenerateAnalysis graph_theory quantum library.

Definition iso : string := "2024-10-27T03:33:20.000Z".

(** The library once the first document links to the second. *)
Definition linked_library : Hub := linkDocuments (id quantum) (id baking) library.

(** The upload of the specification: a text file and what the reader read. *)
Definition notes_txt : File := mkFile "notes.txt" "text/plain".
Definition notes_txt_content : string := "Alice met Bob to discuss graph theory.".

(** Bodies of responses of the service: an analysis between fences, and
    the error body of an overloaded service. *)
Definition fenced_answer : string :=
  dq "{'content':[{'type':'text','text':'```json\n{\'summary\':\'Meeting about graph theory\',\'keywords\':[\'graph\',\'theory\'],\'entities\':[\'Alice\',\'Bob\'],\'topic\':\'Mathematics\'}\n```'}]}".

Definition error_answer : string :=
  dq "{'type':'error','error':{'type':'overloaded_error','message':'Overloaded'}}".

Definition answers (o : FetchOutcome) : Request -> FetchOutcome := fun _ => o.

(** A store in which two good documents, one good note list and one good
    link list sit among records that are cut short, empty, absent or
    unreadable. *)
Definition damaged_store : StorageView :=
  mkStorageView
    (fun prefix =>
       if String.eqb prefix "doc:" then
         ListKeys ["doc:1730000000000.25"; "doc:7"; "doc:8"; "doc:9";
                   "doc:1730000000001.5"]
       else if String.eqb prefix "notes:" then
         ListKeys ["notes:7"; "notes:1730000000000.25"]
       else if String.eqb prefix "links:" then
         ListKeys ["links:1730000000000.25"; "links:7"]
       else ListNoKeys)
    (fun key =>
       if String.eqb key "doc:1730000000000.25" then
         GetValue (stringify (Document_to_json quantum))
       else if String.eqb key "doc:7" then GetValue "{oops"
       else if String.eqb key "doc:8" then GetNoValue
       else if String.eqb key "doc:9" then GetThrows
       else if String.eqb key "doc:1730000000001.5" then
         GetValue (stringify (Document_to_json baking))
       else if String.eqb key "notes:7" then GetValue "[not json"
       else if String.eqb key "notes:1730000000000.25" then
         GetValue (dq "[{'id':1730000000123,'text':'read again','timestamp':'2024-10-27T03:33:20.000Z'}]")
       else if String.eqb key "links:1730000000000.25" then
         GetValue (dq "['1730000000001.5']")
       else if String.eqb key "links:7" then GetValue EmptyString
       else GetNoValue).

End Sample.

From Stdlib Require DecimalPos DecimalFacts DecimalZ.

(** ** The tag universe and the store as a collaborator *)

Module Derived.
Import JsString Json ResearchHub Contract.

(** [[...new Set(items)]]: each value once, in the order of its first
    occurrence. *)
Definition set_spread (items : list string) : list string :=
  fold_left
    (fun seen x => if array_includes seen x then seen else seen ++ [x])
    items [].

(** [allTags], the options of the tag filter. *)
Definition allTags (h : Hub) : list string :=
  set_spread (flat_map tags (documents h)).

End Derived.

(** ** [JSON.parse] in stages

    The stages of [parse_number] and of the array and object cases of
    [parse_value] under names of their own, so that each can be reasoned
    about by itself; [parse_number_stages] and [parse_value_stages] below
    show that they compose to the functions above. *)

Module Stages.
Import JsString Json.

Definition number_sign (s : string) : string * string :=
  match s with
  | String "-" r => ("-", r)
  | _ => (EmptyString, s)
  end.

Definition number_integer (c : ascii) (r : string) : string * string :=
  if Ascii.eqb c "0" then ("0", r)
  else let (ds, r') := take_digits r in (String c ds, r').

Definition number_fraction (r1 : string) : option (string * string) :=
  match r1 with
  | String "." r2 =>
      let (ds, r3) := take_digits r2 in
      if is_empty ds then None else Some ("." +:+ ds, r3)
  | _ => Some (EmptyString, r1)
  end.

Definition exponent_sign (r5 : string) : string * string :=
  match r5 with
  | String "+" r => ("+", r)
  | String "-" r => ("-", r)
  | _ => (EmptyString, r5)
  end.

Definition number_exponent (sign int_part frac_part : string) (e : ascii)
  (r5 : string) : option (string * string) :=
  let (esign, r6) := exponent_sign r5 in
  let (ds, r7) := take_digits r6 in
  if is_empty ds then None
  else Some (sign +:+ int_part +:+ frac_part +:+ String e (esign +:+ ds), r7).

Definition number_tail (sign int_part frac_part : string) (r4 : string)
  : option (string * string) :=
  match r4 with
  | String "e" r5 => number_exponent sign int_part frac_part "e" r5
  | String "E" r5 => number_exponent sign int_part frac_part "E" r5
  | _ => Some (sign +:+ int_part +:+ frac_part, r4)
  end.

Definition number_stages (s : string) : option (string * string) :=
  let (sign, s1) := number_sign s in
  match s1 with
  | String c r =>
      if is_digit c then
        let (int_part, r1) := number_integer c r in
        match number_fraction r1 with
        | None => None
        | Some (frac_part, r4) => number_tail sign int_part frac_part r4
        end
      else None
  | EmptyString => None
  end.

Definition array_open (value : string -> option (JSON * string)) (r : string)
  : option (JSON * string) :=
  match skip_ws r with
  | String "]" r' => Some (JArr [], r')
  | _ => parse_elements value (String.length r) r []
  end.

Definition object_open (value : string -> option (JSON * string)) (r : string)
  : option (JSON * string) :=
  match skip_ws r with
  | String "}" r' => Some (JObj [], r')
  | _ => parse_members value (String.length r) r []
  end.

Definition value_stages (fuel : nat) (s : string) : option (JSON * string) :=
  match fuel with
  | O => None
  | S fuel' =>
      match skip_ws s with
      | EmptyString => None
      | String c r as t =>
          if Ascii.eqb c quote then
            match parse_chars r with
            | Some (str, r') => Some (JStr str, r')
            | None => None
            end
          else if Ascii.eqb c "[" then array_open (parse_value fuel') r
          else if Ascii.eqb c "{" then object_open (parse_value fuel') r
          else if Ascii.eqb c "t" then
            match strip_prefix "true" t with
            | Some r' => Some (JBool true, r')
            | None => None
            end
          else if Ascii.eqb c "f" then
            match strip_prefix "false" t with
            | Some r' => Some (JBool false, r')
            | None => None
            end
          else if Ascii.eqb c "n" then
            match strip_prefix "null" t with
            | Some r' => Some (JNull, r')
            | None => None
            end
          else
            match parse_number t with
            | Some (lit, r') => Some (JNum lit, r')
            | None => None
            end
      end
  end.

(** What may follow a number literal without becoming part of it. *)
Definition ends_number (rest : string) : bool :=
  match rest with
  | EmptyString => true
  | String c _ =>
      negb (is_digit c || Ascii.eqb c "." || Ascii.eqb c "e" || Ascii.eqb c "E")
  end.

(** What follows a value inside an array or an object, or at the end. *)
Definition closes (rest : string) : bool :=
  match rest with
  | EmptyString => true
  | String c _ => Ascii.eqb c "," || Ascii.eqb c "]" || Ascii.eqb c "}"
  end.

(** [lit] is a number literal of JSON, the whole of it. *)
Definition is_number (lit : string) : bool :=
  match parse_number lit with
  | Some (_, EmptyString) => true
  | _ => false
  end.

(** A decimal numeral without a leading zero, or zero itself. *)
Definition canonical (d : Decimal.uint) : Prop :=
  d ≠ Decimal.Nil ∧ forall d', d = Decimal.D0 d' -> d' = Decimal.Nil.

(** The nesting of a value: the fuel [parse_value] needs for it. *)
Fixpoint depth (j : JSON) : nat :=
  match j with
  | JArr items => S (fold_right Nat.max 0%nat (map depth items))
  | JObj members => S (fold_right Nat.max 0%nat (map (fun kv => depth (snd kv)) members))
  | _ => 1%nat
  end.

(** A value whose numbers are number literals. *)
Fixpoint well_formed (j : JSON) : bool :=
  match j with
  | JNum lit => is_number lit
  | JArr items => forallb well_formed items
  | JObj members => forallb (fun kv => well_formed (snd kv)) members
  | _ => true
  end.

End Stages.

(** ** The store as [loadData] finds it *)

Module Store.
Import JsString Json ResearchHub.

(** The store holds the records [m]: it lists under a prefix the keys of
    [m] that start with it, in some order, and [get] on a key of [m]
    returns the value [m] has for it. *)
Definition holds (st : StorageView) (m : gmap string string) : Prop :=
  (forall k v, m !! k = Some v -> storage_get st k = GetValue v) ∧
  (forall prefix, ∃ keys,
      storage_list st prefix = ListKeys keys ∧
      forall k, In k keys <-> is_Some (m !! k) ∧ starts_with prefix k = true).

(** One such store. *)
Definition storage_of (m : gmap string string) : StorageView :=
  mkStorageView
    (fun prefix =>
       ListKeys (List.filter (starts_with prefix) (map fst (map_to_list m))))
    (fun key =>
       match m !! key with
       | Some v => GetValue v
       | None => GetNoValue
       end).

End Store.

(** ** Answers of the analysis service *)

Module Answers.
Import JsString Json ResearchHub.

(** An element of [content]: [{ type, text }]. *)
Definition block (type text : string) : JSON :=
  JObj [("type", JStr type); ("text", JStr text)].

(** A text between the fences of a code block. *)
Definition fenced (s : string) : string :=
  "```json" +:+ newline +:+ s +:+ newline +:+ "```".

End Answers.

(** ** More sample data *)

Module Trial.
Import JsString Json ResearchHub Contract Answers Store.

(** A store with records of other hands among those of the component:
    one cut short, one that is JSON of another shape, one that is [null]. *)
Definition foreign_store : StorageView :=
  mkStorageView
    (fun prefix =>
       if String.eqb prefix "doc:" then
         ListKeys ["doc:1730000000000.25"; "doc:7"; "doc:8"; "doc:9"]
       else if String.eqb prefix "notes:" then
         ListKeys ["notes:7"; "notes:8"]
       else if String.eqb prefix "links:" then ListKeys ["links:7"]
       else ListNoKeys)
    (fun key =>
       if String.eqb key "doc:1730000000000.25" then
         GetValue (stringify (Document_to_json Sample.quantum))
       else if String.eqb key "doc:7" then GetValue "{oops"
       else if String.eqb key "doc:8" then GetValue (Sample.dq "{'id':7}")
       else if String.eqb key "doc:9" then GetValue "null"
       else if String.eqb key "notes:7" then GetValue "[not json"
       else if String.eqb key "notes:8" then GetValue (Sample.dq "{'text':'a note'}")
       else if String.eqb key "links:7" then GetThrows
       else GetNoValue).

(** A service that gives its answer a title and tags of its own. *)
Definition titling_service : Request -> FetchOutcome :=
  fun _ =>
    Response 200
      (stringify
         (JObj [("content",
                 JArr [block "text"
                         (stringify
                            (JObj [("title", JStr "Graph theory notes");
                                   ("summary", JStr "Meeting about graph theory");
                                   ("keywords", JArr [JStr "graph"; JStr "theory"]);
                                   ("entities", JArr [JStr "Alice"; JStr "Bob"]);
                                   ("topic", JStr "Mathematics");
                                   ("tags", JArr [JStr "maths"; JStr "meetings"])]))])])).

(** A store whose second listing throws. *)
Definition failing_store : StorageView :=
  mkStorageView
    (fun prefix => if String.eqb prefix "notes:" then ListThrows else ListKeys [])
    (fun _ => GetNoValue).

(** The body of a response of the service around the text [answer]. *)
Definition response_members (answer : string) : list (string * JSON) :=
  [("id", JStr "msg_01");
   ("type", JStr "message");
   ("role", JStr "assistant");
   ("content", JArr [block "text" answer]);
   ("usage", JObj [("input_tokens", JNum "25"); ("output_tokens", JNum "95")])].

(** A service that answers every request with the graph theory analysis,
    between fences. *)
Definition fenced_service : Request -> FetchOutcome :=
  fun _ =>
    Response 200
      (stringify
         (JObj (response_members
                  (fenced (stringify (Analysis.to_json Sample.graph_theory)))))).

(** A text of 5000 code units, each of two bytes: the letter e with an
    acute accent, 5000 times. *)
Definition long_text : string :=
  string_of_list_ascii
    (concat (repeat [ascii_of_nat 195; ascii_of_nat 169] 5000)).

(** An answer as a service lays it out: members in an order of its own,
    one to a line, indented. *)
Definition laid_out_answer : string :=
  Sample.dq "{" +:+ newline +:+
  Sample.dq "  'topic': 'Mathematics'," +:+ newline +:+
  Sample.dq "  'summary': 'Meeting about graph theory'," +:+ newline +:+
  Sample.dq "  'entities': [ 'Alice', 'Bob' ]," +:+ newline +:+
  Sample.dq "  'keywords': [ 'graph', 'theory' ]" +:+ newline +:+
  "}".

(** The body of a response that carries it between fences, in a text
    block with members of its own. *)
Definition laid_out_body : string :=
  Sample.dq "{ 'role': 'assistant', 'content': [ { 'text': " +:+
  quoted (fenced laid_out_answer) +:+
  Sample.dq ", 'citations': null, 'type': 'text' } ] }".

Definition laid_out_service : Request -> FetchOutcome :=
  fun _ => Response 200 laid_out_body.

(** The library with a note on its first document. *)
Definition noted_library : Hub :=
  addNote 1730000000123 Sample.iso (id Sample.quantum) "read again" Sample.library.

(** The sample file uploaded into the library. *)
Definition uploaded_library : Hub :=
  reader_onload Sample.notes_txt Sample.notes_txt_content Sample.graph_theory
    "1730000000002.75" Sample.iso Sample.library.

End Trial.

(** ** Proofs *)

Section Basics.
Import JsString.

Lemma array_includes_In (l : list string) (x : string) :
  array_includes l x = true <-> In x l.
Proof.
  unfold array_includes. rewrite existsb_exists. split.
  - intros (y & Hy & Heq). apply String.eqb_eq in Heq. now subst.
  - intros Hx. exists x. split; [assumption | apply String.eqb_refl].
Qed.

Lemma array_includes_not_In (l : list string) (x : string) :
  array_includes l x = false <-> ¬ In x l.
Proof.
  rewrite <- array_includes_In. destruct (array_includes l x); split; congruence.
Qed.

End Basics.

Section Roundtrip.
Import JsString Json ResearchHub Contract.

Lemma append_assoc (a b c : string) : (a +:+ b) +:+ c = a +:+ (b +:+ c).
Proof.
  induction a as [| x a IH]; [reflexivity |].
  change (String x ((a +:+ b) +:+ c) = String x (a +:+ b +:+ c)).
  now rewrite IH.
Qed.

(** Reading back one escaped character, by cases on the character. *)
Lemma parse_chars_escape_char (c : ascii) (s : string) :
  parse_chars (escape_char c +:+ s) =
  match parse_chars s with
  | Some (t, r) => Some (String c t, r)
  | None => None
  end.
Proof.
  destruct c as [[] [] [] [] [] [] [] []]; reflexivity.
Qed.

Lemma append_cons (c : ascii) (a b : string) :
  String c a +:+ b = String c (a +:+ b).
Proof. reflexivity. Qed.

(** A byte from 128 on stands for itself between quotes. *)
Lemma parse_chars_byte (c : ascii) (s : string) :
  (128 <=? N_of_ascii c)%N = true ->
  parse_chars (String c s) =
  match parse_chars s with
  | Some (t, r) => Some (String c t, r)
  | None => None
  end.
Proof.
  intros Hc. rewrite <- parse_chars_escape_char.
  destruct c as [[] [] [] [] [] [] [] []]; try discriminate Hc; reflexivity.
Qed.

(** Reading back a surrogate written by its digits. *)
Lemma parse_chars_escape_unit (b c : ascii) (s : string) :
  (160 <=? N_of_ascii b)%N && (N_of_ascii b <=? 191)%N = true ->
  is_continuation c = true ->
  parse_chars (escape_unit (surrogate_unit b c) +:+ s) =
  match parse_chars s with
  | Some (t, r) => Some (String (ascii_of_N 237) (String b (String c t)), r)
  | None => None
  end.
Proof.
  intros Hb Hc.
  destruct b as [[] [] [] [] [] [] [] []]; try discriminate Hb;
    destruct c as [[] [] [] [] [] [] [] []]; try discriminate Hc; reflexivity.
Qed.

Lemma surrogate_bytes (lo hi : N) (a b c : ascii) :
  (128 <= lo)%N ->
  (N_of_ascii a =? 237)%N && (lo <=? N_of_ascii b)%N && (N_of_ascii b <=? hi)%N
  && is_continuation c = true ->
  a = ascii_of_N 237 ∧ (lo <= N_of_ascii b <= hi)%N ∧
  (128 <=? N_of_ascii b)%N = true ∧ (128 <=? N_of_ascii c)%N = true ∧
  is_continuation c = true.
Proof.
  intros Hlo Hform. apply andb_true_iff in Hform. destruct Hform as [Hform Hc].
  apply andb_true_iff in Hform. destruct Hform as [Hform Hhi].
  apply andb_true_iff in Hform. destruct Hform as [Ha Hb].
  apply N.eqb_eq in Ha. apply N.leb_le in Hb, Hhi.
  split; [now rewrite <- Ha, ascii_N_embedding |].
  split; [lia |]. split; [apply N.leb_le; lia |].
  split; [| exact Hc]. unfold is_continuation in Hc.
  apply andb_true_iff in Hc. exact (proj1 Hc).
Qed.

Lemma parse_chars_escape_bounded (n : nat) (s rest : string) :
  (String.length s <= n)%nat ->
  parse_chars (escape s +:+ String quote rest) = Some (s, rest).
Proof.
  revert s. induction n as [| n IH]; intros s Hn.
  { destruct s; [reflexivity | cbn in Hn; lia]. }
  destruct s as [| a r]; [reflexivity |]. cbn [String.length] in Hn.
  assert (Hplain : parse_chars ((escape_char a +:+ escape r) +:+ String quote rest)
                   = Some (String a r, rest)).
  { rewrite append_assoc, parse_chars_escape_char, IH by lia. reflexivity. }
  destruct r as [| b [| c r3]]; try exact Hplain.
  change (escape (String a (String b (String c r3))))
    with (if is_high_surrogate a b c then
            match r3 with
            | String a' (String b' (String c' r6)) =>
                if is_low_surrogate a' b' c'
                then String a (String b (String c
                       (String a' (String b' (String c' (escape r6))))))
                else escape_unit (surrogate_unit b c) +:+ escape r3
            | _ => escape_unit (surrogate_unit b c) +:+ escape r3
            end
          else if is_low_surrogate a b c
          then escape_unit (surrogate_unit b c) +:+ escape r3
          else escape_char a +:+ escape (String b (String c r3))).
  cbn [String.length] in Hn.
  assert (Hlone : forall lo hi : N,
             (128 <= lo)%N -> (160 <= lo)%N -> (hi <= 191)%N ->
             (N_of_ascii a =? 237)%N && (lo <=? N_of_ascii b)%N
             && (N_of_ascii b <=? hi)%N && is_continuation c = true ->
             parse_chars ((escape_unit (surrogate_unit b c) +:+ escape r3)
                          +:+ String quote rest)
             = Some (String a (String b (String c r3)), rest)).
  { intros lo hi Hlo Hlo' Hhi Hform.
    destruct (surrogate_bytes lo hi a b c Hlo Hform) as (-> & Hb & _ & _ & Hc).
    rewrite append_assoc, parse_chars_escape_unit, IH; [reflexivity | lia | | exact Hc].
    apply andb_true_iff. split; apply N.leb_le; lia. }
  destruct (is_high_surrogate a b c) eqn:Hhigh.
  - assert (Halone := Hlone 160%N 175%N ltac:(lia) ltac:(lia) ltac:(lia) Hhigh).
    destruct r3 as [| a' [| b' [| c' r6]]]; try exact Halone.
    destruct (is_low_surrogate a' b' c') eqn:Hlow; [| exact Halone].
    destruct (surrogate_bytes 160 175 a b c ltac:(lia) Hhigh) as (Ha & _ & Hb & Hc & _).
    destruct (surrogate_bytes 176 191 a' b' c' ltac:(lia) Hlow)
      as (Ha' & _ & Hb' & Hc' & _).
    rewrite !append_cons. cbn [String.length] in Hn.
    rewrite (parse_chars_byte a) by (rewrite Ha; reflexivity).
    rewrite (parse_chars_byte b), (parse_chars_byte c) by assumption.
    rewrite (parse_chars_byte a') by (rewrite Ha'; reflexivity).
    rewrite (parse_chars_byte b'), (parse_chars_byte c') by assumption.
    rewrite IH by lia. reflexivity.
  - destruct (is_low_surrogate a b c) eqn:Hlow; [| exact Hplain].
    exact (Hlone 176%N 191%N ltac:(lia) ltac:(lia) ltac:(lia) Hlow).
Qed.

Lemma parse_chars_escape (s rest : string) :
  parse_chars (escape s +:+ String quote rest) = Some (s, rest).
Proof. apply (parse_chars_escape_bounded (String.length s)). lia. Qed.

Lemma parse_value_quoted (fuel : nat) (s rest : string) :
  parse_value (S fuel) (quoted s +:+ rest) = Some (JStr s, rest).
Proof.
  unfold quoted.
  change (String quote (escape s +:+ String quote EmptyString) +:+ rest)
    with (String quote ((escape s +:+ String quote EmptyString) +:+ rest)).
  rewrite append_assoc.
  change (String quote EmptyString +:+ rest) with (String quote rest).
  change (parse_value (S fuel) (String quote (escape s +:+ String quote rest)))
    with (match parse_chars (escape s +:+ String quote rest) with
          | Some (str, r') => Some (JStr str, r')
          | None => None
          end).
  now rewrite parse_chars_escape.
Qed.

Lemma commas_cons (x : string) (l : list string) :
  l ≠ [] -> commas (x :: l) = x +:+ "," +:+ commas l.
Proof. destruct l; [congruence | reflexivity]. Qed.

Lemma parse_elements_strings (pv : string -> option (JSON * string))
  (l : list string) (n : nat) (rest : string) (acc : list JSON) :
  (forall s r, pv (quoted s +:+ r) = Some (JStr s, r)) ->
  l ≠ [] -> (length l <= n)%nat ->
  parse_elements pv n (commas (map quoted l) +:+ "]" +:+ rest) acc =
  Some (JArr (rev acc ++ map JStr l), rest).
Proof.
  intros Hpv. revert n acc. induction l as [| x l IH]; intros n acc Hne Hlen; [congruence |].
  destruct n as [| n]; [cbn in Hlen; lia |].
  destruct l as [| y l].
  - change (commas (map quoted [x])) with (quoted x).
    cbn [parse_elements]. rewrite Hpv.
    change (skip_ws ("]" +:+ rest)) with (String "]" rest).
    reflexivity.
  - change (map quoted (x :: y :: l)) with (quoted x :: map quoted (y :: l)).
    rewrite commas_cons by discriminate. rewrite !append_assoc.
    cbn [parse_elements]. rewrite Hpv.
    change (skip_ws ("," +:+ commas (map quoted (y :: l)) +:+ "]" +:+ rest))
      with (String "," (commas (map quoted (y :: l)) +:+ "]" +:+ rest)).
    cbn iota beta. rewrite IH; [| discriminate | cbn in *; lia].
    change (rev (JStr x :: acc)) with (rev acc ++ [JStr x]).
    now rewrite <- app_assoc.
Qed.

Lemma length_append (a b : string) :
  String.length (a +:+ b) = (String.length a + String.length b)%nat.
Proof.
  induction a as [| x a IH]; [reflexivity |].
  change (S (String.length (a +:+ b)) = S (String.length a + String.length b)).
  now rewrite IH.
Qed.

Lemma commas_length (l : list string) :
  (forall x, In x l -> (1 <= String.length x)%nat) ->
  (length l <= String.length (commas l +:+ "]"))%nat.
Proof.
  induction l as [| x l IH]; intros Hall; [cbn; lia |].
  destruct l as [| y l].
  - change (commas [x]) with x. rewrite length_append. cbn. lia.
  - rewrite commas_cons by discriminate.
    rewrite !append_assoc, length_append.
    assert (1 <= String.length x)%nat by (apply Hall; now left).
    change (String.length ("," +:+ commas (y :: l) +:+ "]"))
      with (S (String.length (commas (y :: l) +:+ "]"))).
    assert (length (y :: l) <= String.length (commas (y :: l) +:+ "]"))%nat
      by (apply IH; intros z Hz; apply Hall; now right).
    cbn [length] in *. lia.
Qed.

Lemma mapM_json_string (l : list string) : mapM json_string (map JStr l) = Some l.
Proof. induction l as [| x l IH]; [reflexivity |]. cbn. now rewrite IH. Qed.

(** What [linkDocuments] persists parses back to the list it serialised. *)
Lemma parse_links_stringify (l : list string) :
  parse_links (stringify (strings_to_json l)) = Some l.
Proof.
  unfold parse_links, parse.
  assert (Hs : stringify (strings_to_json l) = "[" +:+ commas (map quoted l) +:+ "]").
  { unfold strings_to_json. cbn [stringify]. now rewrite map_map. }
  rewrite Hs. clear Hs.
  destruct l as [| x l]; [reflexivity |].
  set (r := commas (map quoted (x :: l)) +:+ "]").
  change ("[" +:+ r) with (String "[" r).
  change (String.length (String "[" r)) with (S (String.length r)).
  assert (Hstart : exists t, r = String quote t).
  { unfold r. destruct l; cbn; eauto. }
  destruct Hstart as [t Ht].
  assert (Hpv : parse_value (S (S (String.length r))) (String "[" r)
                = parse_elements (parse_value (S (String.length r))) (String.length r) r []).
  { rewrite Ht. reflexivity. }
  rewrite Hpv.
  assert (Hlen : (length (x :: l) <= String.length r)%nat).
  { unfold r. rewrite <- (length_map quoted (x :: l)). apply commas_length.
    intros y Hy. apply in_map_iff in Hy. destruct Hy as (z & <- & _). cbn. lia. }
  unfold r at 2.
  change (commas (map quoted (x :: l)) +:+ "]")
    with (commas (map quoted (x :: l)) +:+ "]" +:+ EmptyString).
  rewrite (parse_elements_strings _ (x :: l) _ EmptyString []);
    [| intros s q; apply parse_value_quoted | discriminate | exact Hlen].
  cbn [rev app is_empty skip_ws mbind option_bind json_strings].
  apply mapM_json_string.
Qed.

End Roundtrip.

Section Links.
Import JsString Json ResearchHub Contract.

Lemma linkDocuments_present (A : DocId) (B : string) (h : Hub) :
  In B (docLinks h A) -> linkDocuments A B h = h.
Proof.
  intros HB. unfold linkDocuments. fold (docLinks h A).
  apply array_includes_In in HB. now rewrite HB.
Qed.

Lemma linkDocuments_absent (A : DocId) (B : string) (h : Hub) :
  ¬ In B (docLinks h A) ->
  linkDocuments A B h =
  storage_set (links_key A)
    (Some (stringify (strings_to_json (docLinks h A ++ [B]))))
    (setLinks (<[A := docLinks h A ++ [B]]> (links h)) h).
Proof.
  intros HB. unfold linkDocuments. fold (docLinks h A).
  apply array_includes_not_In in HB. now rewrite HB.
Qed.

Lemma links_key_inj (a b : string) : links_key a = links_key b -> a = b.
Proof. unfold links_key. intros Heq. now injection Heq. Qed.

(** The link state of the hypothesis of C5 is the one the component starts
    in, and no call of [linkDocuments] leaves it. *)
Lemma link_ready_initial (A : DocId) (B : string) : link_ready A B initial.
Proof. left. intros []. Qed.

Lemma link_ready_linkDocuments (A : DocId) (B : string) (A' : DocId) (B' : string)
  (h : Hub) :
  link_ready A B h -> link_ready A B (linkDocuments A' B' h).
Proof.
  intros Hready.
  destruct (in_dec string_dec B' (docLinks h A')) as [Hin | Hout].
  { now rewrite (linkDocuments_present A' B' h Hin). }
  rewrite (linkDocuments_absent A' B' h Hout).
  set (h1 := storage_set _ _ _).
  destruct (string_dec A A') as [<- | HA].
  - assert (Hl1 : docLinks h1 A = docLinks h A ++ [B']).
    { unfold docLinks, h1; cbn. now rewrite lookup_insert_eq. }
    assert (Hp1 : persisted h1 !! links_key A
                  = Some (stringify (strings_to_json (docLinks h A ++ [B'])))).
    { unfold h1; cbn. now rewrite lookup_insert_eq. }
    unfold link_ready. rewrite Hl1, Hp1, count_occ_app. cbn.
    destruct (string_dec B' B) as [-> | HB].
    + right. apply (count_occ_not_In string_dec) in Hout. split; [lia | reflexivity].
    + destruct Hready as [Habsent | [Honce _]].
      * left. intros Hin. apply in_app_or in Hin.
        destruct Hin as [Hin | [Heq | []]]; [now apply Habsent | congruence].
      * right. split; [lia | reflexivity].
  - assert (Hl1 : docLinks h1 A = docLinks h A).
    { unfold docLinks, h1; cbn. rewrite lookup_insert_ne; [reflexivity | congruence]. }
    assert (Hp1 : persisted h1 !! links_key A = persisted h !! links_key A).
    { unfold h1; cbn. rewrite lookup_insert_ne; [reflexivity |].
      intros Heq. apply links_key_inj in Heq. congruence. }
    unfold link_ready. rewrite Hl1, Hp1. exact Hready.
Qed.

(** C10. When [B] is already a target of [A], [linkDocuments(A, B)] issues no
    call to the store and leaves the links mapping as it is: the whole
    state, log of store calls included, is the one before the call. *)
Theorem linkDocuments_duplicate_no_effect (A : DocId) (B : string) (h : Hub) :
  In B (docLinks h A) ->
  storage_calls (linkDocuments A B h) = storage_calls h ∧
  persisted (linkDocuments A B h) = persisted h ∧
  links (linkDocuments A B h) = links h ∧
  linkDocuments A B h = h.
Proof.
  intros HB. rewrite (linkDocuments_present A B h HB). repeat split.
Qed.

(** C5, as the code has it. From a state in which [B] is not yet a target
    of [A] (or is one once, with the persisted list current), two calls of
    [linkDocuments(A, B)] in a row leave [B] exactly once in the list of [A]
    in memory, the record persisted at [links:A] is the serialisation of
    that very list and parses back to it, and the second call changes
    nothing. *)
Theorem linkDocuments_twice (A : DocId) (B : string) (h : Hub) :
  link_ready A B h ->
  let h1 := linkDocuments A B h in
  let h2 := linkDocuments A B h1 in
  count_occ string_dec (docLinks h2 A) B = 1%nat ∧
  (∃ stored,
     persisted h2 !! links_key A = Some stored ∧
     stored = stringify (strings_to_json (docLinks h2 A)) ∧
     parse_links stored = Some (docLinks h2 A)) ∧
  h2 = h1.
Proof.
  intros [Habsent | [Honce Hsync]]; cbn zeta.
  - rewrite (linkDocuments_absent A B h Habsent).
    set (l := docLinks h A) in *.
    set (h1 := storage_set _ _ _).
    assert (Hl1 : docLinks h1 A = l ++ [B]).
    { unfold docLinks, h1; cbn. now rewrite lookup_insert_eq. }
    assert (HB1 : In B (docLinks h1 A)).
    { rewrite Hl1. apply in_or_app. right. now left. }
    rewrite (linkDocuments_present A B h1 HB1). rewrite Hl1.
    split; [| split; [| reflexivity]].
    + rewrite count_occ_app. cbn.
      destruct (string_dec B B) as [_ | Hne]; [| congruence].
      apply (count_occ_not_In string_dec) in Habsent. lia.
    + eexists. split; [unfold h1; cbn; apply lookup_insert_eq |].
      split; [reflexivity | apply parse_links_stringify].
  - assert (HB : In B (docLinks h A)).
    { apply (count_occ_In string_dec). lia. }
    rewrite !(linkDocuments_present A B h HB).
    split; [exact Honce |]. split; [| reflexivity].
    eexists. split; [exact Hsync |].
    split; [reflexivity | apply parse_links_stringify].
Qed.

(** C5, as stated, fails from a state the component reaches: once
    [deleteDocument(A)] has removed the record [links:A] and left the links
    of [A] in memory, the guard of [linkDocuments(A, B)] finds [B] there,
    two calls write nothing, and no record at [links:A] holds [B]. *)
Lemma linkDocuments_twice_after_delete :
  ¬ (forall (A : DocId) (B : string) (h : Hub),
       let h1 := linkDocuments A B h in
       let h2 := linkDocuments A B h1 in
       count_occ string_dec (docLinks h2 A) B = 1%nat ∧
       (∃ stored targets,
          persisted h2 !! links_key A = Some stored ∧
          parse_links stored = Some targets ∧
          count_occ string_dec targets B = 1%nat) ∧
       h2 = h1).
Proof.
  intros Hclaim.
  destruct (Hclaim (id Sample.quantum) (id Sample.baking)
              (deleteDocument (id Sample.quantum) Sample.linked_library))
    as (_ & (stored & targets & Hstored & _) & _).
  vm_compute in Hstored. discriminate Hstored.
Qed.

End Links.

Section Documents.
Import JsString Json ResearchHub Contract.

Lemma regenerateAnalysis_documents (analysis : Analysis.t) (doc : Document) (h : Hub) :
  documents (regenerateAnalysis analysis doc h) =
  map (regenerated doc analysis) (documents h).
Proof.
  unfold regenerateAnalysis. cbn.
  destruct (selected_is _ _); reflexivity.
Qed.

Lemma regenerateAnalysis_persisted (analysis : Analysis.t) (doc : Document) (h : Hub) :
  persisted (regenerateAnalysis analysis doc h) =
  <[doc_key (id doc) := stringify (Document_to_json (spread_analysis doc analysis))]>
    (persisted h).
Proof.
  unfold regenerateAnalysis. cbn.
  destruct (selected_is _ _); reflexivity.
Qed.


(** C1. [regenerateAnalysis] persists [{ ...doc, ...analysis }], whose tags are
    the old ones, while the list in memory gets the new topic as first tag:
    on a document tagged Physics, to-read and an analysis of topic
    Mathematics the record at [doc:<id>] keeps Physics as first tag and is
    not the serialisation of the document in memory. *)
Theorem regenerateAnalysis_persists_old_tags :
  let h' := regenerateAnalysis Sample.graph_theory Sample.quantum Sample.library in
  ∃ stored in_store in_memory,
    persisted h' !! doc_key (id Sample.quantum) = Some stored ∧
    parse_document stored = Some in_store ∧
    documents h' !! 0%nat = Some in_memory ∧
    tags in_memory = ["Mathematics"; "to-read"] ∧
    tags in_store = ["Physics"; "to-read"] ∧
    topic in_store = Some "Mathematics" ∧
    stored ≠ stringify (Document_to_json in_memory).
Proof.
  cbn zeta. rewrite regenerateAnalysis_persisted, lookup_insert_eq.
  rewrite regenerateAnalysis_documents.
  eexists _, _, _. split; [reflexivity |].
  split; [vm_compute; reflexivity |].
  split; [reflexivity |].
  repeat split. vm_compute. intros Heq. discriminate Heq.
Qed.

Lemma tagged_id (docId : DocId) (tag : string) (d : Document) :
  id (tagged docId tag d) = id d.
Proof. unfold tagged. now destruct (_ && _). Qed.

Lemma tagged_present (docId : DocId) (tag : string) (d : Document) :
  (id d = docId -> In tag (tags d)) -> tagged docId tag d = d.
Proof.
  intros Hin. unfold tagged.
  destruct (String.eqb_spec (id d) docId) as [Heq | Hne]; [| reflexivity].
  apply Hin, array_includes_In in Heq. now rewrite Heq.
Qed.

Lemma tagged_twice (docId : DocId) (tag : string) (d : Document) :
  tagged docId tag (tagged docId tag d) = tagged docId tag d.
Proof.
  apply tagged_present. rewrite tagged_id. intros Hid.
  unfold tagged. rewrite Hid, String.eqb_refl. cbn.
  destruct (array_includes (tags d) tag) eqn:Hinc; cbn.
  - now apply array_includes_In.
  - apply in_or_app. right. now left.
Qed.

Lemma find_map_same_test {A : Type} (p : A -> bool) (f : A -> A) (l : list A) :
  (forall x, p (f x) = p x) ->
  List.find p (map f l) = f <$> List.find p l.
Proof.
  intros Hp. induction l as [| x l IH]; [reflexivity |].
  cbn. rewrite Hp. now destruct (p x).
Qed.

Lemma addTag_documents (docId : DocId) (tag : string) (h : Hub) :
  documents (addTag docId tag h) = map (tagged docId tag) (documents h).
Proof. reflexivity. Qed.

Lemma addTag_found (docId : DocId) (tag : string) (h : Hub) :
  List.find (fun x => String.eqb (id x) docId) (documents (addTag docId tag h)) =
  tagged docId tag <$> List.find (fun x => String.eqb (id x) docId) (documents h).
Proof.
  rewrite addTag_documents. apply find_map_same_test.
  intros x. now rewrite tagged_id.
Qed.

Lemma addTag_persisted (docId : DocId) (tag : string) (h : Hub) :
  persisted (addTag docId tag h) =
  match List.find (fun x => String.eqb (id x) docId) (documents (addTag docId tag h)) with
  | Some d => <[doc_key docId := stringify (Document_to_json d)]> (persisted h)
  | None => persisted h
  end.
Proof.
  unfold addTag at 1. cbn.
  now destruct (List.find _ _).
Qed.

(** The state without the log of store calls. *)
Lemma addTag_twice_state (docId : DocId) (tag : string) (h : Hub) :
  documents (addTag docId tag (addTag docId tag h)) = documents (addTag docId tag h) ∧
  persisted (addTag docId tag (addTag docId tag h)) = persisted (addTag docId tag h).
Proof.
  assert (Hdocs : documents (addTag docId tag (addTag docId tag h))
                  = documents (addTag docId tag h)).
  { rewrite !addTag_documents, map_map. apply map_ext. intros d. apply tagged_twice. }
  split; [exact Hdocs |].
  rewrite (addTag_persisted docId tag (addTag docId tag h)), Hdocs.
  rewrite (addTag_persisted docId tag h).
  destruct (List.find _ _); [| reflexivity].
  apply insert_insert_eq.
Qed.

(** C8, as the code has it. When every document of the list with identifier
    [docId] already carries [tag], [addTag] leaves the list in memory as it
    is and issues one [set] that writes the serialisation of the unchanged
    document at [doc:<docId>]: the persisted state is unchanged exactly when
    that record was already there. A second [addTag] with the same tag ends
    in the same documents and the same persisted state as the first. *)
Theorem addTag_existing (docId : DocId) (tag : string) (h : Hub) (d : Document) :
  List.find (fun x => String.eqb (id x) docId) (documents h) = Some d ->
  (forall x, In x (documents h) -> id x = docId -> In tag (tags x)) ->
  let h1 := addTag docId tag h in
  documents h1 = documents h ∧
  storage_calls h1 =
    storage_calls h ++ [StorageSet (doc_key docId) (Some (stringify (Document_to_json d)))] ∧
  persisted h1 = <[doc_key docId := stringify (Document_to_json d)]> (persisted h) ∧
  (persisted h !! doc_key docId = Some (stringify (Document_to_json d)) <->
   persisted h1 = persisted h) ∧
  documents (addTag docId tag h1) = documents h1 ∧
  persisted (addTag docId tag h1) = persisted h1.
Proof.
  intros Hfind Hall h1.
  assert (Hdocs : documents h1 = documents h).
  { unfold h1. rewrite addTag_documents.
    rewrite <- (map_id (documents h)) at 2. apply map_ext_in.
    intros x Hx. apply tagged_present. now apply Hall. }
  assert (Hfound : List.find (fun x => String.eqb (id x) docId) (documents h1) = Some d).
  { now rewrite Hdocs. }
  assert (Hpers : persisted h1
                  = <[doc_key docId := stringify (Document_to_json d)]> (persisted h)).
  { unfold h1. rewrite addTag_persisted. fold h1. now rewrite Hfound. }
  split; [exact Hdocs |]. split.
  { unfold h1, addTag. cbn. fold (addTag docId tag h). fold h1.
    change (map (tagged docId tag) (documents h)) with (documents h1).
    now rewrite Hfound. }
  split; [exact Hpers |]. split.
  { rewrite Hpers. split.
    - apply insert_id.
    - intros Heq. rewrite <- Heq. apply lookup_insert_eq. }
  apply addTag_twice_state.
Qed.

(** C8, as stated, fails: after [regenerateAnalysis] has left the old tags in
    the store, adding the tag to-read, which the document already has,
    changes the record persisted for it. *)
Lemma addTag_existing_changes_store :
  ¬ (forall (docId : DocId) (tag : string) (h : Hub) (d : Document),
       List.find (fun x => String.eqb (id x) docId) (documents h) = Some d ->
       In tag (tags d) ->
       documents (addTag docId tag h) = documents h ∧
       persisted (addTag docId tag h) = persisted h).
Proof.
  intros Hclaim.
  destruct (Hclaim (id Sample.quantum) "to-read" Sample.regenerated_library
              (regenerated Sample.quantum Sample.graph_theory Sample.quantum))
    as [_ Hpers].
  - reflexivity.
  - cbn. tauto.
  - apply (f_equal (fun m => m !! doc_key (id Sample.quantum))) in Hpers.
    vm_compute in Hpers. discriminate Hpers.
Qed.

End Documents.

Section Notes.
Import JsString Json ResearchHub Contract.

Lemma addNote_docNotes (now : Z) (stamp : string) (docId : DocId) (note : string)
  (h : Hub) :
  docNotes (addNote now stamp docId note h) docId =
  docNotes h docId ++ [mkNote now note stamp].
Proof.
  unfold docNotes, addNote. cbn. now rewrite lookup_insert_eq.
Qed.

Lemma addNotes_note_ids (docId : DocId) (calls : list (Z * string * string)) (h : Hub) :
  map note_id (docNotes (addNotes docId calls h) docId) =
  map note_id (docNotes h docId) ++ map (fun c => c.1.1) calls.
Proof.
  revert h. induction calls as [| c calls IH]; intros h; cbn.
  - now rewrite app_nil_r.
  - unfold addNotes in IH. rewrite IH, addNote_docNotes, map_app. cbn.
    now rewrite <- app_assoc.
Qed.

(** C9, as the code has it. The identifier of a note is the clock reading
    [Date.now()] of the call that added it: after a sequence of [addNote]
    calls the identifiers of the notes of the document are the ones it had,
    followed by the readings of the calls in order. No two notes share an
    identifier whenever those readings are pairwise distinct and differ from
    the identifiers already there. *)
Theorem addNotes_ids_distinct (docId : DocId) (calls : list (Z * string * string))
  (h : Hub) :
  NoDup (map note_id (docNotes h docId) ++ map (fun c => c.1.1) calls) ->
  map note_id (docNotes (addNotes docId calls h) docId) =
    map note_id (docNotes h docId) ++ map (fun c => c.1.1) calls ∧
  NoDup (map note_id (docNotes (addNotes docId calls h) docId)).
Proof.
  intros Hnodup. split.
  - apply addNotes_note_ids.
  - now rewrite addNotes_note_ids.
Qed.

(** C9, as stated, fails: two notes added to a document within the same
    millisecond get the same identifier. *)
Lemma addNote_same_millisecond :
  ¬ (forall (docId : DocId) (calls : list (Z * string * string)),
       NoDup (map note_id (docNotes (addNotes docId calls initial) docId))).
Proof.
  intros Hclaim.
  specialize (Hclaim "1730000000000.25"
                [(1730000000123, Sample.iso, "first"); (1730000000123, Sample.iso, "second")]).
  rewrite addNotes_note_ids in Hclaim. vm_compute in Hclaim.
  apply NoDup_cons in Hclaim. destruct Hclaim as [Hnotin _].
  apply Hnotin. constructor.
Qed.

End Notes.

Section Strings.
Import JsString.

Lemma strip_prefix_Some (p s r : string) :
  strip_prefix p s = Some r <-> s = p +:+ r.
Proof.
  revert s. induction p as [| a p IH]; intros s; cbn.
  - split; [intros [= ->]; reflexivity | intros ->; reflexivity].
  - destruct s as [| b s]; [split; discriminate |].
    destruct (Ascii.eqb_spec a b) as [-> | Hne].
    + rewrite IH. split; [intros ->; reflexivity | intros Heq; now injection Heq].
    + split; [discriminate | intros Heq; injection Heq; congruence].
Qed.

Lemma starts_with_true (p s : string) :
  starts_with p s = true <-> ∃ r, s = p +:+ r.
Proof.
  unfold starts_with. destruct (strip_prefix p s) as [r |] eqn:Hs.
  - apply strip_prefix_Some in Hs. split; eauto.
  - split; [discriminate |]. intros [r Hr].
    apply strip_prefix_Some in Hr. congruence.
Qed.

Lemma includes_true (s needle : string) :
  includes s needle = true <-> ∃ pre post, s = pre +:+ needle +:+ post.
Proof.
  induction s as [| c s IH]; cbn.
  - rewrite orb_false_r, starts_with_true. split.
    + intros [r Hr]. now exists EmptyString, r.
    + intros (pre & post & Heq). destruct pre; [now exists post | discriminate].
  - rewrite orb_true_iff, starts_with_true, IH. split.
    + intros [[r Hr] | (pre & post & Heq)].
      * now exists EmptyString, r.
      * exists (String c pre), post. cbn. now rewrite Heq.
    + intros (pre & post & Heq). destruct pre as [| c' pre]; cbn in Heq.
      * left. now exists post.
      * right. exists pre, post. now injection Heq.
Qed.

Lemma lowerAscii_app (a b : string) :
  lowerAscii (a +:+ b) = lowerAscii a +:+ lowerAscii b.
Proof.
  induction a as [| c a IH]; [reflexivity |].
  change (String (lower_ascii c) (lowerAscii (a +:+ b)) =
          String (lower_ascii c) (lowerAscii a +:+ lowerAscii b)).
  now rewrite IH.
Qed.

Lemma lowerAscii_split (s a b : string) :
  lowerAscii s = a +:+ b ->
  ∃ s1 s2, s = s1 +:+ s2 ∧ lowerAscii s1 = a ∧ lowerAscii s2 = b.
Proof.
  revert s. induction a as [| c a IH]; intros s Heq; cbn in Heq.
  - now exists EmptyString, s.
  - destruct s as [| x s]; [discriminate |]. cbn in Heq.
    injection Heq as Hc Hrest. destruct (IH s Hrest) as (s1 & s2 & -> & H1 & H2).
    exists (String x s1), s2. cbn. now rewrite Hc, H1.
Qed.

Lemma nat_of_lower_ascii (c : ascii) :
  nat_of_ascii (lower_ascii c) =
  if is_upper c then (nat_of_ascii c + 32)%nat else nat_of_ascii c.
Proof.
  unfold lower_ascii. destruct (is_upper c) eqn:Hup; [| reflexivity].
  apply nat_ascii_embedding. unfold is_upper in Hup.
  apply andb_true_iff in Hup. destruct Hup as [_ Hle].
  apply Nat.leb_le in Hle. lia.
Qed.

Lemma nat_of_ascii_inj (a b : ascii) : nat_of_ascii a = nat_of_ascii b -> a = b.
Proof.
  intros Heq. rewrite <- (ascii_nat_embedding a), <- (ascii_nat_embedding b).
  now rewrite Heq.
Qed.

Lemma lower_ascii_same_letter (a b : ascii) :
  lower_ascii a = lower_ascii b <-> Contract.same_letter a b.
Proof.
  unfold Contract.same_letter. split.
  - intros Heq. apply (f_equal nat_of_ascii) in Heq.
    rewrite !nat_of_lower_ascii in Heq. unfold is_upper in Heq.
    destruct (65 <=? nat_of_ascii a)%nat eqn:Ha1;
      destruct (nat_of_ascii a <=? 90)%nat eqn:Ha2;
      destruct (65 <=? nat_of_ascii b)%nat eqn:Hb1;
      destruct (nat_of_ascii b <=? 90)%nat eqn:Hb2; cbn in Heq;
      repeat match goal with
        | H : (_ <=? _)%nat = true |- _ => apply Nat.leb_le in H
        | H : (_ <=? _)%nat = false |- _ => apply Nat.leb_gt in H
        end;
      try (left; apply nat_of_ascii_inj; lia);
      try (right; exists (nat_of_ascii a); lia);
      try (right; exists (nat_of_ascii b); lia).
  - intros [-> | (n & Hn & Hcase)]; [reflexivity |].
    apply nat_of_ascii_inj. rewrite !nat_of_lower_ascii. unfold is_upper.
    destruct Hcase as [[Ha Hb] | [Hb Ha]]; rewrite Ha, Hb.
    + replace (65 <=? n)%nat with true by (symmetry; apply Nat.leb_le; lia).
      replace (n <=? 90)%nat with true by (symmetry; apply Nat.leb_le; lia).
      replace (n + 32 <=? 90)%nat with false by (symmetry; apply Nat.leb_gt; lia).
      rewrite andb_false_r. reflexivity.
    + replace (65 <=? n)%nat with true by (symmetry; apply Nat.leb_le; lia).
      replace (n <=? 90)%nat with true by (symmetry; apply Nat.leb_le; lia).
      replace (n + 32 <=? 90)%nat with false by (symmetry; apply Nat.leb_gt; lia).
      rewrite andb_false_r. reflexivity.
Qed.

Lemma lowerAscii_same (a b : string) :
  lowerAscii a = lowerAscii b <-> Contract.same_ignoring_case a b.
Proof.
  split.
  - revert b. induction a as [| x a IH]; intros [| y b] Heq; cbn in Heq;
      try discriminate; [constructor |].
    injection Heq as Hc Hrest. constructor.
    + now apply lower_ascii_same_letter.
    + now apply IH.
  - induction 1 as [| x y a b Hxy _ IH]; cbn; [reflexivity |].
    apply lower_ascii_same_letter in Hxy. now rewrite Hxy, IH.
Qed.

Lemma includes_lowerAscii (s term : string) :
  includes (lowerAscii s) (lowerAscii term) = true <->
  Contract.part_ignoring_case term s.
Proof.
  rewrite includes_true. unfold Contract.part_ignoring_case. split.
  - intros (pre & post & Heq).
    apply lowerAscii_split in Heq. destruct Heq as (s1 & s2 & -> & _ & H2).
    apply lowerAscii_split in H2. destruct H2 as (s3 & s4 & -> & H3 & _).
    exists s1, s3, s4. split; [reflexivity |]. now apply lowerAscii_same.
  - intros (pre & mid & post & -> & Hsame).
    apply lowerAscii_same in Hsame.
    exists (lowerAscii pre), (lowerAscii post).
    now rewrite !lowerAscii_app, Hsame.
Qed.

Lemma toLowerCase_ascii `{Host} (s : string) :
  all_chars is_ascii s = true -> toLowerCase s = lowerAscii s.
Proof. intros Hs. unfold toLowerCase. now rewrite Hs. Qed.

End Strings.

Section Search.
Import JsString Json ResearchHub Contract.
Context {host : Host}.

Lemma includes_ignoring_case (s term : string) :
  includes (toLowerCase s) (toLowerCase term) = true <->
  occurs_ignoring_case term s.
Proof. apply includes_true. Qed.

(** On ASCII text, the term occurs in [s] with case ignored exactly when
    some part of [s] is the term, letter by letter, case apart. *)
Lemma occurs_ignoring_case_ascii (term s : string) :
  all_chars is_ascii term = true -> all_chars is_ascii s = true ->
  occurs_ignoring_case term s <-> part_ignoring_case term s.
Proof.
  intros Hterm Hs. rewrite <- includes_ignoring_case.
  rewrite (toLowerCase_ascii s Hs), (toLowerCase_ascii term Hterm).
  apply includes_lowerAscii.
Qed.

Lemma matchesSearch_spec (term : string) (d : Document) :
  matchesSearch term d = true <-> matches_term term d.
Proof.
  unfold matchesSearch, matches_term.
  rewrite !orb_true_iff, includes_ignoring_case.
  assert (Hsum : match summary d with
                 | Some s => includes (toLowerCase s) (toLowerCase term)
                 | None => false
                 end = true
                 <-> ∃ s, summary d = Some s ∧ occurs_ignoring_case term s).
  { destruct (summary d) as [s |].
    - rewrite includes_ignoring_case. split.
      + intros Hs. now exists s.
      + intros (s' & [= <-] & Hs). exact Hs.
    - split; [discriminate | intros (s' & Hs & _); discriminate]. }
  assert (Hkey : match keywords d with
                 | Some ks =>
                     existsb (fun k => includes (toLowerCase k) (toLowerCase term)) ks
                 | None => false
                 end = true
                 <-> ∃ ks k, keywords d = Some ks ∧ In k ks ∧ occurs_ignoring_case term k).
  { destruct (keywords d) as [ks |].
    - rewrite existsb_exists. split.
      + intros (k & Hk & Hinc). apply includes_ignoring_case in Hinc. now exists ks, k.
      + intros (ks' & k & [= <-] & Hk & Hocc). exists k.
        split; [exact Hk | now apply includes_ignoring_case].
    - split; [discriminate | intros (ks' & k & Hs & _); discriminate]. }
  rewrite Hsum, Hkey. tauto.
Qed.

Lemma matches_term_letters (term : string) (d : Document) :
  all_chars is_ascii term = true -> ascii_fields d ->
  matches_term term d <-> matches_letters term d.
Proof.
  intros Hterm (Htitle & Hsummary & Hkeywords).
  unfold matches_term, matches_letters.
  rewrite (occurs_ignoring_case_ascii term (title d) Hterm Htitle).
  assert (Hsum : (∃ s, summary d = Some s ∧ occurs_ignoring_case term s)
                 <-> ∃ s, summary d = Some s ∧ part_ignoring_case term s).
  { split; intros (s & Hs & Hocc); exists s; (split; [exact Hs |]);
      now apply (occurs_ignoring_case_ascii term s Hterm (Hsummary s Hs)). }
  assert (Hkey : (∃ ks k, keywords d = Some ks ∧ In k ks ∧ occurs_ignoring_case term k)
                 <-> ∃ ks k, keywords d = Some ks ∧ In k ks ∧ part_ignoring_case term k).
  { split; intros (ks & k & Hks & Hk & Hocc); exists ks, k;
      (split; [exact Hks |]); (split; [exact Hk |]);
      now apply (occurs_ignoring_case_ascii term k Hterm (Hkeywords ks k Hks Hk)). }
  now rewrite Hsum, Hkey.
Qed.

Lemma matchesTag_spec (tag : string) (d : Document) :
  matchesTag tag d = true <-> matches_filter tag d.
Proof.
  unfold matchesTag, matches_filter.
  rewrite orb_true_iff, array_includes_In.
  destruct tag; cbn; split; intros [H0 | H0]; auto; discriminate.
Qed.

(** C6. The derived list is the document list filtered by a test that holds
    of exactly the documents that match the term (as a case-insensitive
    substring of the title, of the summary or of some keyword: the term in
    lower case occurs in the field in lower case) and the tag filter
    (empty, or an element of the tags): it has those documents and no
    other, in the order of the list.  For a term and a document in ASCII,
    to match the term is to have a part that is the term letter by letter,
    case apart. *)
Theorem filteredDocs_selected (h : Hub) :
  (∃ f : Document -> bool,
     (forall d, f d = true <-> selected (searchTerm h) (filterTag h) d) ∧
     filteredDocs h = List.filter f (documents h)) ∧
  (forall d, In d (filteredDocs h) <->
             In d (documents h) ∧ selected (searchTerm h) (filterTag h) d) ∧
  (forall d, all_chars is_ascii (searchTerm h) = true -> ascii_fields d ->
             In d (filteredDocs h) <->
             In d (documents h) ∧ matches_letters (searchTerm h) d
             ∧ matches_filter (filterTag h) d).
Proof.
  assert (Hf : forall d,
             matchesSearch (searchTerm h) d && matchesTag (filterTag h) d = true
             <-> selected (searchTerm h) (filterTag h) d).
  { intros d. unfold selected.
    now rewrite andb_true_iff, matchesSearch_spec, matchesTag_spec. }
  split; [| split].
  - eexists. split; [exact Hf | reflexivity].
  - intros d. unfold filteredDocs. rewrite filter_In. now rewrite Hf.
  - intros d Hterm Hd. unfold filteredDocs. rewrite filter_In, Hf.
    unfold selected. now rewrite (matches_term_letters _ d Hterm Hd).
Qed.

(** The three searches of the specification. *)
Example filteredDocs_by_tag :
  filteredDocs (setFilterTag "Physics" Sample.library) = [Sample.quantum].
Proof. vm_compute. reflexivity. Qed.

Example filteredDocs_by_term :
  filteredDocs (setSearchTerm "qUaNt" Sample.library) = [Sample.quantum].
Proof. vm_compute. reflexivity. Qed.

Example filteredDocs_by_both :
  filteredDocs (setFilterTag "Food" (setSearchTerm "quant" Sample.library)) = [].
Proof. vm_compute. reflexivity. Qed.

End Search.

Section Upload.
Import JsString Json ResearchHub Contract.

Lemma all_chars_spec (f : ascii -> bool) (s : string) :
  all_chars f s = true <-> forall c, In c (list_ascii_of_string s) -> f c = true.
Proof.
  induction s as [| x s IH]; cbn.
  - split; [intros _ c [] | reflexivity].
  - rewrite andb_true_iff, IH. split.
    + intros [Hx Hs] c [<- | Hc]; auto.
    + intros Hall. split; [apply Hall; now left | intros c Hc; apply Hall; now right].
Qed.

Lemma extension_chars (ext : string) :
  all_chars (fun x => negb (Ascii.eqb x "/" || Ascii.eqb x ".")) ext = true <->
  forall c, In c (list_ascii_of_string ext) -> c ≠ "."%char ∧ c ≠ "/"%char.
Proof.
  rewrite all_chars_spec. split; intros Hall c Hc; specialize (Hall c Hc).
  - apply negb_true_iff, orb_false_iff in Hall. destruct Hall as [H1 H2].
    apply Ascii.eqb_neq in H1, H2. auto.
  - destruct Hall as [H1 H2]. apply Ascii.eqb_neq in H1, H2.
    now rewrite H1, H2.
Qed.

Lemma is_empty_true (s : string) : is_empty s = true <-> s = EmptyString.
Proof. destruct s; cbn; split; congruence. Qed.

Lemma has_extension_cons (c : ascii) (name base ext : string) :
  has_extension name base ext -> has_extension (String c name) (String c base) ext.
Proof. intros (-> & Hne & Hall). split; [reflexivity | split; assumption]. Qed.

Lemma has_extension_head (c : ascii) (name base ext : string) :
  has_extension (String c name) base ext ->
  (base = EmptyString ∧ c = "."%char ∧ name = ext) ∨
  (∃ base', base = String c base' ∧ has_extension name base' ext).
Proof.
  intros (Heq & Hne & Hall). destruct base as [| b base].
  - left. now injection Heq as -> ->.
  - right. injection Heq as -> ->. exists base.
    split; [reflexivity | split; [reflexivity | split; assumption]].
Qed.

Lemma strip_extension_spec (name : string) :
  without_extension name (strip_extension name).
Proof.
  unfold without_extension. induction name as [| c name IH]; cbn.
  - right. split; [reflexivity |]. intros [| b base] ext (Heq & _); discriminate.
  - destruct (Ascii.eqb c "." && negb (is_empty name)
              && all_chars (fun x => negb (Ascii.eqb x "/" || Ascii.eqb x ".")) name)
      eqn:Htest.
    + left. apply andb_true_iff in Htest. destruct Htest as [Htest Hall].
      apply andb_true_iff in Htest. destruct Htest as [Hdot Hne].
      apply Ascii.eqb_eq in Hdot. subst c. exists name. split; [reflexivity |].
      split.
      * intros ->. discriminate.
      * now apply extension_chars.
    + destruct IH as [[ext Hext] | [Hsame Hnone]].
      * left. exists ext. now apply has_extension_cons.
      * right. rewrite Hsame. split; [reflexivity |].
        intros base ext Hext.
        destruct (has_extension_head c name base ext Hext)
          as [(-> & -> & ->) | (base' & -> & Hext')].
        -- destruct Hext as (_ & Hne & Hall).
           apply extension_chars in Hall. rewrite Hall in Htest.
           destruct ext; [congruence | discriminate].
        -- exact (Hnone base' ext Hext').
Qed.

Lemma dot_between (base ext : string) :
  In "."%char (list_ascii_of_string (base +:+ "." +:+ ext)).
Proof. induction base as [| x base IH]; [now left | now right]. Qed.

Lemma extension_without_dot (name base ext b e : string) :
  has_extension name base ext -> ext ≠ b +:+ "." +:+ e.
Proof.
  intros (_ & _ & Hall) ->.
  destruct (Hall "."%char (dot_between b e)) as [Hdot _]. congruence.
Qed.

Lemma has_extension_unique (name b1 e1 b2 e2 : string) :
  has_extension name b1 e1 -> has_extension name b2 e2 -> b1 = b2.
Proof.
  revert b1 b2. induction name as [| c name IH]; intros b1 b2 H1 H2.
  - destruct H1 as (Heq & _). destruct b1; discriminate.
  - destruct (has_extension_head c name b1 e1 H1)
      as [(-> & Hc & Hn1) | (b1' & -> & H1')];
      destruct (has_extension_head c name b2 e2 H2)
        as [(-> & _ & Hn2) | (b2' & -> & H2')].
    + reflexivity.
    + exfalso. subst name. destruct H2' as (Heq & _).
      exact (extension_without_dot _ _ _ _ _ H1 Heq).
    + exfalso. subst name. destruct H1' as (Heq & _).
      exact (extension_without_dot _ _ _ _ _ H2 Heq).
    + f_equal. exact (IH b1' b2' H1' H2').
Qed.

Lemma without_extension_unique (name t1 t2 : string) :
  without_extension name t1 -> without_extension name t2 -> t1 = t2.
Proof.
  intros [[e1 H1] | [-> N1]] [[e2 H2] | [-> N2]].
  - exact (has_extension_unique name t1 e1 t2 e2 H1 H2).
  - destruct (N2 t1 e1 H1).
  - destruct (N1 t2 e2 H2).
  - reflexivity.
Qed.

(** The document that [reader.onload] builds from an analysis of the
    four-member shape, appends to the list and persists. *)
Lemma upload_typed (file : File) (result : string)
  (analysis : Analysis.t) (new_id : DocId) (now : string) (h : Hub) :
  let d := newDoc file (extracted_text file result) analysis new_id now in
  let h' := reader_onload file result analysis new_id now h in
  documents h' = documents h ++ [d] ∧
  persisted h' !! doc_key new_id = Some (stringify (Document_to_json d)) ∧
  without_extension (name file) (title d) ∧
  tags d = [Analysis.topic analysis].
Proof.
  cbn zeta. split; [reflexivity |].
  split; [unfold reader_onload; cbn; apply lookup_insert_eq |].
  split; [apply strip_extension_spec | reflexivity].
Qed.

(** A spread leaves alone the properties it does not carry. *)
Lemma spread_untouched (k : string) (props : list (string * JSON))
  (obj : gmap string Held) :
  ¬ In k (map fst props) ->
  fold_left (fun obj kv => <[kv.1 := Plain kv.2]> obj) props obj !! k = obj !! k.
Proof.
  revert obj. induction props as [| [k' v] props IH]; intros obj Hk; [reflexivity |].
  cbn [fold_left fst snd]. rewrite IH.
  - apply lookup_insert_ne. intros ->. apply Hk. now left.
  - intros Hin. apply Hk. now right.
Qed.

(** A spread gives a property it carries the last value it has for it. *)
Lemma spread_carried (k : string) (props : list (string * JSON))
  (obj : gmap string Held) (v : JSON) :
  member k props = Some v ->
  fold_left (fun obj kv => <[kv.1 := Plain kv.2]> obj) props obj !! k
  = Some (Plain v).
Proof.
  revert obj. induction props as [| [k' v'] props IH]; intros obj Hv; [discriminate |].
  cbn [fold_left fst snd]. cbn [member] in Hv.
  destruct (member k props) as [v'' |] eqn:Hrest.
  - injection Hv as ->. now apply IH.
  - destruct (String.eqb_spec k k') as [<- | Hne]; [| discriminate].
    injection Hv as ->. rewrite spread_untouched.
    + apply lookup_insert_eq.
    + clear IH. induction props as [| [k2 v2] props IH2]; [intros [] |].
      cbn [member] in Hrest. destruct (member k props) eqn:Hp; [discriminate |].
      destruct (String.eqb_spec k k2) as [-> | Hne2]; [discriminate |].
      intros [Heq | Hin]; [cbn in Heq; congruence | now apply IH2].
Qed.

(** What the analysis carries under a name is what [newDoc] has under
    it. *)
Lemma newDoc_object_carried (file : File) (text : string)
  (members : list (string * JSON)) (new_id : DocId) (now : string)
  (obj : gmap string Held) (k : string) (v : JSON) :
  newDoc_object file text (JObj members) new_id now = Some obj ->
  member k members = Some v ->
  obj !! k = Some (Plain v).
Proof.
  unfold newDoc_object. cbn [topic_of spread]. intros [= <-] Hv.
  now apply spread_carried.
Qed.

Section Ingest.
Context {host : Host}.

(** C7, as the code has it. For an analysis that is not [null] and carries
    no property named [title] or [tags], the object [newDoc] that
    [reader.onload] builds has the file name without its final extension
    as title (the only string that is the name so stripped) and the
    one-element array [[analysis.topic]] as tags. *)
Theorem upload_title_and_tags (fetch : Request -> FetchOutcome) (file : File)
  (result : string) (new_id : DocId) (now : string) :
  let text := extracted_text file result in
  let analysis := analyzeDocument fetch text (name file) in
  analysis ≠ JNull -> ¬ carries "title" analysis -> ¬ carries "tags" analysis ->
  ∃ (obj : gmap string Held) (topic : option JSON) (stripped : string),
    newDoc_object file text analysis new_id now = Some obj ∧
    topic_of analysis = Some topic ∧
    obj !! "title" = Some (Plain (JStr stripped)) ∧
    without_extension (name file) stripped ∧
    (forall t, without_extension (name file) t -> t = stripped) ∧
    obj !! "tags" = Some (ArrayLiteral [topic]).
Proof.
  cbn zeta. set (analysis := analyzeDocument _ _ _). intros Hnull Htitle Htags.
  unfold newDoc_object.
  destruct (topic_of analysis) as [topic |] eqn:Htopic;
    [| destruct analysis; try discriminate; congruence].
  eexists _, topic, (strip_extension (name file)). split; [reflexivity |].
  split; [reflexivity |].
  split; [rewrite (spread_untouched "title" _ _ Htitle); reflexivity |].
  split; [apply strip_extension_spec |].
  split.
  - intros t Ht.
    exact (without_extension_unique (name file) _ _ Ht (strip_extension_spec (name file))).
  - rewrite (spread_untouched "tags" _ _ Htags). reflexivity.
Qed.

(** The analyses of the four-member shape, the fallback among them, are
    such analyses, and the tag is their topic. *)
Lemma upload_shaped (fetch : Request -> FetchOutcome) (file : File)
  (result : string) (new_id : DocId) (now : string) (a : Analysis.t) :
  let text := extracted_text file result in
  analyzeDocument fetch text (name file) = Analysis.to_json a ->
  ∃ obj,
    newDoc_object file text (analyzeDocument fetch text (name file)) new_id now
      = Some obj ∧
    Held_to_json <$> obj !! "title"
      = Some (JStr (title (newDoc file text a new_id now))) ∧
    Held_to_json <$> obj !! "tags"
      = Some (strings_to_json (tags (newDoc file text a new_id now))) ∧
    Held_to_json <$> obj !! "topic" = Some (JStr (Analysis.topic a)).
Proof.
  cbn zeta. intros ->. eexists. split; [reflexivity |].
  repeat split.
Qed.

End Ingest.

(** C7, as stated, fails when the service adds a title to its answer: the
    spread comes after [title] and [tags] in the object literal, and what
    the analysis carries under those names replaces them. *)
Lemma upload_title_overridden :
  ¬ (∃ host : Host,
       forall (fetch : Request -> FetchOutcome) (file : File) (result : string)
              (new_id : DocId) (now : string),
         let text := extracted_text file result in
         let analysis := analyzeDocument fetch text (name file) in
         ∃ obj, newDoc_object file text analysis new_id now = Some obj ∧
                obj !! "title" = Some (Plain (JStr (strip_extension (name file)))) ∧
                ∃ topic, topic_of analysis = Some topic ∧
                         obj !! "tags" = Some (ArrayLiteral [topic])).
Proof.
  intros [host Hclaim].
  destruct (Hclaim Trial.titling_service Sample.notes_txt Sample.notes_txt_content
              "1730000000002.75" Sample.iso) as (obj & Hobj & Htitle & _).
  cbn zeta in Hobj.
  assert (Hanswer : analyzeDocument Trial.titling_service
                      (extracted_text Sample.notes_txt Sample.notes_txt_content)
                      (name Sample.notes_txt)
                    = JObj [("title", JStr "Graph theory notes");
                            ("summary", JStr "Meeting about graph theory");
                            ("keywords", JArr [JStr "graph"; JStr "theory"]);
                            ("entities", JArr [JStr "Alice"; JStr "Bob"]);
                            ("topic", JStr "Mathematics");
                            ("tags", JArr [JStr "maths"; JStr "meetings"])])
    by (vm_compute; reflexivity).
  rewrite Hanswer in Hobj.
  rewrite (newDoc_object_carried _ _ _ _ _ obj "title" (JStr "Graph theory notes")
             Hobj eq_refl) in Htitle.
  discriminate Htitle.
Qed.

(** The upload of the specification, end to end. *)
Example upload_notes_txt :
  let h' :=
    reader_onload Sample.notes_txt Sample.notes_txt_content Sample.graph_theory
      "1730000000000.25" Sample.iso initial in
  ∃ d, documents h' = [d] ∧
       title d = "notes" ∧ tags d = ["Mathematics"] ∧
       entities d = Some ["Alice"; "Bob"] ∧
       persisted h' !! "doc:1730000000000.25" = Some (stringify (Document_to_json d)) ∧
       parse_document (stringify (Document_to_json d)) = Some d.
Proof.
  cbn zeta. eexists. split; [reflexivity |].
  repeat split; vm_compute; reflexivity.
Qed.

Example strip_extension_samples :
  strip_extension "notes.txt" = "notes" ∧
  strip_extension "archive.tar.gz" = "archive.tar" ∧
  strip_extension "README" = "README" ∧
  strip_extension "draft." = "draft.".
Proof. repeat split. Qed.

End Upload.

Section Load.
Import JsString Json ResearchHub Contract.

Lemma load_docs_from (st : StorageView) (keys : list string) (acc : list Document) :
  fold_left
    (fun loadedDocs key =>
       match load_value parse_document st key with
       | Some d => loadedDocs ++ [d]
       | None => loadedDocs
       end)
    keys acc
  = acc ++ omap (load_value parse_document st) keys.
Proof.
  revert acc. induction keys as [| k keys IH]; intros acc; cbn.
  - now rewrite app_nil_r.
  - rewrite IH. destruct (load_value parse_document st k); [| reflexivity].
    now rewrite <- app_assoc.
Qed.

Lemma load_docs_omap (st : StorageView) (keys : list string) :
  load_docs st keys = omap (load_value parse_document st) keys.
Proof. unfold load_docs. now rewrite load_docs_from. Qed.

Lemma load_value_valid {A : Type} (parse_as : string -> option A)
  (st : StorageView) (key v : string) (x : A) :
  storage_get st key = GetValue v -> v ≠ EmptyString -> parse_as v = Some x ->
  load_value parse_as st key = Some x.
Proof.
  intros Hget Hne Hparse. unfold load_value. rewrite Hget.
  destruct v; [congruence | exact Hparse].
Qed.

Lemma replace_first_prefix (prefix rest : string) :
  replace_first prefix EmptyString (prefix +:+ rest) = rest.
Proof.
  assert (Hs : strip_prefix prefix (prefix +:+ rest) = Some rest)
    by now apply strip_prefix_Some.
  destruct (prefix +:+ rest); cbn; now rewrite Hs.
Qed.

Lemma load_by_id_snoc {A : Type} (parse_as : string -> option A)
  (prefix : string) (st : StorageView) (keys : list string) (k : string) :
  load_by_id parse_as prefix st (keys ++ [k]) =
  match load_value parse_as st k with
  | Some v => <[replace_first prefix EmptyString k := v]> (load_by_id parse_as prefix st keys)
  | None => load_by_id parse_as prefix st keys
  end.
Proof. unfold load_by_id. now rewrite fold_left_app. Qed.

(** A valid record is in the loaded mapping under its identifier, whatever
    the other keys of the listing hold. *)
Lemma load_by_id_valid {A : Type} (parse_as : string -> option A)
  (prefix : string) (st : StorageView) (keys : list string) (i : string) (x : A) :
  Forall (fun k => starts_with prefix k = true) keys ->
  In (prefix +:+ i) keys ->
  load_value parse_as st (prefix +:+ i) = Some x ->
  load_by_id parse_as prefix st keys !! i = Some x.
Proof.
  intros Hall Hin Hval. induction keys as [| k keys IH] using rev_ind.
  - destruct Hin.
  - apply Forall_app in Hall. destruct Hall as [Hall Hk].
    apply Forall_cons in Hk. destruct Hk as [Hk _].
    apply starts_with_true in Hk. destruct Hk as [j ->].
    rewrite load_by_id_snoc, replace_first_prefix.
    destruct (string_dec j i) as [-> | Hne].
    + rewrite Hval. apply lookup_insert_eq.
    + assert (Hin' : In (prefix +:+ i) keys).
      { apply in_app_or in Hin. destruct Hin as [Hin | [Heq | []]]; [exact Hin |].
        exfalso. apply Hne. apply (f_equal (strip_prefix prefix)) in Heq.
        assert (H1 : strip_prefix prefix (prefix +:+ j) = Some j)
          by now apply strip_prefix_Some.
        assert (H2 : strip_prefix prefix (prefix +:+ i) = Some i)
          by now apply strip_prefix_Some.
        congruence. }
      specialize (IH Hall Hin').
      destruct (load_value parse_as st (prefix +:+ j)); [| exact IH].
      now rewrite lookup_insert_ne.
Qed.

Lemma load_value_Some {A : Type} (parse_as : string -> option A)
  (st : StorageView) (key : string) (x : A) :
  load_value parse_as st key = Some x ->
  ∃ v, storage_get st key = GetValue v ∧ v ≠ EmptyString ∧ parse_as v = Some x.
Proof.
  unfold load_value. destruct (storage_get st key) as [| | v]; try discriminate.
  destruct v as [| c v]; [discriminate |]. intros Hx. now exists (String c v).
Qed.

Lemma load_by_id_Some {A : Type} (parse_as : string -> option A)
  (prefix : string) (st : StorageView) (keys : list string) (i : string) (x : A) :
  load_by_id parse_as prefix st keys !! i = Some x ->
  ∃ k, In k keys ∧ replace_first prefix EmptyString k = i ∧
       load_value parse_as st k = Some x.
Proof.
  induction keys as [| k keys IH] using rev_ind.
  - unfold load_by_id. cbn. rewrite lookup_empty. discriminate.
  - rewrite load_by_id_snoc. intros Hx.
    assert (Hold : load_by_id parse_as prefix st keys !! i = Some x ->
                   ∃ k0, In k0 (keys ++ [k]) ∧
                         replace_first prefix EmptyString k0 = i ∧
                         load_value parse_as st k0 = Some x).
    { intros H. destruct (IH H) as (k0 & Hk0 & Hrest). exists k0.
      split; [apply in_or_app; now left | exact Hrest]. }
    destruct (load_value parse_as st k) as [v |] eqn:Hv; [| now apply Hold].
    destruct (string_dec (replace_first prefix EmptyString k) i) as [Heq | Hne].
    + rewrite Heq, lookup_insert_eq in Hx. injection Hx as ->.
      exists k. split; [apply in_or_app; right; now left | now split].
    + rewrite lookup_insert_ne in Hx by exact Hne. now apply Hold.
Qed.

Lemma loadData_loaded (st : StorageView) (h : Hub) :
  storage_list st "doc:" ≠ ListThrows ->
  storage_list st "notes:" ≠ ListThrows ->
  storage_list st "links:" ≠ ListThrows ->
  loadData st h =
  setLinks (load_by_id parse_links "links:" st (keys_of (storage_list st "links:")))
    (setNotes (load_by_id parse_notes "notes:" st (keys_of (storage_list st "notes:")))
       (setDocuments (load_docs st (keys_of (storage_list st "doc:"))) h)).
Proof.
  intros Hd Hn Hl. unfold loadData.
  destruct (storage_list st "doc:"), (storage_list st "notes:"),
    (storage_list st "links:"); congruence.
Qed.

Lemma load_values_from (st : StorageView) (keys : list string) (acc : list JSON) :
  fold_left
    (fun loadedDocs key =>
       match load_value parse st key with
       | Some j => loadedDocs ++ [j]
       | None => loadedDocs
       end)
    keys acc
  = acc ++ omap (load_value parse st) keys.
Proof.
  revert acc. induction keys as [| k keys IH]; intros acc; cbn.
  - now rewrite app_nil_r.
  - rewrite IH. destruct (load_value parse st k); [| reflexivity].
    now rewrite <- app_assoc.
Qed.

Lemma load_values_omap (st : StorageView) (keys : list string) :
  load_values st keys = omap (load_value parse st) keys.
Proof. unfold load_values. now rewrite load_values_from. Qed.

Lemma load_value_record (st : StorageView) (key : string) (j : JSON) :
  load_value parse st key = Some j <-> valid_record st key j.
Proof.
  split.
  - exact (load_value_Some parse st key j).
  - intros (v & Hget & Hne & Hparse).
    exact (load_value_valid parse st key v j Hget Hne Hparse).
Qed.

(** A corrupted record loads nothing. *)
Lemma load_value_corrupted (st : StorageView) (key : string) :
  load_value parse st key = None <-> corrupted st key.
Proof.
  unfold corrupted. split.
  - intros Hnone [j Hj]. apply load_value_record in Hj. congruence.
  - intros Hbad. destruct (load_value parse st key) as [j |] eqn:Hj; [| reflexivity].
    exfalso. apply Hbad. exists j. now apply load_value_record.
Qed.

(** Under the keys of a namespace, the loaded mapping has for an
    identifier exactly what the record of its key holds. *)
Lemma load_by_id_record (prefix : string) (st : StorageView) (keys : list string)
  (i : string) (j : JSON) :
  Forall (fun k => starts_with prefix k = true) keys ->
  load_by_id parse prefix st keys !! i = Some j <->
  In (prefix +:+ i) keys ∧ valid_record st (prefix +:+ i) j.
Proof.
  intros Hkeys. split.
  - intros Hi. apply load_by_id_Some in Hi. destruct Hi as (k & Hk & Hid & Hval).
    rewrite Forall_forall in Hkeys.
    pose proof (Hkeys k (proj2 (list_elem_of_In keys k) Hk)) as Hpre.
    apply starts_with_true in Hpre. destruct Hpre as [r ->].
    rewrite replace_first_prefix in Hid. subst r.
    split; [exact Hk | now apply load_value_record].
  - intros [Hin Hval]. apply load_value_record in Hval.
    exact (load_by_id_valid parse prefix st keys i j Hkeys Hin Hval).
Qed.

(** The typed documents of [loadData] are, of the values it loads, those
    that have the shape of a document. *)
Lemma load_docs_values (st : StorageView) (keys : list string) :
  load_docs st keys = omap Document_of_json (load_values st keys).
Proof.
  rewrite load_docs_omap, load_values_omap.
  assert (Hone : forall k, load_value parse_document st k
                           = load_value parse st k ≫= Document_of_json).
  { intros k. unfold load_value, parse_document.
    destruct (storage_get st k) as [| | v]; try reflexivity.
    now destruct (is_empty v). }
  induction keys as [| k keys IH]; [reflexivity |].
  cbn [omap list_omap]. rewrite Hone, IH.
  destruct (load_value parse st k) as [j |]; [| reflexivity].
  cbn. now destruct (Document_of_json j).
Qed.

(** C4. When the three listings return their keys, [loadData] loads every
    valid record and skips every corrupted one, in each namespace by
    itself: the documents it hands to [setDocuments] are the values of the
    valid records among the listed keys, in the order of the listing; the
    notes and the links it hands to [setNotes] and [setLinks] have an entry
    for an identifier exactly when the key of that identifier is listed and
    its record is valid, and the entry is the value of that record (the
    name [__proto__] apart, under which an object used as a mapping records
    no entry).  A record is valid when its read returns a value that is not
    empty and parses, whatever the other keys hold. *)
Theorem loadData_skips_corrupted (st : StorageView)
  (docKeys noteKeys linkKeys : list string) :
  storage_list st "doc:" = ListKeys docKeys ->
  storage_list st "notes:" = ListKeys noteKeys ->
  storage_list st "links:" = ListKeys linkKeys ->
  Forall (fun k => starts_with "notes:" k = true) noteKeys ->
  Forall (fun k => starts_with "links:" k = true) linkKeys ->
  ∃ loaded,
    loadData_values st = Some loaded ∧
    (∃ record : string -> option JSON,
       (forall k j, record k = Some j <-> valid_record st k j) ∧
       loadedDocs loaded = omap record docKeys) ∧
    (forall j, In j (loadedDocs loaded) <->
       ∃ k, In k docKeys ∧ valid_record st k j) ∧
    (forall i j, i ≠ "__proto__" ->
       loadedNotes loaded !! i = Some j <->
       In (notes_key i) noteKeys ∧ valid_record st (notes_key i) j) ∧
    (forall i j, i ≠ "__proto__" ->
       loadedLinks loaded !! i = Some j <->
       In (links_key i) linkKeys ∧ valid_record st (links_key i) j).
Proof.
  intros Hd Hn Hl Hnotes Hlinks. unfold loadData_values. rewrite Hd, Hn, Hl.
  eexists. split; [reflexivity |]. cbn [loadedDocs loadedNotes loadedLinks keys_of].
  split; [| split; [| split]].
  - exists (load_value parse st). split; [apply load_value_record |].
    apply load_values_omap.
  - intros j. rewrite load_values_omap, <- list_elem_of_In, list_elem_of_omap.
    split; intros (k & Hk & Hj); exists k.
    + split; [now apply list_elem_of_In | now apply load_value_record].
    + split; [now apply list_elem_of_In | now apply load_value_record].
  - intros i j _. apply (load_by_id_record "notes:" st noteKeys i j Hnotes).
  - intros i j _. apply (load_by_id_record "links:" st linkKeys i j Hlinks).
Qed.

(** The damaged store loads to its four good records. *)
Example loadData_damaged_store :
  let h' := loadData Sample.damaged_store initial in
  documents h' = [Sample.quantum; Sample.baking] ∧
  notes h' = {[ "1730000000000.25" :=
                 [mkNote 1730000000123 "read again" "2024-10-27T03:33:20.000Z"] ]} ∧
  links h' = {[ "1730000000000.25" := ["1730000000001.5"] ]}.
Proof. cbn zeta. repeat split; vm_compute; reflexivity. Qed.

End Load.

Section Analyze.
Import JsString Json ResearchHub Contract.
Context {host : Host}.

Lemma no_analysis_None (o : FetchOutcome) :
  no_analysis o -> analysis_of_response o = None.
Proof.
  destruct o as [| status body]; [reflexivity |]. cbn.
  intros [Hbody | (data & Hdata & [Htext | (t & Htext & Hclean)])].
  - now rewrite Hbody.
  - rewrite Hdata. cbn. now rewrite Htext.
  - rewrite Hdata. cbn. rewrite Htext. cbn. exact Hclean.
Qed.

(** C3, as the code has it. When the request is rejected, or the body of
    the response is not JSON, or has no text to offer, or its text is not
    JSON once fences are stripped and it is trimmed, [analyzeDocument]
    returns the fallback object, exactly; it returns a value in every case.
    The HTTP status of a response plays no part. *)
Theorem analyzeDocument_fallback (fetch : Request -> FetchOutcome)
  (text title : string) :
  no_analysis (fetch (mkRequest title (take_units 5000 text))) ->
  analyzeDocument fetch text title =
  JObj [("summary", JStr "Analysis unavailable");
        ("keywords", JArr []);
        ("entities", JArr []);
        ("topic", JStr "General")].
Proof.
  intros Hfail. unfold analyzeDocument.
  now rewrite (no_analysis_None _ Hfail).
Qed.

End Analyze.

Section Status.
Import JsString Json ResearchHub Contract.

(** C3, as stated, fails on an HTTP error whose body carries an analysis:
    the status is never read, and the analysis is returned, whatever the
    host. *)
Lemma analyzeDocument_ignores_status :
  ¬ (∃ host : Host,
       forall (fetch : Request -> FetchOutcome) (text title : string),
         service_fails (fetch (mkRequest title (take_units 5000 text))) ->
         analyzeDocument fetch text title = Analysis.to_json fallback).
Proof.
  intros [host Hclaim].
  specialize (Hclaim (Sample.answers (Response 500 Sample.fenced_answer))
                Sample.notes_txt_content "notes.txt").
  assert (Hfails : service_fails (Response 500 Sample.fenced_answer)).
  { left. unfold http_error. lia. }
  specialize (Hclaim Hfails). vm_compute in Hclaim. discriminate Hclaim.
Qed.

End Status.

Section Answers.
Import JsString Json ResearchHub Contract.
Context {host : Host}.

Example analyzeDocument_fenced :
  analyzeDocument (Sample.answers (Response 200 Sample.fenced_answer))
    Sample.notes_txt_content "notes.txt"
  = Analysis.to_json Sample.graph_theory ∧
  Analysis_of_json (Analysis.to_json Sample.graph_theory) = Some Sample.graph_theory.
Proof. split; vm_compute; reflexivity. Qed.

Example analyzeDocument_error_body :
  analyzeDocument (Sample.answers (Response 529 Sample.error_answer))
    Sample.notes_txt_content "notes.txt"
  = Analysis.to_json fallback.
Proof. vm_compute. reflexivity. Qed.

End Answers.

(** ** The theorems at work on the sample data *)

Section Witnesses.
Import JsString Json ResearchHub Contract.
Local Existing Instance Sample.host.

Lemma linkDocuments_duplicate_no_effect_witness :
  In (id Sample.baking) (docLinks Sample.linked_library (id Sample.quantum)) ∧
  storage_calls (linkDocuments (id Sample.quantum) (id Sample.baking) Sample.linked_library)
    = storage_calls Sample.linked_library ∧
  linkDocuments (id Sample.quantum) (id Sample.baking) Sample.linked_library
    = Sample.linked_library.
Proof.
  assert (Hin : In (id Sample.baking) (docLinks Sample.linked_library (id Sample.quantum))).
  { vm_compute. left. reflexivity. }
  split; [exact Hin |].
  destruct (linkDocuments_duplicate_no_effect _ _ _ Hin) as (Hcalls & _ & _ & Hsame).
  split; [exact Hcalls | exact Hsame].
Defined.

Lemma linkDocuments_twice_witness :
  link_ready (id Sample.quantum) (id Sample.baking) Sample.library ∧
  count_occ string_dec
    (docLinks (linkDocuments (id Sample.quantum) (id Sample.baking) Sample.linked_library)
       (id Sample.quantum))
    (id Sample.baking) = 1%nat.
Proof.
  assert (Hready : link_ready (id Sample.quantum) (id Sample.baking) Sample.library).
  { left. vm_compute. intros []. }
  split; [exact Hready |].
  exact (proj1 (linkDocuments_twice _ _ _ Hready)).
Defined.


Lemma addTag_existing_witness :
  List.find (fun x => String.eqb (id x) (id Sample.quantum)) (documents Sample.library)
    = Some Sample.quantum ∧
  documents (addTag (id Sample.quantum) "Physics" Sample.library)
    = documents Sample.library.
Proof.
  split; [reflexivity |].
  refine (proj1 (addTag_existing (id Sample.quantum) "Physics" Sample.library
                   Sample.quantum eq_refl _)).
  intros x [<- | [<- | []]] Hid.
  - cbn. tauto.
  - cbn in Hid. discriminate Hid.
Defined.

Lemma addNotes_ids_distinct_witness :
  NoDup (map note_id
           (docNotes
              (addNotes (id Sample.quantum)
                 [(1730000000123, Sample.iso, "first"); (1730000000124, Sample.iso, "second")]
                 initial)
              (id Sample.quantum))).
Proof.
  refine (proj2 (addNotes_ids_distinct (id Sample.quantum)
                   [(1730000000123, Sample.iso, "first"); (1730000000124, Sample.iso, "second")]
                   initial _)).
  vm_compute.
  apply NoDup_cons_2; [| apply NoDup_cons_2; [| apply NoDup_nil_2]].
  - intros Hin. apply list_elem_of_In in Hin. destruct Hin as [Heq | []]. discriminate Heq.
  - intros Hin. apply list_elem_of_In in Hin. destruct Hin.
Defined.

Lemma upload_title_and_tags_witness :
  ∃ obj,
    newDoc_object Sample.notes_txt Sample.notes_txt_content
      (analyzeDocument (Sample.answers (Response 200 Sample.fenced_answer))
         Sample.notes_txt_content "notes.txt")
      "1730000000002.75" Sample.iso = Some obj ∧
    obj !! "title" = Some (Plain (JStr "notes")) ∧
    obj !! "tags" = Some (ArrayLiteral [Some (JStr "Mathematics")]).
Proof.
  destruct (upload_title_and_tags (Sample.answers (Response 200 Sample.fenced_answer))
              Sample.notes_txt Sample.notes_txt_content "1730000000002.75" Sample.iso)
    as (obj & topic & stripped & Hobj & Htopic & Htitle & _ & Hunique & Htags).
  - vm_compute. discriminate.
  - vm_compute. intuition discriminate.
  - vm_compute. intuition discriminate.
  - exists obj. split; [exact Hobj |].
    assert (Hname : without_extension (name Sample.notes_txt) "notes").
    { left. exists "txt". split; [reflexivity |]. split; [discriminate |].
      intros c [<- | [<- | [<- | []]]]; split; discriminate. }
    rewrite <- (Hunique "notes" Hname) in Htitle.
    assert (Hmaths : topic = Some (JStr "Mathematics")).
    { vm_compute in Htopic. now injection Htopic. }
    rewrite Hmaths in Htags. split; [exact Htitle | exact Htags].
Defined.

Lemma loadData_skips_corrupted_witness :
  ∃ loaded,
    loadData_values Trial.foreign_store = Some loaded ∧
    loadedDocs loaded =
      [Document_to_json Sample.quantum; JObj [("id", JNum "7")]; JNull] ∧
    loadedNotes loaded !! "8" = Some (JObj [("text", JStr "a note")]) ∧
    loadedNotes loaded !! "7" = None.
Proof.
  destruct (loadData_skips_corrupted Trial.foreign_store
              ["doc:1730000000000.25"; "doc:7"; "doc:8"; "doc:9"]
              ["notes:7"; "notes:8"] ["links:7"] eq_refl eq_refl eq_refl)
    as (loaded & Hloaded & _ & _ & Hnotes & _).
  - repeat constructor.
  - repeat constructor.
  - exists loaded. split; [exact Hloaded |].
    split; [injection Hloaded as <-; vm_compute; reflexivity |]. split.
    + apply Hnotes; [discriminate |]. split; [right; left; reflexivity |].
      exists (Sample.dq "{'text':'a note'}").
      split; [reflexivity |]. split; [discriminate | vm_compute; reflexivity].
    + destruct (loadedNotes loaded !! "7") as [j |] eqn:Hj; [| reflexivity].
      apply Hnotes in Hj; [| discriminate].
      destruct Hj as [_ (v & Hget & _ & Hparse)].
      injection Hget as <-. vm_compute in Hparse. discriminate Hparse.
Defined.

Lemma analyzeDocument_fallback_witness :
  analyzeDocument (Sample.answers (Response 529 "<html>Overloaded</html>"))
    Sample.notes_txt_content "notes.txt"
  = Analysis.to_json fallback.
Proof.
  refine (analyzeDocument_fallback _ _ _ _).
  left. vm_compute. reflexivity.
Defined.

End Witnesses.

(** ** Further properties of the component *)

Section Deletion.
Import JsString Json ResearchHub Contract.

Lemma deleteDocument_documents (docId : DocId) (h : Hub) :
  documents (deleteDocument docId h) =
  List.filter (fun d => negb (String.eqb (id d) docId)) (documents h).
Proof. unfold deleteDocument. now destruct (selected_is _ _). Qed.

Lemma deleteDocument_persisted (docId : DocId) (h : Hub) :
  persisted (deleteDocument docId h) =
  delete (links_key docId) (delete (notes_key docId) (delete (doc_key docId) (persisted h))).
Proof. unfold deleteDocument. now destruct (selected_is _ _). Qed.

Lemma key_namespaces (i : string) :
  doc_key i ≠ notes_key i ∧ doc_key i ≠ links_key i ∧ notes_key i ≠ links_key i.
Proof. unfold doc_key, notes_key, links_key. repeat split; intros Heq; discriminate Heq. Qed.

(** X1. [deleteDocument(docId)] removes from the list every document with
    that identifier and no other, and removes the three records [doc:],
    [notes:] and [links:] of that identifier from the store and no other
    key.  The notes and links of the document stay in memory. *)
Theorem deleteDocument_cascade (docId : DocId) (h : Hub) :
  let h' := deleteDocument docId h in
  (forall d, In d (documents h') <-> In d (documents h) ∧ id d ≠ docId) ∧
  persisted h' !! doc_key docId = None ∧
  persisted h' !! notes_key docId = None ∧
  persisted h' !! links_key docId = None ∧
  (forall k, k ≠ doc_key docId -> k ≠ notes_key docId -> k ≠ links_key docId ->
             persisted h' !! k = persisted h !! k) ∧
  notes h' = notes h ∧ links h' = links h.
Proof.
  cbn zeta. rewrite deleteDocument_documents, deleteDocument_persisted.
  destruct (key_namespaces docId) as (Hdn & Hdl & Hnl).
  split; [| split; [| split; [| split; [| split]]]].
  - intros d. rewrite filter_In, negb_true_iff, String.eqb_neq. tauto.
  - rewrite lookup_delete_ne, lookup_delete_ne by congruence. apply lookup_delete_eq.
  - rewrite lookup_delete_ne by congruence. apply lookup_delete_eq.
  - apply lookup_delete_eq.
  - intros k Hd Hn Hl. now rewrite !lookup_delete_ne by congruence.
  - unfold deleteDocument. now destruct (selected_is _ _).
Qed.

Lemma filter_all {A : Type} (f : A -> bool) (l : list A) :
  (forall x, In x l -> f x = true) -> List.filter f l = l.
Proof.
  induction l as [| x l IH]; intros Hall; [reflexivity |]. cbn.
  rewrite (Hall x) by now left. f_equal. apply IH. intros y Hy. apply Hall. now right.
Qed.

(** X2. Deleting a document right after its upload undoes the upload: when
    no document of the list had the new identifier, the list is the one
    before the upload and the store holds no record under [doc:<id>]. *)
Theorem deleteDocument_after_upload (file : File) (result : string)
  (analysis : Analysis.t) (new_id : DocId) (now : string) (h : Hub) :
  (forall d, In d (documents h) -> id d ≠ new_id) ->
  let h' := deleteDocument new_id (reader_onload file result analysis new_id now h) in
  documents h' = documents h ∧
  persisted h' !! doc_key new_id = None ∧
  (forall k, k ≠ doc_key new_id -> k ≠ notes_key new_id -> k ≠ links_key new_id ->
             persisted h' !! k = persisted h !! k).
Proof.
  intros Hfresh. cbn zeta.
  rewrite deleteDocument_documents, deleteDocument_persisted.
  destruct (key_namespaces new_id) as (Hdn & Hdl & Hnl).
  split; [| split].
  - unfold reader_onload. cbn [documents setDocuments].
    rewrite List.filter_app. cbn. rewrite String.eqb_refl. cbn. rewrite app_nil_r.
    apply filter_all. intros d Hd. apply negb_true_iff, String.eqb_neq. now apply Hfresh.
  - rewrite lookup_delete_ne, lookup_delete_ne by congruence. apply lookup_delete_eq.
  - intros k Hd Hn Hl. rewrite !lookup_delete_ne by congruence.
    unfold reader_onload. cbn. now rewrite lookup_insert_ne by congruence.
Qed.

End Deletion.

Section Queries.
Import JsString Json ResearchHub Contract Derived.
Context {host : Host}.

Lemma includes_empty (s : string) : includes s EmptyString = true.
Proof. now destruct s. Qed.

Lemma matchesSearch_empty (d : Document) : matchesSearch EmptyString d = true.
Proof. unfold matchesSearch. cbn. now rewrite includes_empty. Qed.

(** X3. With an empty search term and no tag filter, the derived list is
    the whole document list. *)
Theorem filteredDocs_no_criteria (h : Hub) :
  searchTerm h = EmptyString -> filterTag h = EmptyString ->
  filteredDocs h = documents h.
Proof.
  intros Hterm Htag. unfold filteredDocs. rewrite Hterm, Htag.
  apply filter_all. intros d _. now rewrite matchesSearch_empty.
Qed.

Lemma matchesSearch_same_case (t1 t2 : string) (d : Document) :
  toLowerCase t1 = toLowerCase t2 -> matchesSearch t1 d = matchesSearch t2 d.
Proof.
  intros Hsame. unfold matchesSearch. now rewrite Hsame.
Qed.

(** X4. The case of the letters of the search term does not matter: two
    terms that [toLowerCase] maps to the same string derive the same
    list. *)
Theorem filteredDocs_term_case (t1 t2 : string) (h : Hub) :
  toLowerCase t1 = toLowerCase t2 ->
  filteredDocs (setSearchTerm t1 h) = filteredDocs (setSearchTerm t2 h).
Proof.
  intros Hsame. unfold filteredDocs. cbn.
  apply filter_ext. intros d. now rewrite (matchesSearch_same_case t1 t2 d Hsame).
Qed.

Lemma set_spread_from (items seen : list string) :
  NoDup seen ->
  let result :=
    fold_left
      (fun seen x => if array_includes seen x then seen else seen ++ [x])
      items seen in
  NoDup result ∧ (forall x, In x result <-> In x seen ∨ In x items).
Proof.
  revert seen. induction items as [| y items IH]; intros seen Hseen; cbn.
  - split; [exact Hseen | tauto].
  - destruct (array_includes seen y) eqn:Hy.
    + destruct (IH seen Hseen) as [Hnd Hin]. split; [exact Hnd |].
      intros x. rewrite Hin. apply array_includes_In in Hy.
      split; [tauto | intros [H | [<- | H]]; auto].
    + apply array_includes_not_In in Hy.
      assert (Hseen' : NoDup (seen ++ [y])).
      { apply NoDup_app. split; [exact Hseen |]. split; [| apply NoDup_singleton].
        intros x Hx Hxy. apply list_elem_of_In in Hx.
        apply list_elem_of_singleton in Hxy. subst x. now apply Hy. }
      destruct (IH (seen ++ [y]) Hseen') as [Hnd Hin]. split; [exact Hnd |].
      intros x. rewrite Hin, in_app_iff. cbn. tauto.
Qed.

(** X5. [allTags] lists every tag carried by some document, each once. *)
Theorem allTags_tags (h : Hub) :
  NoDup (allTags h) ∧
  (forall t, In t (allTags h) <-> ∃ d, In d (documents h) ∧ In t (tags d)).
Proof.
  unfold allTags, set_spread.
  destruct (set_spread_from (flat_map tags (documents h)) [] (NoDup_nil_2 (A := string)))
    as [Hnd Hin].
  split; [exact Hnd |]. intros t. cbn in Hin. rewrite Hin, in_flat_map. cbn. tauto.
Qed.

(** X6. Every option of the tag filter selects something: with an empty
    search term, filtering by a tag of [allTags] derives a list that holds
    a document carrying that tag. *)
Theorem allTags_select (t : string) (h : Hub) :
  In t (allTags h) ->
  ∃ d, In d (filteredDocs (setFilterTag t (setSearchTerm EmptyString h))) ∧
       In t (tags d).
Proof.
  intros Ht.
  destruct (set_spread_from (flat_map tags (documents h)) [] (NoDup_nil_2 (A := string)))
    as [_ Hin].
  apply Hin in Ht. destruct Ht as [[] | Ht].
  apply in_flat_map in Ht. destruct Ht as (d & Hd & Htag).
  exists d. split; [| exact Htag].
  unfold filteredDocs. cbn. apply filter_In. split; [exact Hd |].
  rewrite matchesSearch_empty. unfold matchesTag.
  apply array_includes_In in Htag. rewrite Htag. apply orb_true_r.
Qed.

End Queries.

Section Mutations.
Import JsString Json ResearchHub Contract.

(** X7. [linkDocuments(A, B)] makes [B] a target of [A], keeps the targets
    [A] had, in their order, and keeps the link list of every document
    free of duplicates when it was; the link lists of the other documents
    (that of [B] among them: a link has a direction), the documents and
    the notes are left as they are. *)
Theorem linkDocuments_links (A : DocId) (B : string) (h : Hub) :
  let h' := linkDocuments A B h in
  In B (docLinks h' A) ∧
  (∃ added, docLinks h' A = docLinks h A ++ added) ∧
  (forall A', A' ≠ A -> docLinks h' A' = docLinks h A') ∧
  (forall A', NoDup (docLinks h A') -> NoDup (docLinks h' A')) ∧
  documents h' = documents h ∧ notes h' = notes h.
Proof.
  cbn zeta. destruct (in_dec string_dec B (docLinks h A)) as [Hin | Hout].
  - rewrite (linkDocuments_present A B h Hin).
    split; [exact Hin |]. split; [exists []; now rewrite app_nil_r |]. auto.
  - rewrite (linkDocuments_absent A B h Hout).
    set (h1 := storage_set _ _ _).
    assert (Hsame : docLinks h1 A = docLinks h A ++ [B]).
    { unfold docLinks, h1; cbn. now rewrite lookup_insert_eq. }
    assert (Hother : forall A', A' ≠ A -> docLinks h1 A' = docLinks h A').
    { intros A' Hne. unfold docLinks, h1; cbn. now rewrite lookup_insert_ne by congruence. }
    split; [rewrite Hsame; apply in_or_app; right; now left |].
    split; [exists [B]; exact Hsame |].
    split; [exact Hother |]. split; [| split; reflexivity].
    intros A' Hnd. destruct (string_dec A' A) as [-> | Hne].
    + rewrite Hsame. apply NoDup_app. split; [exact Hnd |].
      split; [| apply NoDup_singleton].
      intros x Hx Hxb. apply list_elem_of_In in Hx.
      apply list_elem_of_singleton in Hxb. subst x. now apply Hout.
    + now rewrite (Hother A' Hne).
Qed.

Lemma addTag_lookup (docId : DocId) (tag : string) (h : Hub) (i : nat) :
  documents (addTag docId tag h) !! i = tagged docId tag <$> documents h !! i.
Proof. rewrite addTag_documents. apply list_lookup_fmap. Qed.

(** X8. [addTag] appends: a document with the identifier that does not
    carry the tag gets it as its last tag, after the tags it had; a
    document whose tags are free of duplicates keeps them so; nothing but
    the tags of a document changes, and a document with another identifier
    does not change at all. *)
Theorem addTag_appends (docId : DocId) (tag : string) (h : Hub) (i : nat)
  (d : Document) :
  documents h !! i = Some d ->
  ∃ d', documents (addTag docId tag h) !! i = Some d' ∧
        (∃ added, d' = with_tags (tags d ++ added) d) ∧
        (id d = docId -> ¬ In tag (tags d) -> tags d' = tags d ++ [tag]) ∧
        (id d = docId -> In tag (tags d')) ∧
        (id d ≠ docId -> d' = d) ∧
        (NoDup (tags d) -> NoDup (tags d')).
Proof.
  intros Hd. rewrite addTag_lookup, Hd. cbn. eexists. split; [reflexivity |].
  unfold tagged.
  destruct (String.eqb_spec (id d) docId) as [Heq | Hne]; cbn.
  - destruct (array_includes (tags d) tag) eqn:Hinc; cbn.
    + apply array_includes_In in Hinc.
      split; [exists []; rewrite app_nil_r; now destruct d |].
      split; [tauto |]. split; [auto |]. split; [congruence | auto].
    + apply array_includes_not_In in Hinc.
      split; [now exists [tag] |]. split; [reflexivity |].
      split; [intros _; apply in_or_app; right; now left |].
      split; [congruence |].
      intros Hnd. apply NoDup_app. split; [exact Hnd |].
      split; [| apply NoDup_singleton].
      intros x Hx Hxt. apply list_elem_of_In in Hx.
      apply list_elem_of_singleton in Hxt. subst x. now apply Hinc.
  - split; [exists []; rewrite app_nil_r; now destruct d |].
    split; [congruence |]. split; [congruence |]. auto.
Qed.

(** X9. After [addTag] on a document of the list, the record persisted at
    [doc:<docId>] is the serialisation of the first document of the list
    with that identifier, as it now is in memory: whatever the store held
    for it before, memory and store agree on it. *)
Theorem addTag_store_agrees (docId : DocId) (tag : string) (h : Hub) (d : Document) :
  List.find (fun x => String.eqb (id x) docId) (documents h) = Some d ->
  let h' := addTag docId tag h in
  List.find (fun x => String.eqb (id x) docId) (documents h') = Some (tagged docId tag d) ∧
  persisted h' !! doc_key docId = Some (stringify (Document_to_json (tagged docId tag d))) ∧
  (forall k, k ≠ doc_key docId -> persisted h' !! k = persisted h !! k).
Proof.
  intros Hfind. cbn zeta.
  assert (Hfound : List.find (fun x => String.eqb (id x) docId)
                     (documents (addTag docId tag h)) = Some (tagged docId tag d)).
  { now rewrite addTag_found, Hfind. }
  split; [exact Hfound |].
  rewrite addTag_persisted, Hfound.
  split; [apply lookup_insert_eq |].
  intros k Hk. now rewrite lookup_insert_ne by congruence.
Qed.

(** X10. [addTag] with an identifier that no document of the list has
    changes no document; it still issues one [set] for [doc:<docId>], and
    the value it passes is [undefined]. *)
Theorem addTag_unknown_document (docId : DocId) (tag : string) (h : Hub) :
  (forall d, In d (documents h) -> id d ≠ docId) ->
  let h' := addTag docId tag h in
  documents h' = documents h ∧
  storage_calls h' = storage_calls h ++ [StorageSet (doc_key docId) None].
Proof.
  intros Hnone. cbn zeta.
  assert (Hdocs : documents (addTag docId tag h) = documents h).
  { rewrite addTag_documents. rewrite <- (map_id (documents h)) at 2.
    apply map_ext_in. intros x Hx. apply tagged_present.
    intros Hid. destruct (Hnone x Hx Hid). }
  assert (Hfind : List.find (fun x => String.eqb (id x) docId) (documents h) = None).
  { destruct (List.find _ _) as [x |] eqn:Hx; [| reflexivity].
    apply find_some in Hx. destruct Hx as [Hin Hid].
    apply String.eqb_eq in Hid. destruct (Hnone x Hin Hid). }
  split; [exact Hdocs |].
  unfold addTag. cbn. fold (addTag docId tag h).
  change (map (tagged docId tag) (documents h)) with (documents (addTag docId tag h)).
  now rewrite Hdocs, Hfind.
Qed.

(** X11. [regenerateAnalysis] touches the documents that have the
    identifier of [doc], and the record [doc:<id>], only: the list keeps
    its length, a document with another identifier stays as it is and where
    it is, and the notes, the links and every other key of the store are
    left as they are. *)
Theorem regenerateAnalysis_frame (analysis : Analysis.t) (doc : Document)
  (h : Hub) :
  let h' := regenerateAnalysis analysis doc h in
  length (documents h') = length (documents h) ∧
  (forall i d, documents h !! i = Some d -> id d ≠ id doc ->
     documents h' !! i = Some d) ∧
  notes h' = notes h ∧ links h' = links h ∧
  (forall k, k ≠ doc_key (id doc) -> persisted h' !! k = persisted h !! k).
Proof.
  cbn zeta. rewrite regenerateAnalysis_documents, regenerateAnalysis_persisted.
  split; [apply length_map |]. split; [| split; [| split]].
  - intros i d Hd Hne. rewrite list_lookup_fmap, Hd. cbn. unfold regenerated.
    now destruct (String.eqb_spec (id d) (id doc)).
  - unfold regenerateAnalysis. cbn. now destruct (selected_is _ _).
  - unfold regenerateAnalysis. cbn. now destruct (selected_is _ _).
  - intros k Hk. apply lookup_insert_ne. congruence.
Qed.

Lemma regenerated_twice (analysis : Analysis.t) (doc d : Document) :
  regenerated doc analysis (regenerated doc analysis d) = regenerated doc analysis d.
Proof.
  unfold regenerated.
  destruct (String.eqb (id d) (id doc)) eqn:Heq; cbn; now rewrite Heq.
Qed.

Lemma regenerateAnalysis_selected (analysis : Analysis.t) (doc : Document) (h : Hub) :
  selectedDoc (regenerateAnalysis analysis doc h) =
  if selected_is (id doc) h
  then Some (spread_analysis doc analysis) else selectedDoc h.
Proof.
  unfold regenerateAnalysis.
  change (selected_is (id doc) (storage_set _ _ _)) with (selected_is (id doc) h).
  now destruct (selected_is (id doc) h).
Qed.

(** X12. Regenerating twice with the same analysis ends where regenerating
    once does: the same documents, the same selected document and the same
    records in the store. *)
Theorem regenerateAnalysis_twice (analysis : Analysis.t) (doc : Document) (h : Hub) :
  let h1 := regenerateAnalysis analysis doc h in
  let h2 := regenerateAnalysis analysis doc h1 in
  documents h2 = documents h1 ∧ selectedDoc h2 = selectedDoc h1 ∧
  persisted h2 = persisted h1.
Proof.
  cbn zeta. split; [| split].
  - rewrite !regenerateAnalysis_documents, map_map. apply map_ext.
    intros d. apply regenerated_twice.
  - rewrite (regenerateAnalysis_selected analysis doc (regenerateAnalysis analysis doc h)).
    unfold selected_is at 1. rewrite !regenerateAnalysis_selected.
    unfold selected_is. destruct (selectedDoc h) as [s |]; [| reflexivity].
    destruct (String.eqb (id s) (id doc)) eqn:Hs; cbn.
    + now rewrite String.eqb_refl.
    + now rewrite Hs.
  - rewrite !regenerateAnalysis_persisted. apply insert_insert_eq.
Qed.


Lemma addNote_other_notes (now : Z) (stamp : string) (docId other : DocId)
  (note : string) (h : Hub) :
  other ≠ docId -> docNotes (addNote now stamp docId note h) other = docNotes h other.
Proof.
  intros Hne. unfold docNotes, addNote. cbn. now rewrite lookup_insert_ne by congruence.
Qed.

(** X14. [addNote] appends one note, with the given text, after the notes
    the document had (it does not look at their texts, nor at whether a
    document with that identifier exists), persists the whole list at
    [notes:<docId>], and leaves the notes of the other documents, the
    documents and the links as they are. *)
Theorem addNote_appends (now : Z) (stamp : string) (docId : DocId) (note : string)
  (h : Hub) :
  let h' := addNote now stamp docId note h in
  docNotes h' docId = docNotes h docId ++ [mkNote now note stamp] ∧
  (forall other, other ≠ docId -> docNotes h' other = docNotes h other) ∧
  persisted h' !! notes_key docId = Some (stringify (notes_to_json (docNotes h' docId))) ∧
  (forall k, k ≠ notes_key docId -> persisted h' !! k = persisted h !! k) ∧
  documents h' = documents h ∧ links h' = links h.
Proof.
  cbn zeta. rewrite addNote_docNotes.
  split; [reflexivity |].
  split; [intros other Hne; now apply addNote_other_notes |].
  split; [unfold addNote; cbn; apply lookup_insert_eq |].
  split; [| split; reflexivity].
  intros k Hk. unfold addNote. cbn. now rewrite lookup_insert_ne by congruence.
Qed.

End Mutations.

Section Loading.
Import JsString Json ResearchHub Contract.

(** X15. [loadData] is idempotent for a store that answers the same way:
    loading twice ends in the state of loading once.  It never writes to
    the store and leaves the selected document alone. *)
Theorem loadData_idempotent (st : StorageView) (h : Hub) :
  loadData st (loadData st h) = loadData st h ∧
  persisted (loadData st h) = persisted h ∧
  storage_calls (loadData st h) = storage_calls h ∧
  selectedDoc (loadData st h) = selectedDoc h.
Proof.
  unfold loadData.
  destruct (storage_list st "doc:"), (storage_list st "notes:"),
    (storage_list st "links:"); repeat split.
Qed.

(** X16. When one of the three listings throws, [loadData] changes
    nothing, even if the listings before it succeeded: the collections in
    memory stay the ones they were. *)
Theorem loadData_listing_throws (st : StorageView) (h : Hub) :
  storage_list st "doc:" = ListThrows ∨
  storage_list st "notes:" = ListThrows ∨
  storage_list st "links:" = ListThrows ->
  loadData st h = h.
Proof.
  unfold loadData. intros [H | [H | H]]; rewrite H;
    destruct (storage_list st "doc:"); try reflexivity;
    destruct (storage_list st "notes:"); reflexivity.
Qed.

(** X17. [loadData] invents nothing: when the listings succeed, every
    document, note list and link list it loads is the parsed value of a
    key the store listed, whose read returned a value that is not empty. *)
Theorem loadData_sound (st : StorageView) (h : Hub) :
  storage_list st "doc:" ≠ ListThrows ->
  storage_list st "notes:" ≠ ListThrows ->
  storage_list st "links:" ≠ ListThrows ->
  let h' := loadData st h in
  (forall d, In d (documents h') ->
     ∃ k v, In k (keys_of (storage_list st "doc:")) ∧
            storage_get st k = GetValue v ∧ v ≠ EmptyString ∧
            parse_document v = Some d) ∧
  (forall i ns, notes h' !! i = Some ns ->
     ∃ k v, In k (keys_of (storage_list st "notes:")) ∧
            replace_first "notes:" EmptyString k = i ∧
            storage_get st k = GetValue v ∧ v ≠ EmptyString ∧
            parse_notes v = Some ns) ∧
  (forall i targets, links h' !! i = Some targets ->
     ∃ k v, In k (keys_of (storage_list st "links:")) ∧
            replace_first "links:" EmptyString k = i ∧
            storage_get st k = GetValue v ∧ v ≠ EmptyString ∧
            parse_links v = Some targets).
Proof.
  intros Hd Hn Hl. cbn zeta. rewrite (loadData_loaded st h Hd Hn Hl). cbn.
  split; [| split].
  - intros d Hin. rewrite load_docs_omap in Hin.
    apply list_elem_of_In, list_elem_of_omap in Hin.
    destruct Hin as (k & Hk & Hval). apply list_elem_of_In in Hk.
    apply load_value_Some in Hval. destruct Hval as (v & Hget & Hne & Hparse).
    now exists k, v.
  - intros i ns Hi. apply load_by_id_Some in Hi.
    destruct Hi as (k & Hk & Hid & Hval).
    apply load_value_Some in Hval. destruct Hval as (v & Hget & Hne & Hparse).
    now exists k, v.
  - intros i targets Hi. apply load_by_id_Some in Hi.
    destruct Hi as (k & Hk & Hid & Hval).
    apply load_value_Some in Hval. destruct Hval as (v & Hget & Hne & Hparse).
    now exists k, v.
Qed.

End Loading.

Section Fences.
Import JsString Json ResearchHub Contract.

Lemma strip_fences_cons (c : ascii) (s : string) :
  strip_fences_from 0 (String c s) =
  if starts_with "```json" (String c s) then strip_fences_from 6 s
  else if starts_with "```" (String c s) then strip_fences_from 2 s
  else String c (strip_fences_from 0 s).
Proof. reflexivity. Qed.

Lemma starts_with_cons (a : ascii) (p : string) (c : ascii) (s : string) :
  starts_with (String a p) (String c s) = Ascii.eqb a c && starts_with p s.
Proof.
  unfold starts_with. cbn [strip_prefix]. now destruct (Ascii.eqb a c).
Qed.

Lemma starts_with_back_quote (p : string) (s : string) :
  starts_with "`" s = false -> starts_with (String "`" p) s = false.
Proof.
  destruct s as [| c s]; [reflexivity |].
  rewrite !starts_with_cons. now destruct (Ascii.eqb "`" c).
Qed.

(** Where no marker starts, the first character is kept. *)
Lemma strip_fences_head (s : string) :
  starts_with "`" s = false -> starts_with "`" (strip_fences_from 0 s) = false.
Proof.
  destruct s as [| c s]; [reflexivity |]. intros Hc.
  rewrite strip_fences_cons.
  rewrite (starts_with_back_quote "``json" _ Hc), (starts_with_back_quote "``" _ Hc).
  rewrite starts_with_cons in *. now destruct (Ascii.eqb "`" c).
Qed.

Lemma strip_fences_no_fence_bounded (n : nat) (s : string) :
  (String.length s <= n)%nat -> includes (strip_fences_from 0 s) "```" = false.
Proof.
  revert s. induction n as [| n IH]; intros s Hlen.
  - destruct s; [reflexivity | cbn in Hlen; lia].
  - destruct s as [| c s]; [reflexivity |].
    rewrite strip_fences_cons.
    destruct (starts_with "```json" (String c s)) eqn:H7.
    { apply starts_with_true in H7. destruct H7 as [r Hr].
      injection Hr as -> ->.
      change (strip_fences_from 6 ("``json" +:+ r)) with (strip_fences_from 0 r).
      apply IH. cbn in Hlen. rewrite length_append in Hlen. cbn in Hlen. lia. }
    destruct (starts_with "```" (String c s)) eqn:H3.
    { apply starts_with_true in H3. destruct H3 as [r Hr].
      injection Hr as -> ->.
      change (strip_fences_from 2 ("``" +:+ r)) with (strip_fences_from 0 r).
      apply IH. cbn in Hlen. rewrite length_append in Hlen. cbn in Hlen. lia. }
    assert (Hrest : includes (strip_fences_from 0 s) "```" = false).
    { apply IH. cbn in Hlen. lia. }
    change (includes (String c (strip_fences_from 0 s)) "```")
      with (starts_with "```" (String c (strip_fences_from 0 s))
            || includes (strip_fences_from 0 s) "```").
    rewrite Hrest, orb_false_r, starts_with_cons.
    rewrite starts_with_cons in H3.
    destruct (Ascii.eqb "`" c); [cbn in * | reflexivity].
    (* [s] does not start with two back quotes *)
    destruct s as [| c1 s1]; [reflexivity |].
    rewrite starts_with_cons in H3.
    destruct (Ascii.eqb_spec "`"%char c1) as [<- | Hc1]; cbn in H3.
    2: { apply starts_with_back_quote, strip_fences_head.
         rewrite starts_with_cons. apply Ascii.eqb_neq in Hc1. now rewrite Hc1. }
    rewrite strip_fences_cons.
    rewrite (starts_with_cons "`" "``json"), (starts_with_back_quote "`json" _ H3).
    rewrite (starts_with_cons "`" "``"), (starts_with_back_quote "`" _ H3).
    rewrite ?Ascii.eqb_refl. cbn [andb].
    now apply strip_fences_head.
Qed.

(** X18. What the cleaning of the answer returns holds no fence marker:
    three back quotes in a row never occur in it. *)
Theorem strip_fences_no_fence (s : string) :
  includes (strip_fences s) "```" = false.
Proof. apply (strip_fences_no_fence_bounded (String.length s)). lia. Qed.

End Fences.

Section Numbers.
Import JsString Json Stages.

Lemma parse_number_stages (s : string) : parse_number s = number_stages s.
Proof. reflexivity. Qed.

Lemma take_digits_app (x rest : string) :
  ends_number rest = true ->
  take_digits (x +:+ rest) = ((take_digits x).1, (take_digits x).2 +:+ rest).
Proof.
  intros Hrest. induction x as [| c x IH].
  - destruct rest as [| c rest]; [reflexivity |].
    cbn in Hrest. apply negb_true_iff in Hrest.
    apply orb_false_iff in Hrest. destruct Hrest as [Hrest _].
    apply orb_false_iff in Hrest. destruct Hrest as [Hrest _].
    apply orb_false_iff in Hrest. destruct Hrest as [Hdigit _].
    change (take_digits (EmptyString +:+ String c rest)) with
      (if is_digit c
       then let (ds, r) := take_digits rest in (String c ds, r)
       else (EmptyString, String c rest)).
    now rewrite Hdigit.
  - change (take_digits (String c x +:+ rest)) with
      (if is_digit c
       then let (ds, r) := take_digits (x +:+ rest) in (String c ds, r)
       else (EmptyString, String c (x +:+ rest))).
    change (take_digits (String c x)) with
      (if is_digit c
       then let (ds, r) := take_digits x in (String c ds, r)
       else (EmptyString, String c x)).
    destruct (is_digit c); [| reflexivity].
    rewrite IH. now destruct (take_digits x).
Qed.

Lemma take_digits_consumed (s : string) :
  s = (take_digits s).1 +:+ (take_digits s).2.
Proof.
  induction s as [| c s IH]; [reflexivity |].
  change (take_digits (String c s)) with
    (if is_digit c
     then let (ds, r) := take_digits s in (String c ds, r)
     else (EmptyString, String c s)).
  destruct (is_digit c); [| reflexivity].
  destruct (take_digits s) as [ds r]. cbn in *. now rewrite IH at 1.
Qed.

Lemma number_sign_app (c : ascii) (r rest : string) :
  number_sign (String c r +:+ rest) =
  ((number_sign (String c r)).1, (number_sign (String c r)).2 +:+ rest).
Proof. destruct c as [[] [] [] [] [] [] [] []]; reflexivity. Qed.

Lemma number_sign_consumed (s : string) :
  s = (number_sign s).1 +:+ (number_sign s).2.
Proof.
  destruct s as [| c r]; [reflexivity |].
  destruct c as [[] [] [] [] [] [] [] []]; reflexivity.
Qed.

Lemma number_integer_app (c : ascii) (r rest : string) :
  ends_number rest = true ->
  number_integer c (r +:+ rest) =
  ((number_integer c r).1, (number_integer c r).2 +:+ rest).
Proof.
  intros Hrest. unfold number_integer.
  destruct (Ascii.eqb c "0"); [reflexivity |].
  rewrite (take_digits_app r rest Hrest). now destruct (take_digits r).
Qed.

Lemma number_integer_consumed (c : ascii) (r : string) :
  String c r = (number_integer c r).1 +:+ (number_integer c r).2.
Proof.
  unfold number_integer. destruct (Ascii.eqb_spec c "0") as [-> | _]; [reflexivity |].
  rewrite (take_digits_consumed r) at 1. now destruct (take_digits r).
Qed.

Lemma ends_number_inv (c : ascii) (rest : string) :
  ends_number (String c rest) = true ->
  is_digit c = false ∧ Ascii.eqb c "." = false ∧
  Ascii.eqb c "e" = false ∧ Ascii.eqb c "E" = false.
Proof.
  cbn. intros H. apply negb_true_iff in H.
  repeat (apply orb_false_iff in H; destruct H as [H ?]). auto.
Qed.

Lemma number_fraction_app (r1 rest : string) (frac_part r4 : string) :
  ends_number rest = true ->
  number_fraction r1 = Some (frac_part, r4) ->
  number_fraction (r1 +:+ rest) = Some (frac_part, r4 +:+ rest).
Proof.
  intros Hrest. destruct r1 as [| c r2].
  - intros [= <- <-]. destruct rest as [| c rest]; [reflexivity |].
    apply ends_number_inv in Hrest. destruct Hrest as (_ & Hdot & _).
    destruct c as [[] [] [] [] [] [] [] []]; try reflexivity; discriminate Hdot.
  - destruct c as [[] [] [] [] [] [] [] []];
      try (intros [= <- <-]; reflexivity).
    change (number_fraction (String "." r2))
      with (let (ds, r3) := take_digits r2 in
            if is_empty ds then None else Some ("." +:+ ds, r3)).
    change (number_fraction (String "." r2 +:+ rest))
      with (let (ds, r3) := take_digits (r2 +:+ rest) in
            if is_empty ds then None else Some ("." +:+ ds, r3)).
    rewrite (take_digits_app r2 rest Hrest).
    destruct (take_digits r2) as [ds r3]. cbn.
    destruct (is_empty ds); [discriminate |]. now intros [= <- <-].
Qed.

Lemma number_fraction_consumed (r1 frac_part r4 : string) :
  number_fraction r1 = Some (frac_part, r4) -> r1 = frac_part +:+ r4.
Proof.
  destruct r1 as [| c r2]; [now intros [= <- <-] |].
  destruct c as [[] [] [] [] [] [] [] []];
    try (intros [= <- <-]; reflexivity).
  change (number_fraction (String "." r2))
    with (let (ds, r3) := take_digits r2 in
          if is_empty ds then None else Some ("." +:+ ds, r3)).
  rewrite (take_digits_consumed r2) at 2.
  destruct (take_digits r2) as [ds r3]. cbn.
  destruct (is_empty ds); [discriminate |]. now intros [= <- <-].
Qed.

Lemma exponent_sign_app (c : ascii) (r rest : string) :
  exponent_sign (String c r +:+ rest) =
  ((exponent_sign (String c r)).1, (exponent_sign (String c r)).2 +:+ rest).
Proof. destruct c as [[] [] [] [] [] [] [] []]; reflexivity. Qed.

Lemma exponent_sign_consumed (s : string) :
  s = (exponent_sign s).1 +:+ (exponent_sign s).2.
Proof.
  destruct s as [| c r]; [reflexivity |].
  destruct c as [[] [] [] [] [] [] [] []]; reflexivity.
Qed.

Lemma number_exponent_app (sign int_part frac_part : string) (e : ascii)
  (r5 rest lit r : string) :
  ends_number rest = true ->
  number_exponent sign int_part frac_part e r5 = Some (lit, r) ->
  number_exponent sign int_part frac_part e (r5 +:+ rest) = Some (lit, r +:+ rest).
Proof.
  intros Hrest. unfold number_exponent. destruct r5 as [| c r5]; [discriminate |].
  rewrite exponent_sign_app.
  destruct (exponent_sign (String c r5)) as [esign r6]. cbn [fst snd].
  rewrite (take_digits_app r6 rest Hrest).
  destruct (take_digits r6) as [ds r7]. cbn [fst snd].
  destruct (is_empty ds); [discriminate |]. now intros [= <- <-].
Qed.

Lemma number_exponent_consumed (sign int_part frac_part : string) (e : ascii)
  (r5 lit r : string) :
  number_exponent sign int_part frac_part e r5 = Some (lit, r) ->
  sign +:+ int_part +:+ frac_part +:+ String e r5 = lit +:+ r.
Proof.
  unfold number_exponent. rewrite (exponent_sign_consumed r5) at 2.
  destruct (exponent_sign r5) as [esign r6]. cbn [fst snd].
  rewrite (take_digits_consumed r6) at 2.
  destruct (take_digits r6) as [ds r7]. cbn [fst snd].
  destruct (is_empty ds); [discriminate |]. intros [= <- <-].
  rewrite !append_assoc.
  change (String e (esign +:+ ds) +:+ r7) with (String e ((esign +:+ ds) +:+ r7)).
  now rewrite append_assoc.
Qed.

Lemma number_tail_app (sign int_part frac_part r4 rest lit r : string) :
  ends_number rest = true ->
  number_tail sign int_part frac_part r4 = Some (lit, r) ->
  number_tail sign int_part frac_part (r4 +:+ rest) = Some (lit, r +:+ rest).
Proof.
  intros Hrest. destruct r4 as [| c r5].
  - intros [= <- <-]. destruct rest as [| c rest]; [reflexivity |].
    apply ends_number_inv in Hrest. destruct Hrest as (_ & _ & He & HE).
    destruct c as [[] [] [] [] [] [] [] []]; try reflexivity;
      (discriminate He || discriminate HE).
  - destruct c as [[] [] [] [] [] [] [] []];
      try (intros [= <- <-]; reflexivity);
      apply (number_exponent_app _ _ _ _ _ _ _ _ Hrest).
Qed.

Lemma number_tail_consumed (sign int_part frac_part r4 lit r : string) :
  number_tail sign int_part frac_part r4 = Some (lit, r) ->
  sign +:+ int_part +:+ frac_part +:+ r4 = lit +:+ r.
Proof.
  destruct r4 as [| c r5].
  - intros [= <- <-]. now rewrite !append_assoc.
  - destruct c as [[] [] [] [] [] [] [] []];
      try (intros [= <- <-]; now rewrite !append_assoc);
      apply number_exponent_consumed.
Qed.

(** A number literal is read the same when something that cannot continue
    it follows. *)
Lemma parse_number_app (s rest lit r : string) :
  ends_number rest = true ->
  parse_number s = Some (lit, r) ->
  parse_number (s +:+ rest) = Some (lit, r +:+ rest).
Proof.
  intros Hrest.
  rewrite (parse_number_stages s), (parse_number_stages (s +:+ rest)).
  unfold number_stages.
  destruct s as [| c0 s0]; [discriminate |].
  rewrite number_sign_app.
  destruct (number_sign (String c0 s0)) as [sign s1]. cbn [fst snd].
  destruct s1 as [| c r1]; [discriminate |].
  change (String c r1 +:+ rest) with (String c (r1 +:+ rest)). cbv beta iota.
  destruct (is_digit c); [| discriminate].
  rewrite (number_integer_app c r1 rest Hrest).
  destruct (number_integer c r1) as [int_part r2]. cbn [fst snd].
  destruct (number_fraction r2) as [[frac_part r4] |] eqn:Hfrac; [| discriminate].
  rewrite (number_fraction_app r2 rest frac_part r4 Hrest Hfrac).
  apply (number_tail_app _ _ _ _ _ _ _ Hrest).
Qed.

Lemma parse_number_consumed (s lit r : string) :
  parse_number s = Some (lit, r) -> s = lit +:+ r.
Proof.
  rewrite parse_number_stages. unfold number_stages.
  rewrite (number_sign_consumed s) at 2.
  destruct (number_sign s) as [sign s1]. cbn [fst snd].
  destruct s1 as [| c r1]; [discriminate |].
  destruct (is_digit c); [| discriminate].
  rewrite (number_integer_consumed c r1).
  destruct (number_integer c r1) as [int_part r2]. cbn [fst snd].
  destruct (number_fraction r2) as [[frac_part r4] |] eqn:Hfrac; [| discriminate].
  apply number_fraction_consumed in Hfrac. subst r2.
  intros Htail. apply number_tail_consumed in Htail. exact Htail.
Qed.

Lemma is_number_parse (lit rest : string) :
  is_number lit = true -> ends_number rest = true ->
  parse_number (lit +:+ rest) = Some (lit, rest).
Proof.
  unfold is_number. intros Hlit Hrest.
  destruct (parse_number lit) as [[l r] |] eqn:Hparse; [| discriminate].
  destruct r; [| discriminate].
  pose proof (parse_number_consumed lit l EmptyString Hparse) as Heq.
  rewrite (parse_number_app lit rest l EmptyString Hrest Hparse).
  assert (Hl : l = lit).
  { rewrite Heq. clear. induction l as [| c l IH]; [reflexivity |].
    change (String c l = String c (l +:+ EmptyString)). now rewrite <- IH. }
  now rewrite Hl.
Qed.

End Numbers.

Section Values.
Import JsString Json Stages.

Lemma parse_value_stages (fuel : nat) (s : string) :
  parse_value fuel s = value_stages fuel s.
Proof. destruct fuel; reflexivity. Qed.

Lemma JSON_nested_ind (P : JSON -> Prop) :
  P JNull -> (forall b, P (JBool b)) -> (forall lit, P (JNum lit)) ->
  (forall s, P (JStr s)) ->
  (forall items, (forall x, In x items -> P x) -> P (JArr items)) ->
  (forall members, (forall kv, In kv members -> P (snd kv)) -> P (JObj members)) ->
  forall j, P j.
Proof.
  intros Hnull Hbool Hnum Hstr Harr Hobj. fix IH 1.
  intros [| b | lit | s | items | members].
  - exact Hnull.
  - apply Hbool.
  - apply Hnum.
  - apply Hstr.
  - apply Harr. revert items. fix IHl 1. intros [| x items] y Hy.
    + destruct Hy.
    + destruct Hy as [<- | Hy]; [apply IH | exact (IHl items y Hy)].
  - apply Hobj. revert members. fix IHl 1. intros [| [k v] members] y Hy.
    + destruct Hy.
    + destruct Hy as [<- | Hy]; [apply IH | exact (IHl members y Hy)].
Qed.

Lemma stringify_array (items : list JSON) :
  stringify (JArr items) = "[" +:+ commas (map stringify items) +:+ "]".
Proof. reflexivity. Qed.

Lemma stringify_object (members : list (string * JSON)) :
  stringify (JObj members) =
  "{" +:+
  commas (map (fun kv => quoted (fst kv) +:+ ":" +:+ stringify (snd kv)) members)
  +:+ "}".
Proof. reflexivity. Qed.

Lemma number_start (lit : string) :
  is_number lit = true ->
  ∃ c t, lit = String c t ∧ (is_digit c || Ascii.eqb c "-") = true.
Proof.
  unfold is_number. destruct lit as [| c t]; [discriminate |].
  intros Hlit. exists c, t. split; [reflexivity |].
  destruct (is_digit c) eqn:Hdigit; [reflexivity |].
  destruct (Ascii.eqb c "-") eqn:Hminus; [reflexivity |]. exfalso.
  rewrite parse_number_stages in Hlit. unfold number_stages in Hlit.
  assert (Hsign : number_sign (String c t) = (EmptyString, String c t)).
  { clear Hlit Hdigit.
    destruct c as [[] [] [] [] [] [] [] []]; try reflexivity; discriminate Hminus. }
  rewrite Hsign, Hdigit in Hlit. discriminate Hlit.
Qed.

(** The first character of a number decides for the number case. *)
Lemma number_char (c : ascii) :
  (is_digit c || Ascii.eqb c "-") = true ->
  is_json_space c = false ∧ Ascii.eqb c quote = false ∧
  Ascii.eqb c "[" = false ∧ Ascii.eqb c "{" = false ∧
  Ascii.eqb c "t" = false ∧ Ascii.eqb c "f" = false ∧ Ascii.eqb c "n" = false ∧
  Ascii.eqb c "]" = false ∧ Ascii.eqb c "}" = false.
Proof.
  destruct c as [[] [] [] [] [] [] [] []]; cbn; intros H;
    try discriminate H; repeat split.
Qed.

Lemma value_start (j : JSON) :
  well_formed j = true ->
  ∃ c t, stringify j = String c t ∧ is_json_space c = false ∧
         Ascii.eqb c "]" = false ∧ Ascii.eqb c "}" = false.
Proof.
  destruct j as [| [|] | lit | s | items | members]; intros Hwf.
  - now exists "n"%char, "ull".
  - now exists "t"%char, "rue".
  - now exists "f"%char, "alse".
  - destruct (number_start lit Hwf) as (c & t & -> & Hc).
    destruct (number_char c Hc) as (H1 & _ & _ & _ & _ & _ & _ & H2 & H3).
    now exists c, t.
  - eexists quote, _. split; [reflexivity | now repeat split].
  - rewrite stringify_array. eexists "["%char, _. split; [reflexivity | now repeat split].
  - rewrite stringify_object. eexists "{"%char, _. split; [reflexivity | now repeat split].
Qed.

Lemma skip_ws_start (c : ascii) (t : string) :
  is_json_space c = false -> skip_ws (String c t) = String c t.
Proof.
  intros Hc. change (skip_ws (String c t))
    with (if is_json_space c then skip_ws t else String c t).
  now rewrite Hc.
Qed.

Lemma array_open_elements (value : string -> option (JSON * string))
  (c : ascii) (t : string) :
  is_json_space c = false -> Ascii.eqb c "]" = false ->
  array_open value (String c t) =
  parse_elements value (String.length (String c t)) (String c t) [].
Proof.
  intros Hspace Hclose. unfold array_open. rewrite (skip_ws_start c t Hspace).
  destruct c as [[] [] [] [] [] [] [] []]; try reflexivity; discriminate Hclose.
Qed.

Lemma object_open_members (value : string -> option (JSON * string))
  (c : ascii) (t : string) :
  is_json_space c = false -> Ascii.eqb c "}" = false ->
  object_open value (String c t) =
  parse_members value (String.length (String c t)) (String c t) [].
Proof.
  intros Hspace Hclose. unfold object_open. rewrite (skip_ws_start c t Hspace).
  destruct c as [[] [] [] [] [] [] [] []]; try reflexivity; discriminate Hclose.
Qed.

Lemma closes_ends_number (rest : string) :
  closes rest = true -> ends_number rest = true.
Proof.
  destruct rest as [| c rest]; [reflexivity |]. cbn.
  destruct c as [[] [] [] [] [] [] [] []]; cbn; intros H;
    try discriminate H; reflexivity.
Qed.

Lemma parse_elements_values (value : string -> option (JSON * string))
  (items : list JSON) (n : nat) (rest : string) (acc : list JSON) :
  (forall x, In x items -> forall rest', closes rest' = true ->
     value (stringify x +:+ rest') = Some (x, rest')) ->
  items ≠ [] -> (length items <= n)%nat ->
  parse_elements value n (commas (map stringify items) +:+ "]" +:+ rest) acc =
  Some (JArr (rev acc ++ items), rest).
Proof.
  revert n acc. induction items as [| x items IH]; intros n acc Hvalue Hne Hlen;
    [congruence |].
  destruct n as [| n]; [cbn in Hlen; lia |].
  destruct items as [| y items].
  - change (commas (map stringify [x])) with (stringify x).
    cbn [parse_elements]. rewrite Hvalue; [| now left | reflexivity].
    change (skip_ws ("]" +:+ rest)) with (String "]" rest).
    reflexivity.
  - change (map stringify (x :: y :: items))
      with (stringify x :: map stringify (y :: items)).
    rewrite commas_cons by discriminate. rewrite !append_assoc.
    cbn [parse_elements]. rewrite Hvalue; [| now left | reflexivity].
    change (skip_ws ("," +:+ commas (map stringify (y :: items)) +:+ "]" +:+ rest))
      with (String "," (commas (map stringify (y :: items)) +:+ "]" +:+ rest)).
    cbn iota beta. rewrite IH; [| | discriminate | cbn in *; lia].
    + change (rev (x :: acc)) with (rev acc ++ [x]). now rewrite <- app_assoc.
    + intros z Hz. apply Hvalue. now right.
Qed.

Lemma parse_members_step (value : string -> option (JSON * string)) (n : nat)
  (k : string) (v : JSON) (tail : string) (acc : list (string * JSON)) :
  value (stringify v +:+ tail) = Some (v, tail) ->
  parse_members value (S n) (quoted k +:+ ":" +:+ stringify v +:+ tail) acc =
  match skip_ws tail with
  | String "," r4 => parse_members value n r4 ((k, v) :: acc)
  | String "}" r4 => Some (JObj (rev ((k, v) :: acc)), r4)
  | _ => None
  end.
Proof.
  intros Hvalue. unfold quoted.
  change (String quote (escape k +:+ String quote EmptyString)
          +:+ ":" +:+ stringify v +:+ tail)
    with (String quote ((escape k +:+ String quote EmptyString)
                        +:+ ":" +:+ stringify v +:+ tail)).
  rewrite append_assoc.
  change (String quote EmptyString +:+ ":" +:+ stringify v +:+ tail)
    with (String quote (String ":" (stringify v +:+ tail))).
  cbn [parse_members].
  rewrite (skip_ws_start quote _ eq_refl), Ascii.eqb_refl, parse_chars_escape.
  change (skip_ws (String ":" (stringify v +:+ tail)))
    with (String ":" (stringify v +:+ tail)).
  cbn iota beta. now rewrite Hvalue.
Qed.

Lemma parse_members_values (value : string -> option (JSON * string))
  (members : list (string * JSON)) (n : nat) (rest : string)
  (acc : list (string * JSON)) :
  (forall kv, In kv members -> forall rest', closes rest' = true ->
     value (stringify (snd kv) +:+ rest') = Some (snd kv, rest')) ->
  members ≠ [] -> (length members <= n)%nat ->
  parse_members value n
    (commas (map (fun kv => quoted (fst kv) +:+ ":" +:+ stringify (snd kv)) members)
     +:+ "}" +:+ rest) acc =
  Some (JObj (rev acc ++ members), rest).
Proof.
  revert n acc. induction members as [| [k v] members IH];
    intros n acc Hvalue Hne Hlen; [congruence |].
  destruct n as [| n]; [cbn in Hlen; lia |].
  destruct members as [| kv members].
  - change (commas (map (fun kv => quoted (fst kv) +:+ ":" +:+ stringify (snd kv)) [(k, v)]))
      with (quoted k +:+ ":" +:+ stringify v).
    rewrite !append_assoc.
    rewrite parse_members_step; [| apply (Hvalue (k, v)); [now left | reflexivity]].
    change (skip_ws ("}" +:+ rest)) with (String "}" rest).
    reflexivity.
  - change (map (fun kv => quoted (fst kv) +:+ ":" +:+ stringify (snd kv))
              ((k, v) :: kv :: members))
      with ((quoted k +:+ ":" +:+ stringify v)
            :: map (fun kv => quoted (fst kv) +:+ ":" +:+ stringify (snd kv))
                 (kv :: members)).
    rewrite commas_cons by discriminate. rewrite !append_assoc.
    rewrite parse_members_step; [| apply (Hvalue (k, v)); [now left | reflexivity]].
    match goal with
    | |- context [skip_ws ("," +:+ ?t)] =>
        change (skip_ws ("," +:+ t)) with (String "," t)
    end.
    cbn iota beta. rewrite IH; [| | discriminate | cbn in *; lia].
    + change (rev ((k, v) :: acc)) with (rev acc ++ [(k, v)]). now rewrite <- app_assoc.
    + intros z Hz. apply Hvalue. now right.
Qed.

Lemma commas_bound (l : list string) (rest : string) :
  (forall x, In x l -> (1 <= String.length x)%nat) ->
  (length l <= String.length (commas l +:+ "]" +:+ rest))%nat.
Proof.
  intros Hall. pose proof (commas_length l Hall) as Hlen.
  rewrite <- append_assoc, length_append. lia.
Qed.

Lemma commas_bound_brace (l : list string) (rest : string) :
  (forall x, In x l -> (1 <= String.length x)%nat) ->
  (length l <= String.length (commas l +:+ "}" +:+ rest))%nat.
Proof.
  intros Hall. pose proof (commas_bound l rest Hall) as Hlen.
  rewrite !length_append in *. exact Hlen.
Qed.

Lemma depth_item (items : list JSON) (x : JSON) :
  In x items -> (depth x <= fold_right Nat.max 0%nat (map depth items))%nat.
Proof.
  induction items as [| y items IH]; [intros [] |].
  intros [<- | Hx]; cbn; [lia |]. specialize (IH Hx). lia.
Qed.

Lemma depth_member (members : list (string * JSON)) (kv : string * JSON) :
  In kv members ->
  (depth (snd kv) <= fold_right Nat.max 0%nat (map (fun kv => depth (snd kv)) members))%nat.
Proof.
  induction members as [| y members IH]; [intros [] |].
  intros [<- | Hx]; cbn; [lia |]. specialize (IH Hx). lia.
Qed.

(** Reading back what [stringify] wrote, with something after it that
    closes the value. *)
Lemma parse_value_stringify (j : JSON) :
  well_formed j = true ->
  forall fuel rest, (depth j <= fuel)%nat -> closes rest = true ->
  parse_value fuel (stringify j +:+ rest) = Some (j, rest).
Proof.
  induction j as [| b | lit | s | items IH | members IH] using JSON_nested_ind;
    intros Hwf fuel rest Hfuel Hrest;
    (destruct fuel as [| fuel]; [cbn in Hfuel; lia |]).
  - reflexivity.
  - now destruct b.
  - destruct (number_start lit Hwf) as (c & t & -> & Hc).
    destruct (number_char c Hc) as (H1 & H2 & H3 & H4 & H5 & H6 & H7 & _).
    rewrite parse_value_stages. unfold value_stages.
    change (stringify (JNum (String c t)) +:+ rest) with (String c (t +:+ rest)).
    rewrite (skip_ws_start c _ H1), H2, H3, H4, H5, H6, H7.
    change (String c (t +:+ rest)) with (String c t +:+ rest).
    now rewrite (is_number_parse _ rest Hwf (closes_ends_number rest Hrest)).
  - apply parse_value_quoted.
  - rewrite parse_value_stages. unfold value_stages.
    rewrite stringify_array, !append_assoc.
    change ("[" +:+ commas (map stringify items) +:+ "]" +:+ rest)
      with (String "[" (commas (map stringify items) +:+ "]" +:+ rest)).
    rewrite (skip_ws_start "[" _ eq_refl).
    change (Ascii.eqb "[" quote) with false. change (Ascii.eqb "[" "[") with true.
    cbn iota.
    destruct items as [| x items]; [reflexivity |].
    assert (Hall : forall y, In y (x :: items) -> well_formed y = true).
    { intros y Hy. cbn [well_formed] in Hwf.
      rewrite forallb_forall in Hwf. now apply Hwf. }
    assert (Hstart : ∃ c t,
               commas (map stringify (x :: items)) +:+ "]" +:+ rest = String c t ∧
               is_json_space c = false ∧ Ascii.eqb c "]" = false).
    { destruct (value_start x (Hall x (or_introl eq_refl))) as (c & t & Hx & Hs & Hb & _).
      destruct items as [| y items].
      - change (commas (map stringify [x])) with (stringify x). rewrite Hx.
        now eexists c, _.
      - change (map stringify (x :: y :: items))
          with (stringify x :: map stringify (y :: items)).
        rewrite commas_cons by discriminate. rewrite Hx. now eexists c, _. }
    destruct Hstart as (c & t & Heq & Hs & Hb).
    rewrite Heq, (array_open_elements _ c t Hs Hb), <- Heq.
    rewrite parse_elements_values; [reflexivity | | discriminate |].
    + intros y Hy rest' Hrest'. apply IH; [exact Hy | now apply Hall | | exact Hrest'].
      pose proof (depth_item (x :: items) y Hy) as Hd.
      change (depth (JArr (x :: items)))
        with (S (fold_right Nat.max 0%nat (map depth (x :: items)))) in Hfuel. lia.
    + rewrite <- (length_map stringify (x :: items)). apply commas_bound.
      intros z Hz. apply in_map_iff in Hz. destruct Hz as (y & <- & Hy).
      destruct (value_start y (Hall y Hy)) as (c' & t' & -> & _). cbn. lia.
  - rewrite parse_value_stages. unfold value_stages.
    rewrite stringify_object, !append_assoc.
    match goal with
    | |- context [skip_ws ("{" +:+ ?t)] => change ("{" +:+ t) with (String "{" t)
    end.
    rewrite (skip_ws_start "{" _ eq_refl).
    change (Ascii.eqb "{" quote) with false. change (Ascii.eqb "{" "[") with false.
    change (Ascii.eqb "{" "{") with true. cbn iota.
    destruct members as [| kv members]; [reflexivity |].
    assert (Hall : forall y, In y (kv :: members) -> well_formed (snd y) = true).
    { intros y Hy. cbn [well_formed] in Hwf.
      rewrite forallb_forall in Hwf. now apply Hwf. }
    set (member_text := fun kv : string * JSON =>
                          quoted (fst kv) +:+ ":" +:+ stringify (snd kv)).
    assert (Hstart : ∃ t,
               commas (map member_text (kv :: members)) +:+ "}" +:+ rest
               = String quote t).
    { destruct members as [| y members].
      - now eexists.
      - change (map member_text (kv :: y :: members))
          with (member_text kv :: map member_text (y :: members)).
        rewrite commas_cons by discriminate. now eexists. }
    destruct Hstart as (t & Heq).
    rewrite Heq, (object_open_members _ quote t eq_refl eq_refl), <- Heq.
    unfold member_text.
    rewrite parse_members_values; [reflexivity | | discriminate |].
    + intros y Hy rest' Hrest'. apply IH; [exact Hy | now apply Hall | | exact Hrest'].
      pose proof (depth_member (kv :: members) y Hy) as Hd.
      change (depth (JObj (kv :: members)))
        with (S (fold_right Nat.max 0%nat
                   (map (fun kv => depth (snd kv)) (kv :: members)))) in Hfuel. lia.
    + rewrite <- (length_map
                    (fun kv => quoted (fst kv) +:+ ":" +:+ stringify (snd kv))
                    (kv :: members)).
      apply commas_bound_brace.
      intros z Hz. apply in_map_iff in Hz. destruct Hz as (y & <- & Hy).
      rewrite length_append. unfold quoted.
      change (String.length (String quote (escape (fst y) +:+ String quote EmptyString)))
        with (S (String.length (escape (fst y) +:+ String quote EmptyString))).
      lia.
Qed.

Lemma append_empty (s : string) : s +:+ EmptyString = s.
Proof.
  induction s as [| c s IH]; [reflexivity |].
  change (String c (s +:+ EmptyString) = String c s). now rewrite IH.
Qed.

Lemma commas_element (l : list string) (x : string) :
  In x l -> (String.length x <= String.length (commas l))%nat.
Proof.
  induction l as [| y l IH]; [intros [] |].
  destruct l as [| z l].
  - intros [<- | []]. cbn. lia.
  - rewrite commas_cons by discriminate. rewrite !length_append.
    intros [<- | Hx]; [lia |]. specialize (IH Hx). lia.
Qed.

Lemma fold_max_bound (l : list nat) (b : nat) :
  (forall n, In n l -> (n <= b)%nat) -> (fold_right Nat.max 0%nat l <= b)%nat.
Proof.
  induction l as [| n l IH]; intros Hall; cbn; [lia |].
  assert (n <= b)%nat by (apply Hall; now left).
  assert (fold_right Nat.max 0%nat l <= b)%nat by (apply IH; intros m Hm; apply Hall; now right).
  lia.
Qed.

Lemma depth_length (j : JSON) : (depth j <= S (String.length (stringify j)))%nat.
Proof.
  induction j as [| b | lit | s | items IH | members IH] using JSON_nested_ind;
    try (cbn; lia).
  - rewrite stringify_array. change (depth (JArr items))
      with (S (fold_right Nat.max 0%nat (map depth items))).
    rewrite !length_append. cbn [String.length].
    assert (fold_right Nat.max 0%nat (map depth items)
            <= S (String.length (commas (map stringify items))))%nat; [| lia].
    apply fold_max_bound. intros n Hn. apply in_map_iff in Hn.
    destruct Hn as (x & <- & Hx). specialize (IH x Hx).
    pose proof (commas_element (map stringify items) (stringify x) (in_map _ _ _ Hx)).
    lia.
  - rewrite stringify_object. change (depth (JObj members))
      with (S (fold_right Nat.max 0%nat (map (fun kv => depth (snd kv)) members))).
    rewrite !length_append. cbn [String.length].
    set (member_text := fun kv : string * JSON =>
                          quoted (fst kv) +:+ ":" +:+ stringify (snd kv)).
    assert (fold_right Nat.max 0%nat (map (fun kv => depth (snd kv)) members)
            <= S (String.length (commas (map member_text members))))%nat; [| lia].
    apply fold_max_bound. intros n Hn. apply in_map_iff in Hn.
    destruct Hn as (x & <- & Hx). specialize (IH x Hx).
    pose proof (commas_element (map member_text members) (member_text x)
                  (in_map _ _ _ Hx)) as Hlen.
    unfold member_text in Hlen at 1. rewrite !length_append in Hlen. lia.
Qed.

(** [JSON.parse(JSON.stringify(j))] is [j], for every value whose numbers
    are number literals. *)
Lemma parse_stringify (j : JSON) :
  well_formed j = true -> parse (stringify j) = Some j.
Proof.
  intros Hwf. unfold parse.
  rewrite <- (append_empty (stringify j)) at 2.
  rewrite (parse_value_stringify j Hwf _ EmptyString); [reflexivity | | reflexivity].
  pose proof (depth_length j). lia.
Qed.

End Values.

Section Records.
Import JsString Json Stages ResearchHub Contract.

Lemma json_strings_round (l : list string) : json_strings (strings_to_json l) = Some l.
Proof. apply mapM_json_string. Qed.

Lemma well_formed_strings (l : list string) : well_formed (strings_to_json l) = true.
Proof.
  unfold strings_to_json. cbn [well_formed]. apply forallb_forall.
  intros x Hx. apply in_map_iff in Hx. now destruct Hx as (s & <- & _).
Qed.

Lemma Document_of_to_json (d : Document) :
  Document_of_json (Document_to_json d) = Some d.
Proof.
  destruct d as [i t c u f g s k e p].
  destruct s as [s |], k as [k |], e as [e |], p as [p |];
    cbn -[json_strings strings_to_json];
    rewrite ?json_strings_round; reflexivity.
Qed.

Lemma well_formed_object (members : list (string * JSON)) :
  well_formed (JObj members) = forallb (fun kv => well_formed (snd kv)) members.
Proof. reflexivity. Qed.

Lemma well_formed_Document (d : Document) :
  is_number (id d) = true -> well_formed (Document_to_json d) = true.
Proof.
  intros Hid. unfold Document_to_json.
  rewrite well_formed_object. apply forallb_forall. intros kv Hin.
  repeat (apply in_app_or in Hin; destruct Hin as [Hin | Hin]).
  - repeat (destruct Hin as [<- | Hin]; [first [exact Hid | reflexivity | apply well_formed_strings] |]).
    destruct Hin.
  - destruct (summary d); [| destruct Hin]. now destruct Hin as [<- | []].
  - destruct (keywords d); [| destruct Hin].
    destruct Hin as [<- | []]. apply well_formed_strings.
  - destruct (entities d); [| destruct Hin].
    destruct Hin as [<- | []]. apply well_formed_strings.
  - destruct (topic d); [| destruct Hin]. now destruct Hin as [<- | []].
Qed.

(** A document whose identifier is a number literal is read back from its
    serialisation. *)
Lemma parse_document_stringify (d : Document) :
  is_number (id d) = true ->
  parse_document (stringify (Document_to_json d)) = Some d.
Proof.
  intros Hid. unfold parse_document.
  rewrite (parse_stringify _ (well_formed_Document d Hid)). cbn [mbind option_bind].
  apply Document_of_to_json.
Qed.

Lemma take_digits_uint (d : Decimal.uint) :
  take_digits (NilEmpty.string_of_uint d) = (NilEmpty.string_of_uint d, EmptyString).
Proof.
  induction d as [| d IH | d IH | d IH | d IH | d IH | d IH | d IH | d IH | d IH | d IH];
    [reflexivity | ..];
    cbn [NilEmpty.string_of_uint];
    match goal with
    | |- take_digits (String ?c ?t) = _ =>
        change (take_digits (String c t))
          with (let (ds, r) := take_digits t in (String c ds, r))
    end;
    now rewrite IH.
Qed.

Lemma is_number_digits (d : Decimal.uint) (sign : string) :
  canonical d -> sign = EmptyString ∨ sign = "-" ->
  is_number (sign +:+ NilEmpty.string_of_uint d) = true.
Proof.
  intros [Hnil Hzero] Hsign. unfold is_number.
  rewrite parse_number_stages. unfold number_stages.
  assert (Hs : number_sign (sign +:+ NilEmpty.string_of_uint d)
               = (sign, NilEmpty.string_of_uint d)).
  { destruct Hsign as [-> | ->]; [| reflexivity].
    destruct d; reflexivity. }
  rewrite Hs.
  destruct d as [| d | d | d | d | d | d | d | d | d | d]; [congruence | ..];
    cbn [NilEmpty.string_of_uint];
    match goal with
    | |- context [is_digit ?c] => change (is_digit c) with true
    end; cbv iota; unfold number_integer;
    match goal with
    | |- context [Ascii.eqb ?a ?b] =>
        let v := eval vm_compute in (Ascii.eqb a b) in
        change (Ascii.eqb a b) with v
    end; cbv iota.
  1: { rewrite (Hzero d eq_refl). reflexivity. }
  all: rewrite take_digits_uint; reflexivity.
Qed.

Lemma to_uint_canonical (p : positive) : canonical (Pos.to_uint p).
Proof.
  split; [apply DecimalPos.Unsigned.to_uint_nonnil |].
  intros d' Hd. exfalso.
  pose proof (DecimalPos.Unsigned.to_of (Pos.to_uint p)) as Hnorm.
  rewrite DecimalPos.Unsigned.of_to in Hnorm.
  change (N.to_uint (N.pos p)) with (Pos.to_uint p) in Hnorm.
  rewrite Hd, DecimalFacts.unorm_D0 in Hnorm.
  unfold Decimal.unorm in Hnorm.
  destruct (Decimal.nzhead d') eqn:Hhead.
  - injection Hnorm as ->.
    apply (DecimalPos.Unsigned.to_uint_nonzero p). exact Hd.
  - apply (DecimalFacts.nzhead_nonzero d' d'). congruence.
  - discriminate Hnorm.
  - discriminate Hnorm.
  - discriminate Hnorm.
  - discriminate Hnorm.
  - discriminate Hnorm.
  - discriminate Hnorm.
  - discriminate Hnorm.
  - discriminate Hnorm.
  - discriminate Hnorm.
Qed.

Lemma is_number_Z (z : Z) : is_number (Z_to_string z) = true.
Proof.
  unfold Z_to_string. destruct z as [| p | p]; [reflexivity | |].
  - pose proof (to_uint_canonical p) as Hc.
    change (NilZero.string_of_int (Z.to_int (Z.pos p)))
      with (NilZero.string_of_uint (Pos.to_uint p)).
    unfold NilZero.string_of_uint.
    destruct (Pos.to_uint p) eqn:Hp; try (rewrite <- Hp in *);
      try (apply (is_number_digits _ EmptyString Hc); now left).
    destruct Hc as [Hc _]. congruence.
  - pose proof (to_uint_canonical p) as Hc.
    change (NilZero.string_of_int (Z.to_int (Z.neg p)))
      with (String "-" (NilZero.string_of_uint (Pos.to_uint p))).
    unfold NilZero.string_of_uint.
    destruct (Pos.to_uint p) eqn:Hp; try (rewrite <- Hp in *);
      try (apply (is_number_digits _ "-" Hc); now right).
    destruct Hc as [Hc _]. congruence.
Qed.

Lemma json_integer_round (z : Z) : json_integer (JNum (Z_to_string z)) = Some z.
Proof.
  unfold json_integer, Z_to_string.
  rewrite NilZero.isi.
  - cbn. now rewrite DecimalZ.of_to.
  - destruct z; cbn; [discriminate | |];
      intros [= H]; exact (DecimalPos.Unsigned.to_uint_nonnil _ H).
  - destruct z; cbn; [discriminate | |];
      intros [= H]; exact (DecimalPos.Unsigned.to_uint_nonnil _ H).
Qed.

Lemma Note_of_to_json (n : Note) : Note_of_json (Note_to_json n) = Some n.
Proof.
  destruct n as [i t s]. unfold Note_to_json, Note_of_json.
  cbn -[json_integer Z_to_string]. now rewrite json_integer_round.
Qed.

Lemma notes_of_to_json (l : list Note) : notes_of_json (notes_to_json l) = Some l.
Proof.
  unfold notes_of_json, notes_to_json.
  induction l as [| n l IH]; [reflexivity |].
  cbn -[Note_of_json Note_to_json]. rewrite Note_of_to_json. cbn.
  cbn in IH. now rewrite IH.
Qed.

Lemma well_formed_notes (l : list Note) : well_formed (notes_to_json l) = true.
Proof.
  unfold notes_to_json. cbn [well_formed]. apply forallb_forall.
  intros x Hx. apply in_map_iff in Hx. destruct Hx as (n & <- & _).
  unfold Note_to_json. rewrite well_formed_object. cbn [forallb snd well_formed].
  now rewrite is_number_Z.
Qed.

(** A note list is read back from its serialisation. *)
Lemma parse_notes_stringify (l : list Note) :
  parse_notes (stringify (notes_to_json l)) = Some l.
Proof.
  unfold parse_notes. rewrite (parse_stringify _ (well_formed_notes l)).
  cbn [mbind option_bind]. apply notes_of_to_json.
Qed.

End Records.

Section Reloading.
Import JsString Json Stages ResearchHub Contract Store.

Lemma holds_storage_of (m : gmap string string) : holds (storage_of m) m.
Proof.
  split.
  - intros k v Hk. cbn. now rewrite Hk.
  - intros prefix. eexists. split; [reflexivity |].
    intros k. rewrite filter_In, in_map_iff. split.
    + intros [([k' v] & <- & Hin) Hp]. split; [| exact Hp].
      apply list_elem_of_In, elem_of_map_to_list in Hin. now exists v.
    + intros [[v Hv] Hp]. split; [| exact Hp].
      exists (k, v). split; [reflexivity |].
      now apply list_elem_of_In, elem_of_map_to_list.
Qed.

Lemma holds_listing (st : StorageView) (m : gmap string string) (prefix : string) :
  holds st m ->
  storage_list st prefix ≠ ListThrows ∧
  Forall (fun k => starts_with prefix k = true) (keys_of (storage_list st prefix)) ∧
  (forall k, In k (keys_of (storage_list st prefix)) <->
             is_Some (m !! k) ∧ starts_with prefix k = true).
Proof.
  intros [_ Hlist]. destruct (Hlist prefix) as (keys & Heq & Hkeys).
  rewrite Heq. cbn. split; [discriminate |]. split; [| exact Hkeys].
  apply Forall_forall. intros k Hk. apply list_elem_of_In, Hkeys in Hk. tauto.
Qed.

Lemma holds_loaded (st : StorageView) (m : gmap string string) (h : Hub) :
  holds st m ->
  loadData st h =
  setLinks (load_by_id parse_links "links:" st (keys_of (storage_list st "links:")))
    (setNotes (load_by_id parse_notes "notes:" st (keys_of (storage_list st "notes:")))
       (setDocuments (load_docs st (keys_of (storage_list st "doc:"))) h)).
Proof.
  intros Hst. apply loadData_loaded; now apply (holds_listing st m).
Qed.

(** A record of the store that parses is loaded under its identifier. *)
Lemma reload_by_id {A : Type} (parse_as : string -> option A) (prefix : string)
  (st : StorageView) (m : gmap string string) (i v : string) (x : A) :
  holds st m -> m !! (prefix +:+ i) = Some v -> v ≠ EmptyString ->
  parse_as v = Some x ->
  load_by_id parse_as prefix st (keys_of (storage_list st prefix)) !! i = Some x.
Proof.
  intros Hst Hm Hne Hparse.
  destruct (holds_listing st m prefix Hst) as (_ & Hall & Hkeys).
  apply (load_by_id_valid parse_as prefix st _ i x Hall).
  - apply Hkeys. split; [now exists v |]. apply starts_with_true. now exists i.
  - apply (load_value_valid parse_as st _ v x); [| exact Hne | exact Hparse].
    destruct Hst as [Hget _]. now apply Hget.
Qed.

(** A key the store does not hold loads nothing. *)
Lemma reload_absent {A : Type} (parse_as : string -> option A) (prefix : string)
  (st : StorageView) (m : gmap string string) (i : string) :
  holds st m -> m !! (prefix +:+ i) = None ->
  load_by_id parse_as prefix st (keys_of (storage_list st prefix)) !! i = None.
Proof.
  intros Hst Hm.
  destruct (holds_listing st m prefix Hst) as (_ & _ & Hkeys).
  destruct (load_by_id _ _ _ _ !! i) as [x |] eqn:Hx; [| reflexivity]. exfalso.
  apply load_by_id_Some in Hx. destruct Hx as (k & Hk & Hid & _).
  apply Hkeys in Hk. destruct Hk as [[v Hv] Hp].
  apply starts_with_true in Hp. destruct Hp as [j ->].
  rewrite replace_first_prefix in Hid. subst j. congruence.
Qed.

Lemma stringify_strings_nonempty (l : list string) :
  stringify (strings_to_json l) ≠ EmptyString.
Proof. unfold strings_to_json. rewrite stringify_array. discriminate. Qed.

Lemma stringify_notes_nonempty (l : list Note) :
  stringify (notes_to_json l) ≠ EmptyString.
Proof. unfold notes_to_json. rewrite stringify_array. discriminate. Qed.

Lemma stringify_Document_nonempty (d : Document) :
  stringify (Document_to_json d) ≠ EmptyString.
Proof. unfold Document_to_json. rewrite stringify_object. discriminate. Qed.

(** X19. A link survives a reload: when [linkDocuments(A, B)] is called in
    a state where [B] is not yet a target of [A] (or is one once, with the
    persisted list current) and the component is then loaded from a store
    that holds what was persisted, the link list loaded for [A] is the one
    [A] had in memory. *)
Theorem linkDocuments_reload (A : DocId) (B : string) (h h0 : Hub) (st : StorageView) :
  link_ready A B h ->
  holds st (persisted (linkDocuments A B h)) ->
  links (loadData st h0) !! A = Some (docLinks (linkDocuments A B h) A).
Proof.
  intros Hready Hst. rewrite (holds_loaded st _ h0 Hst). cbn.
  apply (reload_by_id parse_links "links:" st _ A
           (stringify (strings_to_json (docLinks (linkDocuments A B h) A))) _ Hst).
  - destruct Hready as [Habsent | [Honce Hsync]].
    + rewrite (linkDocuments_absent A B h Habsent).
      set (h1 := storage_set _ _ _).
      assert (Hl1 : docLinks h1 A = docLinks h A ++ [B]).
      { unfold docLinks, h1; cbn. now rewrite lookup_insert_eq. }
      rewrite Hl1. unfold h1; cbn. apply lookup_insert_eq.
    + assert (HB : In B (docLinks h A)) by (apply (count_occ_In string_dec); lia).
      rewrite (linkDocuments_present A B h HB). exact Hsync.
  - apply stringify_strings_nonempty.
  - apply parse_links_stringify.
Qed.

(** X20. A note survives a reload: after [addNote], loading from a store
    that holds what was persisted gives the document the note list it has
    in memory, the new note last. *)
Theorem addNote_reload (now : Z) (stamp : string) (docId : DocId) (note : string)
  (h h0 : Hub) (st : StorageView) :
  holds st (persisted (addNote now stamp docId note h)) ->
  notes (loadData st h0) !! docId =
  Some (docNotes h docId ++ [mkNote now note stamp]).
Proof.
  intros Hst. rewrite (holds_loaded st _ h0 Hst). cbn.
  apply (reload_by_id parse_notes "notes:" st _ docId
           (stringify (notes_to_json (docNotes h docId ++ [mkNote now note stamp]))) _ Hst).
  - unfold addNote. cbn. apply lookup_insert_eq.
  - apply stringify_notes_nonempty.
  - apply parse_notes_stringify.
Qed.

Lemma reload_document (st : StorageView) (m : gmap string string) (h0 : Hub)
  (d : Document) :
  holds st m -> is_number (id d) = true ->
  m !! doc_key (id d) = Some (stringify (Document_to_json d)) ->
  In d (documents (loadData st h0)).
Proof.
  intros Hst Hid Hm. rewrite (holds_loaded st m h0 Hst). cbn.
  rewrite load_docs_omap. apply list_elem_of_In, list_elem_of_omap.
  destruct (holds_listing st m "doc:" Hst) as (_ & _ & Hkeys).
  exists (doc_key (id d)). split.
  - apply list_elem_of_In, Hkeys. split; [eauto |].
    apply starts_with_true. now exists (id d).
  - apply (load_value_valid parse_document st _ (stringify (Document_to_json d))).
    + destruct Hst as [Hget _]. now apply Hget.
    + apply stringify_Document_nonempty.
    + now apply parse_document_stringify.
Qed.

(** X21. An upload survives a reload: when the new identifier is a number
    literal, loading from a store that holds what [reader.onload]
    persisted gives a document list that contains the uploaded document,
    field for field. *)
Theorem upload_reload (file : File) (result : string) (analysis : Analysis.t)
  (new_id : DocId) (now : string) (h h0 : Hub) (st : StorageView) :
  is_number new_id = true ->
  holds st (persisted (reader_onload file result analysis new_id now h)) ->
  In (newDoc file (extracted_text file result) analysis new_id now)
     (documents (loadData st h0)).
Proof.
  intros Hid Hst.
  apply (reload_document st _ h0
           (newDoc file (extracted_text file result) analysis new_id now) Hst Hid).
  unfold reader_onload. cbn. apply lookup_insert_eq.
Qed.


(** X23. A tag survives a reload: after [addTag] on a document of the list
    whose identifier is a number literal, loading from a store that holds
    what was persisted gives a list that contains the document as it is in
    memory, tag included. *)
Theorem addTag_reload (docId : DocId) (tag : string) (h h0 : Hub) (d : Document)
  (st : StorageView) :
  List.find (fun x => String.eqb (id x) docId) (documents h) = Some d ->
  is_number docId = true ->
  holds st (persisted (addTag docId tag h)) ->
  In (tagged docId tag d) (documents (loadData st h0)) ∧
  In tag (tags (tagged docId tag d)).
Proof.
  intros Hfind Hid Hst.
  assert (Hd : id d = docId).
  { apply find_some in Hfind. destruct Hfind as [_ Heq]. now apply String.eqb_eq in Heq. }
  split.
  - apply (reload_document st _ h0 _ Hst).
    + now rewrite tagged_id, Hd.
    + rewrite tagged_id, Hd, addTag_persisted, addTag_found, Hfind. cbn.
      apply lookup_insert_eq.
  - unfold tagged. rewrite Hd, String.eqb_refl. cbn.
    destruct (array_includes (tags d) tag) eqn:Hinc; cbn.
    + now apply array_includes_In.
    + apply in_or_app. right. now left.
Qed.

(** X24. After [deleteDocument], a reload finds neither notes nor links
    for the document: loading from a store that holds what is left gives
    no entry for its identifier in either mapping. *)
Theorem deleteDocument_reload (docId : DocId) (h h0 : Hub) (st : StorageView) :
  holds st (persisted (deleteDocument docId h)) ->
  notes (loadData st h0) !! docId = None ∧
  links (loadData st h0) !! docId = None.
Proof.
  intros Hst. rewrite (holds_loaded st _ h0 Hst). cbn.
  destruct (key_namespaces docId) as (Hdn & Hdl & Hnl).
  split.
  - apply (reload_absent parse_notes "notes:" st _ docId Hst).
    rewrite deleteDocument_persisted.
    rewrite lookup_delete_ne by (fold (notes_key docId); congruence).
    apply lookup_delete_eq.
  - apply (reload_absent parse_links "links:" st _ docId Hst).
    rewrite deleteDocument_persisted. apply lookup_delete_eq.
Qed.

End Reloading.

Section Trimming.
Import JsString ResearchHub.

Lemma strip_prefix_length (w s r : string) :
  strip_prefix w s = Some r ->
  String.length s = (String.length w + String.length r)%nat.
Proof.
  intros Hs. apply strip_prefix_Some in Hs. subst s. apply length_append.
Qed.

Lemma strip_space_shorter (forms : list string) (s r : string) :
  Forall (fun w => w ≠ EmptyString) forms ->
  strip_space forms s = Some r -> (String.length r < String.length s)%nat.
Proof.
  intros Hforms. induction Hforms as [| w forms Hw _ IH]; cbn; [discriminate |].
  destruct (strip_prefix w s) as [r' |] eqn:Hs.
  - intros [= <-]. apply strip_prefix_length in Hs.
    destruct w; [congruence | cbn in Hs; lia].
  - exact IH.
Qed.

Lemma drop_spaces_length (forms : list string) (n : nat) (s : string) :
  Forall (fun w => w ≠ EmptyString) forms ->
  (String.length (drop_spaces forms n s) <= String.length s)%nat.
Proof.
  intros Hforms. revert s. induction n as [| n IH]; intros s; cbn; [lia |].
  destruct (strip_space forms s) as [r |] eqn:Hs; [| lia].
  apply (strip_space_shorter forms s r Hforms) in Hs.
  specialize (IH r). lia.
Qed.

(** A string that [drop_spaces] leaves as it is starts with no form. *)
Lemma drop_spaces_fixed (forms : list string) (n : nat) (s : string) :
  Forall (fun w => w ≠ EmptyString) forms ->
  drop_spaces forms (S n) s = s -> strip_space forms s = None.
Proof.
  intros Hforms Hfix. cbn in Hfix.
  destruct (strip_space forms s) as [r |] eqn:Hs; [| reflexivity].
  exfalso. pose proof (drop_spaces_length forms n r Hforms) as Hle.
  apply (strip_space_shorter forms s r Hforms) in Hs.
  rewrite Hfix in Hle. lia.
Qed.

Lemma strip_prefix_snoc_None (x : ascii) (w s : string) :
  all_chars (fun c => negb (Ascii.eqb c x)) (later_bytes w) = true ->
  strip_prefix w s = None -> s ≠ EmptyString ->
  strip_prefix w (s +:+ String x EmptyString) = None.
Proof.
  revert s. induction w as [| a w IH]; intros s Hlater Hnone Hne; [discriminate |].
  destruct s as [| b s]; [congruence |].
  change (String b s +:+ String x EmptyString)
    with (String b (s +:+ String x EmptyString)).
  cbn [strip_prefix] in *. destruct (Ascii.eqb a b); [| reflexivity].
  cbn [later_bytes] in Hlater.
  destruct s as [| b' s].
  - destruct w as [| a' w]; [discriminate |].
    cbn [all_chars] in Hlater. apply andb_true_iff in Hlater.
    destruct Hlater as [Ha' _]. apply negb_true_iff in Ha'.
    change (EmptyString +:+ String x EmptyString) with (String x EmptyString).
    cbn [strip_prefix]. now rewrite Ha'.
  - apply IH; [| exact Hnone | discriminate].
    destruct w as [| a' w]; [reflexivity |].
    cbn [all_chars] in Hlater. apply andb_true_iff in Hlater.
    exact (proj2 Hlater).
Qed.

Lemma strip_space_snoc_None (x : ascii) (forms : list string) (s : string) :
  forallb (fun w => all_chars (fun c => negb (Ascii.eqb c x)) (later_bytes w)) forms
    = true ->
  strip_space forms s = None -> s ≠ EmptyString ->
  strip_space forms (s +:+ String x EmptyString) = None.
Proof.
  intros Hforms Hnone Hne. induction forms as [| w forms IH]; [reflexivity |].
  cbn [forallb] in Hforms. apply andb_true_iff in Hforms.
  destruct Hforms as [Hw Hforms]. cbn [strip_space fold_right] in *.
  destruct (strip_prefix w s) eqn:Hs; [discriminate |].
  rewrite (strip_prefix_snoc_None x w s Hw Hs Hne). exact (IH Hforms Hnone).
Qed.

Lemma spaces_not_empty : Forall (fun w => w ≠ EmptyString) spaces.
Proof. repeat constructor; discriminate. Qed.

(** The forms that [trim] removes are the forms of the white space code
    units, one for one. *)
Lemma spaces_white_space :
  Forall2 (fun w u => code_units w = Some [u] ∧ code_unit_bytes u = w)
    spaces white_space.
Proof. repeat constructor. Qed.

Lemma reverse_snoc (s : string) (x : ascii) :
  reverse (s +:+ String x EmptyString) = String x (reverse s).
Proof.
  unfold reverse.
  assert (Hl : list_ascii_of_string (s +:+ String x EmptyString)
               = list_ascii_of_string s ++ [x]).
  { induction s as [| c s IH]; [reflexivity |].
    change (String c s +:+ String x EmptyString)
      with (String c (s +:+ String x EmptyString)).
    cbn [list_ascii_of_string]. now rewrite IH. }
  now rewrite Hl, rev_unit.
Qed.

(** A text without white space at either end comes back from between two
    line breaks. *)
Lemma trim_between_lines (core : string) :
  trimStart core = core -> trimEnd core = core ->
  trim (newline +:+ core +:+ newline) = core.
Proof.
  intros Hstart Hend.
  destruct core as [| c core]; [reflexivity |].
  set (core' := String c core) in *. unfold trim.
  assert (Hfirst : trimStart (newline +:+ core' +:+ newline) = core' +:+ newline).
  { subst core'. unfold trimStart in *.
    change (newline +:+ String c core +:+ newline)
      with (String (ascii_of_nat 10) (String c core +:+ newline)).
    cbn [String.length].
    change (drop_spaces spaces (S ?n) (String (ascii_of_nat 10) ?u))
      with (drop_spaces spaces n u).
    cbn [String.length] in Hstart.
    apply (drop_spaces_fixed spaces _ _ spaces_not_empty) in Hstart.
    assert (Hnone : strip_space spaces (String c core +:+ newline) = None).
    { apply strip_space_snoc_None; [reflexivity | exact Hstart | discriminate]. }
    destruct (String.length (String c core +:+ newline)); [reflexivity |].
    cbn [drop_spaces]. now rewrite Hnone. }
  rewrite Hfirst. unfold trimEnd in *.
  unfold newline at 2. rewrite reverse_snoc.
  unfold newline. rewrite length_append. cbn [String.length].
  rewrite Nat.add_1_r.
  change (drop_spaces (map reverse spaces) (S ?n) (String (ascii_of_nat 10) ?u))
    with (drop_spaces (map reverse spaces) n u).
  exact Hend.
Qed.

End Trimming.

Section Slicing.
Import JsString.

Lemma take_units_whole_bounded (n : nat) (p r : string) (us : list N) :
  (String.length p <= n)%nat ->
  code_units p = Some us -> take_units (length us) (p +:+ r) = p.
Proof.
  revert p us. induction n as [| n IH]; intros p us Hn Hus.
  - destruct p; [| cbn in Hn; lia]. cbn in Hus. injection Hus as <-. reflexivity.
  - destruct p as [| a p]; [cbn in Hus; injection Hus as <-; reflexivity |].
    cbn [String.length] in Hn. cbn [code_units] in Hus. cbv zeta in Hus.
    change (String a p +:+ r) with (String a (p +:+ r)).
    destruct (N_of_ascii a <? 128)%N eqn:H1.
    { destruct (code_units p) as [us' |] eqn:Hp; [| discriminate].
      injection Hus as <-. cbn [length take_units].
      assert (H2 : (N_of_ascii a <? 192)%N = true).
      { apply N.ltb_lt. apply N.ltb_lt in H1. lia. }
      rewrite H2. f_equal. apply IH; [lia | exact Hp]. }
    destruct (N_of_ascii a <? 194)%N eqn:H0; [discriminate |].
    assert (H2 : (N_of_ascii a <? 192)%N = false).
    { apply N.ltb_ge. apply N.ltb_ge in H0. lia. }
    destruct (N_of_ascii a <? 224)%N eqn:H3.
    { destruct p as [| b p]; [discriminate |].
      destruct (is_continuation b); [| discriminate].
      destruct (code_units p) as [us' |] eqn:Hp; [| discriminate].
      injection Hus as <-. cbn [length take_units].
      change (String b p +:+ r) with (String b (p +:+ r)).
      rewrite H2, H3. do 2 f_equal. cbn [String.length] in Hn.
      apply IH; [lia | exact Hp]. }
    destruct (N_of_ascii a <? 240)%N; [| discriminate].
    destruct p as [| b [| c p]]; try discriminate.
    destruct (is_continuation b && is_continuation c
              && ((224 <? N_of_ascii a)%N || (160 <=? N_of_ascii b)%N));
      [| discriminate].
    destruct (code_units p) as [us' |] eqn:Hp; [| discriminate].
    injection Hus as <-. cbn [length take_units].
    change (String b (String c p) +:+ r) with (String b (String c (p +:+ r))).
    rewrite H2, H3. do 3 f_equal. cbn [String.length] in Hn.
    apply IH; [lia | exact Hp].
Qed.

(** The first code units of a text are the text it starts with, when that
    is whole and has that many. *)
Lemma take_units_whole (p r : string) (us : list N) :
  code_units p = Some us -> take_units (length us) (p +:+ r) = p.
Proof. apply (take_units_whole_bounded (String.length p)). lia. Qed.

End Slicing.

Section Answering.
Import JsString Json Stages ResearchHub Contract Answers.
Context {host : Host}.

Lemma block_text (type text : string) :
  item_text (block type text) =
  Some (Some (JStr (if String.eqb type "text" then text else EmptyString))).
Proof.
  unfold block, item_text.
  change (member "type" [("type", JStr type); ("text", JStr text)])
    with (Some (JStr type)).
  change (member "text" [("type", JStr type); ("text", JStr text)])
    with (Some (JStr text)).
  cbv beta iota. destruct (String.eqb type "text"); reflexivity.
Qed.

Lemma blocks_items (blocks : list (string * string)) :
  mapM item_text (map (fun b => block (fst b) (snd b)) blocks) =
  Some (map (fun b => Some (JStr (if String.eqb (fst b) "text" then snd b
                                  else EmptyString))) blocks).
Proof.
  induction blocks as [| [ty text] blocks IH]; [reflexivity |].
  cbn [map fst snd].
  change (mapM ?f (?x :: ?l)) with (y ← f x; k ← mapM f l; Some (y :: k)).
  cbv beta. now rewrite block_text, IH.
Qed.

Lemma strings_joined (texts : list string) :
  mapM joined (map (fun t => Some (JStr t)) texts) = Some texts.
Proof.
  induction texts as [| t texts IH]; [reflexivity |].
  cbn [map].
  change (mapM ?f (?x :: ?l)) with (y ← f x; k ← mapM f l; Some (y :: k)).
  cbv beta. rewrite IH. reflexivity.
Qed.

Lemma blocks_texts (blocks : list (string * string)) :
  joined_texts (map (fun b => block (fst b) (snd b)) blocks) =
  Some (join_empty
          (map (fun b => if String.eqb (fst b) "text" then snd b else EmptyString)
             blocks)).
Proof.
  unfold joined_texts. rewrite blocks_items. cbn [mbind option_bind].
  rewrite <- (map_map (fun b : string * string =>
                         if String.eqb (fst b) "text" then snd b else EmptyString)
                (fun t => Some (JStr t))).
  now rewrite strings_joined.
Qed.

(** X25. Of the elements of [content], only those of type text count:
    the text read from a response is the concatenation, in order, of the
    texts of its text blocks. *)
Theorem text_content_blocks (members : list (string * JSON))
  (blocks : list (string * string)) :
  member "content" members
    = Some (JArr (map (fun b => block (fst b) (snd b)) blocks)) ->
  text_content (JObj members) =
  Some (join_empty
          (map (fun b => if String.eqb (fst b) "text" then snd b else EmptyString)
             blocks)).
Proof.
  intros Hcontent. unfold text_content. now rewrite Hcontent, blocks_texts.
Qed.

Lemma includes_cons (c : ascii) (s needle : string) :
  includes (String c s) needle = starts_with needle (String c s) || includes s needle.
Proof. reflexivity. Qed.

Lemma starts_with_app (p x y : string) :
  starts_with p x = true -> starts_with p (x +:+ y) = true.
Proof.
  intros Hp. apply starts_with_true in Hp. destruct Hp as [r ->].
  apply starts_with_true. exists (r +:+ y). now rewrite append_assoc.
Qed.

(** No marker starts in front of a text that holds none, when what
    follows does not start with a back quote. *)
Lemma no_fence_start (x y : string) :
  starts_with "```" x = false -> starts_with "`" y = false ->
  x ≠ EmptyString -> starts_with "```" (x +:+ y) = false.
Proof.
  intros Hx Hy Hne.
  destruct x as [| c1 x]; [congruence |].
  change (String c1 x +:+ y) with (String c1 (x +:+ y)).
  rewrite starts_with_cons in *.
  destruct (Ascii.eqb "`" c1); [cbn [andb] in * | reflexivity].
  destruct x as [| c2 x].
  { change (EmptyString +:+ y) with y. now apply starts_with_back_quote. }
  change (String c2 x +:+ y) with (String c2 (x +:+ y)).
  rewrite starts_with_cons in *.
  destruct (Ascii.eqb "`" c2); [cbn [andb] in * | reflexivity].
  destruct x as [| c3 x]; [exact Hy |].
  change (String c3 x +:+ y) with (String c3 (x +:+ y)).
  rewrite starts_with_cons in *.
  now destruct (Ascii.eqb "`" c3).
Qed.

Lemma json_marker_is_marker (s : string) :
  starts_with "```" s = false -> starts_with "```json" s = false.
Proof.
  intros H3. destruct (starts_with "```json" s) eqn:H7; [| reflexivity].
  apply starts_with_true in H7. destruct H7 as [r ->].
  discriminate H3.
Qed.

Lemma strip_fences_free (x y : string) :
  includes x "```" = false -> starts_with "`" y = false ->
  strip_fences_from 0 (x +:+ y) = x +:+ strip_fences_from 0 y.
Proof.
  intros Hx Hy. induction x as [| c x IH]; [reflexivity |].
  rewrite includes_cons in Hx. apply orb_false_iff in Hx. destruct Hx as [Hc Hx].
  pose proof (no_fence_start (String c x) y Hc Hy ltac:(discriminate)) as H3.
  change (String c x +:+ y) with (String c (x +:+ y)) in *.
  rewrite strip_fences_cons, (json_marker_is_marker _ H3), H3.
  now rewrite (IH Hx).
Qed.

Lemma Analysis_of_to_json (a : Analysis.t) :
  Analysis_of_json (Analysis.to_json a) = Some a.
Proof.
  destruct a as [s k e t]. unfold Analysis.to_json, Analysis_of_json.
  cbn -[json_strings]. change (JArr (map JStr k)) with (strings_to_json k).
  change (JArr (map JStr e)) with (strings_to_json e).
  now rewrite !json_strings_round.
Qed.

Lemma well_formed_Analysis (a : Analysis.t) :
  well_formed (Analysis.to_json a) = true.
Proof.
  unfold Analysis.to_json. rewrite well_formed_object. cbn [forallb snd andb].
  change (JArr (map JStr (Analysis.keywords a)))
    with (strings_to_json (Analysis.keywords a)).
  change (JArr (map JStr (Analysis.entities a)))
    with (strings_to_json (Analysis.entities a)).
  now rewrite !well_formed_strings.
Qed.

(** Cleaning gives back a text without fence marker and without white
    space at its ends, whether it came bare or between fences. *)
Lemma clean_answer (core answer : string) :
  answer = core ∨ answer = fenced core ->
  includes core "```" = false ->
  trimmed core ->
  trim (strip_fences answer) = core.
Proof.
  intros Hanswer Hfree [Hstart Hend]. unfold strip_fences.
  destruct Hanswer as [-> | ->].
  - rewrite <- (append_empty core) at 1.
    rewrite (strip_fences_free _ EmptyString Hfree eq_refl).
    change (strip_fences_from 0 EmptyString) with EmptyString.
    rewrite append_empty. unfold trim. now rewrite Hstart.
  - unfold fenced.
    change (strip_fences_from 0
              ("```json" +:+ newline +:+ core +:+ newline +:+ "```"))
      with (strip_fences_from 0 (newline +:+ core +:+ newline +:+ "```")).
    rewrite <- append_assoc.
    rewrite (strip_fences_free (newline +:+ core) (newline +:+ "```"));
      [| exact Hfree | reflexivity].
    change (strip_fences_from 0 (newline +:+ "```")) with newline.
    rewrite append_assoc. now apply trim_between_lines.
Qed.

(** X26. An answer between fences is understood like a bare one: when the
    body of the response is JSON whose [content] is one text block, and
    the text of that block is a JSON text, bare or between the fences of a
    code block, without white space at its ends and without a run of three
    back quotes, [analyzeDocument] returns the value that text denotes,
    whatever the HTTP status and however body and text are laid out. *)
Theorem analyzeDocument_answer (fetch : Request -> FetchOutcome)
  (text title : string) (status : Z) (body : string)
  (members item : list (string * JSON)) (answer core : string) (j : JSON) :
  fetch (mkRequest title (take_units 5000 text)) = Response status body ->
  parse body = Some (JObj members) ->
  member "content" members = Some (JArr [JObj item]) ->
  member "type" item = Some (JStr "text") ->
  member "text" item = Some (JStr answer) ->
  answer = core ∨ answer = fenced core ->
  includes core "```" = false ->
  trimmed core ->
  parse core = Some j ->
  analyzeDocument fetch text title = j.
Proof.
  intros Hfetch Hbody Hcontent Htype Htext Hanswer Hfree Htrimmed Hcore.
  unfold analyzeDocument. rewrite Hfetch. unfold analysis_of_response.
  rewrite Hbody. cbn [mbind option_bind].
  unfold text_content. rewrite Hcontent. unfold joined_texts.
  change (mapM item_text [JObj item])
    with (y ← item_text (JObj item); Some [y]).
  unfold item_text. rewrite Htype, Htext.
  change (String.eqb "text" "text") with true. cbv iota.
  cbn [mbind option_bind].
  change (mapM joined [Some (JStr answer)]) with (Some [answer]).
  cbn [fmap option_fmap option_map].
  change (join_empty [answer]) with (answer +:+ EmptyString).
  rewrite append_empty. cbn [mbind option_bind].
  rewrite (clean_answer core answer Hanswer Hfree Htrimmed).
  now rewrite Hcore.
Qed.

(** X27. The service is sent the first 5000 code units of the text and no
    more: two texts that start with the same 5000 code units get the same
    analysis, whatever follows. *)
Theorem analyzeDocument_text_prefix (fetch : Request -> FetchOutcome)
  (p r1 r2 title : string) (us : list N) :
  code_units p = Some us -> length us = 5000%nat ->
  analyzeDocument fetch (p +:+ r1) title = analyzeDocument fetch (p +:+ r2) title.
Proof.
  intros Hp Hlen. unfold analyzeDocument.
  rewrite <- Hlen. now rewrite !(take_units_whole p _ us Hp).
Qed.

End Answering.

(** ** The further properties at work on the sample data *)

Section MoreWitnesses.
Import JsString Json Stages ResearchHub Contract Derived Store Answers.
Local Existing Instance Sample.host.

Lemma deleteDocument_after_upload_witness :
  documents (deleteDocument "1730000000002.75" Trial.uploaded_library)
  = documents Sample.library.
Proof.
  refine (proj1 (deleteDocument_after_upload Sample.notes_txt Sample.notes_txt_content
                   Sample.graph_theory "1730000000002.75" Sample.iso Sample.library _)).
  intros d [<- | [<- | []]]; cbn; discriminate.
Defined.

Lemma filteredDocs_no_criteria_witness :
  filteredDocs Sample.library = documents Sample.library.
Proof.
  exact (filteredDocs_no_criteria Sample.library eq_refl eq_refl).
Defined.

Lemma filteredDocs_term_case_witness :
  filteredDocs (setSearchTerm "QUANT" Sample.library)
  = filteredDocs (setSearchTerm "quant" Sample.library).
Proof.
  refine (filteredDocs_term_case "QUANT" "quant" Sample.library _).
  reflexivity.
Defined.

Lemma allTags_select_witness :
  In "Food" (allTags Sample.library) ∧
  ∃ d, In d (filteredDocs (setFilterTag "Food" (setSearchTerm EmptyString Sample.library))) ∧
       In "Food" (tags d).
Proof.
  assert (Hin : In "Food" (allTags Sample.library)).
  { vm_compute. tauto. }
  split; [exact Hin | exact (allTags_select "Food" Sample.library Hin)].
Defined.

Lemma addTag_appends_witness :
  documents Sample.library !! 0%nat = Some Sample.quantum ∧
  ∃ d', documents (addTag (id Sample.quantum) "urgent" Sample.library) !! 0%nat = Some d' ∧
        tags d' = ["Physics"; "to-read"; "urgent"].
Proof.
  split; [reflexivity |].
  destruct (addTag_appends (id Sample.quantum) "urgent" Sample.library 0 Sample.quantum
              eq_refl) as (d' & Hd' & _ & Htags & _).
  exists d'. split; [exact Hd' |]. apply Htags; [reflexivity |].
  cbn. intros [H | [H | []]]; discriminate H.
Defined.

Lemma addTag_store_agrees_witness :
  persisted (addTag (id Sample.quantum) "urgent" Sample.regenerated_library)
    !! doc_key (id Sample.quantum)
  = Some (stringify
            (Document_to_json
               (tagged (id Sample.quantum) "urgent"
                  (regenerated Sample.quantum Sample.graph_theory Sample.quantum)))).
Proof.
  exact (proj1 (proj2 (addTag_store_agrees (id Sample.quantum) "urgent"
                         Sample.regenerated_library _ eq_refl))).
Defined.

Lemma addTag_unknown_document_witness :
  documents (addTag "42" "urgent" Sample.library) = documents Sample.library.
Proof.
  refine (proj1 (addTag_unknown_document "42" "urgent" Sample.library _)).
  intros d [<- | [<- | []]]; cbn; discriminate.
Defined.


Lemma loadData_listing_throws_witness :
  loadData Trial.failing_store Sample.library = Sample.library.
Proof.
  refine (loadData_listing_throws Trial.failing_store Sample.library _).
  right. left. reflexivity.
Defined.

Lemma loadData_sound_witness :
  storage_list Sample.damaged_store "doc:" ≠ ListThrows ∧
  (forall d, In d (documents (loadData Sample.damaged_store initial)) ->
     ∃ k v, In k (keys_of (storage_list Sample.damaged_store "doc:")) ∧
            storage_get Sample.damaged_store k = GetValue v ∧ v ≠ EmptyString ∧
            parse_document v = Some d).
Proof.
  assert (Hdocs : storage_list Sample.damaged_store "doc:" ≠ ListThrows).
  { vm_compute. intros H. discriminate H. }
  split; [exact Hdocs |].
  refine (proj1 (loadData_sound Sample.damaged_store initial Hdocs _ _));
    vm_compute; intros H; discriminate H.
Defined.

Lemma linkDocuments_reload_witness :
  links (loadData (storage_of (persisted Sample.linked_library)) initial)
    !! id Sample.quantum
  = Some (docLinks Sample.linked_library (id Sample.quantum)).
Proof.
  refine (linkDocuments_reload (id Sample.quantum) (id Sample.baking) Sample.library
            initial _ _ (holds_storage_of _)).
  left. vm_compute. intros [].
Defined.

Lemma addNote_reload_witness :
  notes (loadData (storage_of (persisted Trial.noted_library)) initial)
    !! id Sample.quantum
  = Some (docNotes Sample.library (id Sample.quantum)
          ++ [mkNote 1730000000123 "read again" Sample.iso]).
Proof.
  exact (addNote_reload 1730000000123 Sample.iso (id Sample.quantum) "read again"
           Sample.library initial _ (holds_storage_of _)).
Defined.

Lemma upload_reload_witness :
  In (newDoc Sample.notes_txt
        (extracted_text Sample.notes_txt Sample.notes_txt_content)
        Sample.graph_theory "1730000000002.75" Sample.iso)
     (documents (loadData (storage_of (persisted Trial.uploaded_library)) initial)).
Proof.
  refine (upload_reload Sample.notes_txt Sample.notes_txt_content Sample.graph_theory
            "1730000000002.75" Sample.iso Sample.library initial _ _
            (holds_storage_of _)).
  vm_compute. reflexivity.
Defined.


Lemma addTag_reload_witness :
  In (tagged (id Sample.quantum) "urgent" Sample.quantum)
     (documents
        (loadData
           (storage_of (persisted (addTag (id Sample.quantum) "urgent" Sample.library)))
           initial)).
Proof.
  refine (proj1 (addTag_reload (id Sample.quantum) "urgent" Sample.library initial
                   Sample.quantum _ eq_refl _ (holds_storage_of _))).
  vm_compute. reflexivity.
Defined.

Lemma deleteDocument_reload_witness :
  notes (loadData
           (storage_of (persisted (deleteDocument (id Sample.quantum) Trial.noted_library)))
           initial) !! id Sample.quantum = None.
Proof.
  exact (proj1 (deleteDocument_reload (id Sample.quantum) Trial.noted_library initial _
                  (holds_storage_of _))).
Defined.

Lemma text_content_blocks_witness :
  text_content
    (JObj [("content", JArr [block "text" "{"; block "tool_use" "x"; block "text" "}"])])
  = Some "{}".
Proof.
  exact (text_content_blocks
           [("content", JArr [block "text" "{"; block "tool_use" "x"; block "text" "}"])]
           [("text", "{"); ("tool_use", "x"); ("text", "}")] eq_refl).
Defined.

Lemma analyzeDocument_answer_witness :
  analyzeDocument Trial.laid_out_service Sample.notes_txt_content "notes.txt"
  = JObj [("topic", JStr "Mathematics");
          ("summary", JStr "Meeting about graph theory");
          ("entities", JArr [JStr "Alice"; JStr "Bob"]);
          ("keywords", JArr [JStr "graph"; JStr "theory"])].
Proof.
  refine (analyzeDocument_answer Trial.laid_out_service Sample.notes_txt_content
            "notes.txt" 200 Trial.laid_out_body
            [("role", JStr "assistant");
             ("content",
              JArr [JObj [("text", JStr (fenced Trial.laid_out_answer));
                          ("citations", JNull);
                          ("type", JStr "text")]])]
            [("text", JStr (fenced Trial.laid_out_answer));
             ("citations", JNull);
             ("type", JStr "text")]
            (fenced Trial.laid_out_answer) Trial.laid_out_answer _
            eq_refl _ eq_refl eq_refl eq_refl (or_intror eq_refl) _ _ _).
  - vm_compute. reflexivity.
  - vm_compute. reflexivity.
  - split; vm_compute; reflexivity.
  - vm_compute. reflexivity.
Defined.

Lemma analyzeDocument_text_prefix_witness :
  analyzeDocument Trial.fenced_service (Trial.long_text +:+ "first ending") "a.txt"
  = analyzeDocument Trial.fenced_service (Trial.long_text +:+ "second ending") "a.txt".
Proof.
  refine (analyzeDocument_text_prefix Trial.fenced_service Trial.long_text
            "first ending" "second ending" "a.txt" (repeat 233%N 5000) _ _).
  - vm_compute. reflexivity.
  - apply repeat_length.
Defined.

End MoreWitnesses.
